(** * GoFlow: the renderer and the project scaffolding, embedded and verified

    The development follows the Go sources:
    - [renderer/renderer.go]: [NewRenderer], [Render], [createDomNode];
    - [cmd/init.go]: [runInit] and its templates, [runBuild] and
      [copyWasmExec].

    The browser document the renderer talks to through [syscall/js] is an
    explicit store of host nodes threaded through a state-and-panic monad;
    the file system [runInit] talks to is an explicit record threaded the
    same way, and so is the working directory of [runBuild], with the
    compiler and the Go installation as parameters.  [runDev], which only
    hands the directory to the HTTP server of the library and blocks, and
    the cobra wiring of the commands are not modelled.  Part I holds the
    embedding, Part II the properties. *)

From stdpp Require Import gmap strings list fin_maps pretty.

Open Scope string_scope.
Open Scope list_scope.

(** * Part I: the embedding *)

(** ** A state monad with early exit

    A computation runs on a state [S]; it either returns a value or stops
    with an [E] (a Go panic in the renderer, [os.Exit] in the command), and
    in both cases the state reached so far is kept: stopping does not roll
    back what the host has already been asked to do. *)

Inductive Outcome (E A : Type) :=
  | Ok (a : A)
  | Stopped (e : E).
Arguments Ok {E A} a.
Arguments Stopped {E A} e.

Definition M (S E A : Type) : Type := S -> Outcome E A * S.

Definition ret {S E A} (a : A) : M S E A := fun s => (Ok a, s).

Definition bind {S E A B} (m : M S E A) (k : A -> M S E B) : M S E B :=
  fun s => match m s with
           | (Ok a, s') => k a s'
           | (Stopped e, s') => (Stopped e, s')
           end.

Definition stop {S E A} (e : E) : M S E A := fun s => (Stopped e, s).

Notation "x <- m ;; k" := (bind m (fun x => k))
  (at level 100, m at next level, right associativity).
Notation "m ;;; k" := (bind m (fun _ => k))
  (at level 100, right associativity).

(** The panics of the renderer. *)
Inductive Panic :=
  | NilDereference                 (* field access through a nil pointer *)
  | NilFuncCall                    (* call of a nil func value *)
  | ValueError (method : string)   (* syscall/js: call of Value.<method> on a non-object *)
  | InvalidValue                   (* syscall/js: ValueOf: invalid value *)
  | JSException (name : string).   (* an exception thrown by the host, re-raised by Call *)

Definition panic {S A} (p : Panic) : M S Panic A := stop p.

(** A Go [for ... range] loop over an already ordered sequence. *)
Fixpoint forEach {S E A} (l : list A) (body : A -> M S E unit) : M S E unit :=
  match l with
  | [] => ret tt
  | x :: l' => body x ;;; forEach l' body
  end.

(** ** Package vdom *)

Module vdom.

(** Modelled from the spec: the type of the field [Type] of a node, whose
    declaration is not among the sources.  The renderer knows the two values
    [VNodeText] and [VNodeElement] and falls through on any other. *)
Inductive VNodeType :=
  | VNodeElement
  | VNodeText
  | VNodeOther.

(** The integers a JavaScript number holds exactly: [js.ValueOf] makes a
    Go integer a [float64]. *)
Definition maxExact : Z := 2 ^ 53.

(** A Go [interface{}] value as far as [js.ValueOf] and the host's
    conversion to a string tell values apart: a string, a boolean, the nil
    interface, an integer, or a value [js.ValueOf] rejects (a struct, a
    channel...).  An integer is one a [float64] holds exactly, which the host
    prints in decimal.  Left out are the values whose text in the host takes
    the number formatting of JavaScript or the content of an object to tell:
    larger integers, floating-point numbers, slices, maps and [js.Value]s. *)
Inductive GoValue :=
  | GoString (s : string)
  | GoBool (b : bool)
  | GoNil
  | GoInt (n : Z) (exact : Is_true (Z.abs n <=? maxExact)%Z)
  | GoUnsupported.

(** A [func()] value: nil, or a function of the application, known by its
    name. *)
Definition GoFunc := option string.

(** Modelled from the spec: the declaration of [vdom.VNode] is not among the
    sources.  The fields are the ones [createDomNode] reads; the README
    writes [Props] as [map[string]interface{}] and [Children] as
    [[]*vdom.VNode], and the renderer calls a handler with no argument, so
    [EventHandlers] is [map[string]func()].

    A [*VNode] is an [option VNode], [None] being the nil pointer.  Trees are
    finite and unshared, as the data model of the spec has them. *)
#[local] Unset Elimination Schemes.
Inductive VNode := mkVNode {
  Type_ : VNodeType;                 (* the Go field [Type] *)
  Tag : string;
  Props : gmap string GoValue;
  Children : list (option VNode);
  Text : string;
  EventHandlers : gmap string GoFunc
}.
#[local] Set Elimination Schemes.

(** A text leaf and an element, as composite literals leave the other
    fields at their zero values. *)
Definition text (s : string) : VNode :=
  mkVNode VNodeText "" ∅ [] s ∅.
Definition element (tag : string) (props : gmap string GoValue)
    (handlers : gmap string GoFunc) (children : list (option VNode)) : VNode :=
  mkVNode VNodeElement tag props children "" handlers.

End vdom.
Import vdom.

(** ** The host document behind syscall/js *)

Module js.

Definition nodeId := nat.

(** A [js.Value] as the renderer meets it: [null], or a reference to a node
    of the host document. *)
Inductive Value :=
  | Null
  | Node (id : nodeId).

Definition Truthy (v : Value) : bool :=
  match v with Null => false | Node _ => true end.

(** The function [js.FuncOf] makes in [createDomNode]: it captures [handler]
    and, whatever [this] and [args] are, calls it with no argument. *)
Inductive Func :=
  | FuncOf (handler : GoFunc).

Inductive NodeKind :=
  | TextNode (data : string)
  | ElementNode (tag : string).

Record HostNode := mkHostNode {
  kind : NodeKind;
  attributes : gmap string string;
  listeners : gmap string (list Func);   (* per event name, in registration order *)
  childNodes : list nodeId
}.

#[global] Instance Func_eq_dec : EqDecision Func.
Proof. solve_decision. Defined.
#[global] Instance NodeKind_eq_dec : EqDecision NodeKind.
Proof. solve_decision. Defined.
#[global] Instance HostNode_eq_dec : EqDecision HostNode.
Proof. solve_decision. Defined.

(** The document: every node ever created, addressed by its position (a node
    that is detached stays in the store, unreachable), and the element the
    host's [documentElement] is. *)
Record Document := mkDocument {
  nodes : list HostNode;
  documentElement : nodeId
}.

Definition isElement (n : HostNode) : bool :=
  match kind n with ElementNode _ => true | TextNode _ => false end.

Definition setNodes (d : Document) (ns : list HostNode) : Document :=
  mkDocument ns (documentElement d).

Definition alloc (n : HostNode) : M Document Panic Value :=
  fun d => (Ok (Node (length (nodes d))), setNodes d (nodes d ++ [n])).

Definition update (id : nodeId) (f : HostNode -> HostNode) : M Document Panic unit :=
  fun d => (Ok tt, setNodes d (alter f id (nodes d))).

(** What [ValueOf] followed by the host's string conversion gives for an
    argument of [setAttribute]; [None] when [ValueOf] panics. *)
Definition attrString (v : GoValue) : option string :=
  match v with
  | GoString s => Some s
  | GoBool true => Some "true"
  | GoBool false => Some "false"
  | GoNil => Some "null"
  | GoInt n _ => Some (pretty n)
  | GoUnsupported => None
  end.

Section Host.

(** The host's check of element and attribute names. *)
Variable validName : string -> bool.

(** [v.Set] of [innerHTML] to the empty string: [Set] panics unless [v] is
    an object; on a node it drops all children. *)
Definition clearInnerHTML (v : Value) : M Document Panic unit :=
  match v with
  | Null => panic (ValueError "Value.Set")
  | Node id => update id (fun n => mkHostNode (kind n) (attributes n) (listeners n) [])
  end.

(** [document.Call("createTextNode", s)]. *)
Definition createTextNode (s : string) : M Document Panic Value :=
  alloc (mkHostNode (TextNode s) ∅ ∅ []).

(** [document.Call("createElement", tag)]. *)
Definition createElement (tag : string) : M Document Panic Value :=
  if validName tag then alloc (mkHostNode (ElementNode tag) ∅ ∅ [])
  else panic (JSException "InvalidCharacterError").

(** [element.Call("setAttribute", key, value)].  The element keeps its
    attributes as a set, under the names as the renderer spells them: the
    position of an attribute among the others and the folding of names an
    HTML document applies are not tracked. *)
Definition setAttribute (el : Value) (key : string) (value : GoValue) : M Document Panic unit :=
  match el with
  | Null => panic (ValueError "Value.Call")
  | Node id =>
      match attrString value with
      | None => panic InvalidValue
      | Some s =>
          if validName key then
            update id (fun n => mkHostNode (kind n) (<[key := s]> (attributes n))
                                           (listeners n) (childNodes n))
          else panic (JSException "InvalidCharacterError")
      end
  end.

(** [element.Call("addEventListener", event, f)]. *)
Definition addEventListener (el : Value) (event : string) (f : Func) : M Document Panic unit :=
  match el with
  | Null => panic (ValueError "Value.Call")
  | Node id =>
      update id (fun n => mkHostNode (kind n) (attributes n)
                   (<[event := default [] (listeners n !! event) ++ [f]]> (listeners n))
                   (childNodes n))
  end.

(** [parent.Call("appendChild", child)].  The host throws when [child] is
    not a node and when [parent] cannot have children.  The renderer only
    ever appends a node it has just created, so the removal of [child] from
    a previous parent is not modelled. *)
Definition appendChild (parent child : Value) : M Document Panic unit :=
  match parent with
  | Null => panic (ValueError "Value.Call")
  | Node p =>
      match child with
      | Null => panic (JSException "TypeError")
      | Node c =>
          fun d =>
            match nodes d !! p with
            | Some n =>
                if isElement n then
                  update p (fun n => mkHostNode (kind n) (attributes n) (listeners n)
                                                (childNodes n ++ [c])) d
                else panic (JSException "HierarchyRequestError") d
            | None => panic (JSException "TypeError") d
            end
      end
  end.

(** The first element, in tree order from [at_], whose [id] attribute is
    [id].  [fuel] bounds the depth of the walk. *)
Fixpoint findById (fuel : nat) (d : Document) (id : string) (at_ : nodeId) : option nodeId :=
  match fuel with
  | O => None
  | S fuel' =>
      match nodes d !! at_ with
      | None => None
      | Some n =>
          if isElement n && bool_decide (attributes n !! "id" = Some id) then Some at_
          else
            (fix first (cs : list nodeId) : option nodeId :=
               match cs with
               | [] => None
               | c :: cs' =>
                   match findById fuel' d id c with
                   | Some r => Some r
                   | None => first cs'
                   end
               end) (childNodes n)
      end
  end.

(** [document.Call("getElementById", id)]: the first element of the
    document whose [id] attribute is [id]; [null] when there is none, and for
    the empty [id], which no element is found by. *)
Definition getElementById (d : Document) (id : string) : Value :=
  if bool_decide (id = "") then Null
  else
    match findById (S (length (nodes d))) d id (documentElement d) with
    | Some r => Node r
    | None => Null
    end.

End Host.

End js.

(** ** Package renderer *)

Module renderer.
Import js.

Record Renderer := mkRenderer {
  container : Value
}.

(** A native event as the host hands it to a listener: its name and the
    current value its target reports ([event.target.value]). *)
Record Event := mkEvent {
  eventType : string;
  targetValue : string
}.

(** One call of a function of the application: which one, and the arguments
    it was given. *)
Record Invocation := mkInvocation {
  callee : string;
  arguments : list string
}.

Section Renderer.

Variable validName : string -> bool.

(** The order in which a [for ... range] visits the entries of a map.  Go
    leaves it unspecified: the properties below are proved for every
    enumeration of the entries. *)
Variable rangeOrder : forall V : Type, gmap string V -> list (string * V).

Definition NewRenderer (d : Document) (containerID : string) : Renderer :=
  mkRenderer (getElementById d containerID).

Fixpoint createDomNode (vnode : VNode) : M Document Panic Value :=
  match Type_ vnode with
  | VNodeText => createTextNode (Text vnode)
  | VNodeElement =>
      element <- createElement validName (Tag vnode) ;;
      (* Set properties *)
      forEach (rangeOrder _ (Props vnode))
        (fun kv => setAttribute validName element kv.1 kv.2) ;;;
      (* Add event listeners: each iteration has its own [handler], as loop
         variables are per iteration from Go 1.22 on, the version the README
         asks for *)
      forEach (rangeOrder _ (EventHandlers vnode))
        (fun eh => addEventListener element eh.1 (FuncOf eh.2)) ;;;
      (* Append children *)
      (fix appendChildren (cs : list (option VNode)) : M Document Panic unit :=
         match cs with
         | [] => ret tt
         | child :: cs' =>
             childNode <- match child with
                          | None => panic NilDereference
                          | Some c => createDomNode c
                          end ;;
             (if Truthy childNode then appendChild element childNode else ret tt) ;;;
             appendChildren cs'
         end) (Children vnode) ;;;
      ret element
  | VNodeOther => ret Null
  end.

(** [createDomNode] on a pointer: reading [vnode.Type] through nil panics. *)
Definition createDomNodePtr (vnode : option VNode) : M Document Panic Value :=
  match vnode with
  | None => panic NilDereference
  | Some v => createDomNode v
  end.

(** The children loop of [createDomNode], named. *)
Fixpoint appendChildren (element : Value) (cs : list (option VNode)) : M Document Panic unit :=
  match cs with
  | [] => ret tt
  | child :: cs' =>
      childNode <- createDomNodePtr child ;;
      (if Truthy childNode then appendChild element childNode else ret tt) ;;;
      appendChildren element cs'
  end.

Definition Render (r : Renderer) (vnode : option VNode) : M Document Panic unit :=
  (* Clear container and render new tree *)
  clearInnerHTML (container r) ;;;
  match vnode with
  | Some v =>
      domNode <- createDomNode v ;;
      appendChild (container r) domNode
  | None => ret tt
  end.

(** What a listener made by [createDomNode] does when the host calls it with
    the native event: [handler()], the event unused. *)
Definition callListener (f : Func) (ev : Event) : M (list Invocation) Panic unit :=
  match f with
  | FuncOf None => panic NilFuncCall
  | FuncOf (Some h) => fun log => (Ok tt, log ++ [mkInvocation h []])
  end.

(** The host dispatching [ev] on node [target]: the listeners registered on
    that node under the event's name run in registration order. *)
Definition dispatchEvent (d : Document) (target : nodeId) (ev : Event)
  : M (list Invocation) Panic unit :=
  match nodes d !! target with
  | Some n => forEach (default [] (listeners n !! eventType ev)) (fun f => callListener f ev)
  | None => ret tt
  end.

(** *** What a rendered tree is compared with *)

(** A host subtree read as a value. *)
#[local] Unset Elimination Schemes.
Inductive HostTree :=
  | HText (data : string)
  | HElem (tag : string) (attrs : gmap string string)
          (handlers : gmap string (list Func)) (children : list HostTree).
#[local] Set Elimination Schemes.

(** [reflects lo d id t]: in document [d], the subtree hanging from node [id]
    is exactly [t], and every node of it has an identifier of at least
    [lo]. *)
Fixpoint reflects (lo : nat) (d : Document) (id : nodeId) (t : HostTree) {struct t} : bool :=
  bool_decide (lo <= id) &&
  match t with
  | HText s =>
      bool_decide (nodes d !! id = Some (mkHostNode (TextNode s) ∅ ∅ []))
  | HElem tag attrs ls ts =>
      match nodes d !! id with
      | Some n =>
          bool_decide (kind n = ElementNode tag) &&
          bool_decide (attributes n = attrs) &&
          bool_decide (listeners n = ls) &&
          (fix all2 (ts : list HostTree) (ids : list nodeId) {struct ts} : bool :=
             match ts, ids with
             | [], [] => true
             | t' :: ts', i :: ids' => reflects lo d i t' && all2 ts' ids'
             | _, _ => false
             end) ts (childNodes n)
      | None => false
      end
  end.

(** The host subtree [createDomNode] is to build for a node; [None] for a
    node of a type it does not know.  A child without an image is left
    out. *)
Fixpoint hostImage (v : VNode) : option HostTree :=
  match Type_ v with
  | VNodeText => Some (HText (Text v))
  | VNodeElement =>
      Some (HElem (Tag v)
                  (omap attrString (Props v))
                  ((fun h => [FuncOf h]) <$> EventHandlers v)
                  ((fix images (cs : list (option VNode)) : list HostTree :=
                      match cs with
                      | [] => []
                      | Some c :: cs' =>
                          match hostImage c with
                          | Some t => t :: images cs'
                          | None => images cs'
                          end
                      | None :: cs' => images cs'
                      end) (Children v)))
  | VNodeOther => None
  end.

Definition usableImages (cs : list (option VNode)) : list HostTree :=
  omap (fun c => c ≫= hostImage) cs.

(** The host can instantiate every node of the tree: names pass its check,
    attribute values convert, no child pointer is nil. *)
Fixpoint hostable (v : VNode) : bool :=
  match Type_ v with
  | VNodeElement =>
      validName (Tag v) &&
      bool_decide (map_Forall (fun k x => validName k = true ∧ is_Some (attrString x))
                              (Props v)) &&
      (fix all (cs : list (option VNode)) : bool :=
         match cs with
         | [] => true
         | Some c :: cs' => hostable c && all cs'
         | None :: _ => false
         end) (Children v)
  | _ => true
  end.

(** The tree is one of the spec's data model: every node is a text or an
    element, and the children of an element are there. *)
Fixpoint twoVariant (v : VNode) : bool :=
  match Type_ v with
  | VNodeText => true
  | VNodeElement =>
      (fix all (cs : list (option VNode)) : bool :=
         match cs with
         | [] => true
         | Some c :: cs' => twoVariant c && all cs'
         | None :: _ => false
         end) (Children v)
  | VNodeOther => false
  end.

(** The structural mapping of the spec, in its words: a text maps to a host
    text of the same content; an element maps to a host element of the same
    tag name, with the same attribute set, whose children are the mappings
    of the element's children, as many and in the same order. *)
Fixpoint structuralMapping (v : VNode) (t : HostTree) : Prop :=
  match Type_ v, t with
  | VNodeText, HText s => s = Text v
  | VNodeElement, HElem tag attrs _ ts =>
      tag = Tag v ∧
      (forall k, attrs !! k = Props v !! k ≫= attrString) ∧
      (fix all2 (cs : list (option VNode)) (ts : list HostTree) : Prop :=
         match cs, ts with
         | [], [] => True
         | Some c :: cs', t' :: ts' => structuralMapping c t' ∧ all2 cs' ts'
         | _, _ => False
         end) (Children v) ts
  | _, _ => False
  end.

(** The renderer [r] holds a container that is an element of [d]. *)
Definition bound (d : Document) (r : Renderer) (c : nodeId) : Prop :=
  container r = Node c ∧ exists n, nodes d !! c = Some n ∧ isElement n = true.

Definition childrenOf (d : Document) (id : nodeId) : list nodeId :=
  match nodes d !! id with
  | Some n => childNodes n
  | None => []
  end.

(** *** What the loops of [createDomNode] leave on the element *)

Definition attrsOf (l : list (string * GoValue)) : gmap string string :=
  list_to_map ((fun kv => (kv.1, default "" (attrString kv.2))) <$> l).

Definition listenersOf (l : list (string * GoFunc)) : gmap string (list Func) :=
  list_to_map ((fun eh => (eh.1, [FuncOf eh.2])) <$> l).

(** What [createDomNode] returns on a document with [next] nodes: the node it
    has just allocated, or null for a node of unknown type. *)
Definition rootOf (v : VNode) (next : nat) : Value :=
  match hostImage v with
  | Some _ => Node next
  | None => Null
  end.

(** [createDomNode v] on [d] returns, leaves the nodes of [d] as they are and
    adds [new], where the image of [v] now hangs from the first new node. *)
Definition builds (v : VNode) (d : Document) (new : list HostNode) : Prop :=
  createDomNode v d =
    (Ok (rootOf v (length (nodes d))), setNodes d (nodes d ++ new)) ∧
  match hostImage v with
  | Some t => reflects (length (nodes d)) (setNodes d (nodes d ++ new))
                       (length (nodes d)) t = true
  | None => new = []
  end.

(** [d'] has the nodes of [d], unchanged, and possibly more. *)
Definition keeps (d d' : Document) : Prop :=
  exists new, d' = setNodes d (nodes d ++ new).

End Renderer.

End renderer.
Import js renderer.

(** ** Package strings: TrimSpace *)

Module strings.

Definition bytes (s : string) : list N :=
  map Ascii.N_of_ascii (String.list_ascii_of_string s).

Definition ofBytes (l : list N) : string :=
  String.string_of_list_ascii (map Ascii.ascii_of_N l).

(** The table [asciiSpace] of the Go library: tab, line feed, vertical tab,
    form feed, carriage return, space. *)
Definition asciiSpace (c : N) : bool :=
  bool_decide (c ∈ [9; 10; 11; 12; 13; 32]%N).

(** The code points of [unicode.IsSpace] beyond ASCII, in UTF-8:
    U+0085, U+00A0, U+1680, U+2000 to U+200A, U+2028, U+2029, U+202F, U+205F
    and U+3000. *)
Definition unicodeSpaces : list (list N) :=
  [ [0xC2; 0x85]; [0xC2; 0xA0]; [0xE1; 0x9A; 0x80];
    [0xE2; 0x80; 0x80]; [0xE2; 0x80; 0x81]; [0xE2; 0x80; 0x82]; [0xE2; 0x80; 0x83];
    [0xE2; 0x80; 0x84]; [0xE2; 0x80; 0x85]; [0xE2; 0x80; 0x86]; [0xE2; 0x80; 0x87];
    [0xE2; 0x80; 0x88]; [0xE2; 0x80; 0x89]; [0xE2; 0x80; 0x8A];
    [0xE2; 0x80; 0xA8]; [0xE2; 0x80; 0xA9]; [0xE2; 0x80; 0xAF];
    [0xE2; 0x81; 0x9F]; [0xE3; 0x80; 0x80] ]%N.

Fixpoint hasPrefix (p l : list N) : bool :=
  match p, l with
  | [], _ => true
  | a :: p', b :: l' => bool_decide (a = b) && hasPrefix p' l'
  | _ :: _, [] => false
  end.

(** How many bytes the white space rune at the head of [l] takes, read
    through [enc]; [0] when [l] does not start with white space. *)
Definition spaceWidth (enc : list N -> list N) (l : list N) : nat :=
  match l with
  | [] => 0
  | c :: _ =>
      if asciiSpace c then 1
      else match find (fun p => hasPrefix (enc p) l) unicodeSpaces with
           | Some p => length p
           | None => 0
           end
  end.

Fixpoint trimLeading (enc : list N -> list N) (fuel : nat) (l : list N) : list N :=
  match fuel with
  | O => l
  | S fuel' =>
      match spaceWidth enc l with
      | O => l
      | w => trimLeading enc fuel' (drop w l)
      end
  end.

Definition trimLeft (l : list N) : list N := trimLeading id (length l) l.
Definition trimRight (l : list N) : list N :=
  reverse (trimLeading reverse (length l) (reverse l)).

(** [strings.TrimSpace]: the string without its leading and trailing white
    space, as [unicode.IsSpace] defines it. *)
Definition TrimSpace (s : string) : string :=
  ofBytes (trimRight (trimLeft (bytes s))).

(** A run of white space runes, each read through [enc]. *)
Inductive whiteRunes (enc : list N -> list N) : list N -> Prop :=
  | white_nil : whiteRunes enc []
  | white_ascii c l : asciiSpace c = true -> whiteRunes enc l -> whiteRunes enc (c :: l)
  | white_rune p l : p ∈ unicodeSpaces -> whiteRunes enc l -> whiteRunes enc (enc p ++ l).

Definition whiteSpace (l : list N) : Prop := whiteRunes id l.

(** In the words of the spec: [content] is [template] with its leading and
    trailing white space trimmed.  It is what stands between a leading and
    a trailing run of white space of [template], and it neither starts nor
    ends with white space. *)
Definition trimmedOf (template content : string) : Prop :=
  exists pre core post,
    bytes template = pre ++ core ++ post ∧
    content = ofBytes core ∧
    whiteSpace pre ∧ whiteSpace post ∧
    spaceWidth id core = 0 ∧
    spaceWidth reverse (reverse core) = 0.

End strings.

(** ** Package cmd: the init command *)

Module cmd.
Import strings.

(** *** The file system behind package os

    What a name of the working directory holds: a regular file, or a
    directory with its files.  A path [filepath.Join(dir, file)] is the
    entry [file] of the directory [dir].  The names are the ones the program
    passes to the system: a project name with a separator in it is the path
    of a directory below another and is kept under a key of its own, apart
    from the entry of its first element; what the properties say of the
    other entries of the working directory they say for project names that
    are a single path element. *)
Inductive Entry :=
  | RegularFile (content : string)
  | Directory (files : gmap string string).

(** The calls made to the operating system, each with whether it went
    through. *)
Inductive SysCall :=
  | Mkdir (name : string) (ok : bool)
  | WriteFile (dir file data : string) (ok : bool)
  | RemoveAll (name : string) (ok : bool)
  | Exit (code : Z).

(** The lines printed, without their wording. *)
Inductive Message :=
  | Initializing (projectName : string)
  | ErrorCreatingDirectory
  | ErrorCreatingFile (fileName : string)
  | Created (dir file : string)
  | Success (projectName : string)
  | NextSteps (projectName : string).

Record World := mkWorld {
  fs : gmap string Entry;
  calls : list SysCall;
  stdout : list Message
}.

Definition Printf (m : Message) : M World Z unit :=
  fun w => (Ok tt, mkWorld (fs w) (calls w) (stdout w ++ [m])).

Definition record (c : SysCall) (w : World) : World :=
  mkWorld (fs w) (calls w ++ [c]) (stdout w).

Definition setFs (f : gmap string Entry) (w : World) : World :=
  mkWorld f (calls w) (stdout w).

(** The dq character, which a template holds many times. *)
Definition dq : string := String (Ascii.Ascii false true false false false true false false) "".

(** The separators of path elements, of Unix and of Windows. *)
Definition separators : list Ascii.ascii := String.list_ascii_of_string "/\".

(** A name that is one element of a path: not empty, not [.] or [..], and
    without a separator. *)
Definition pathElement (name : string) : bool :=
  negb (bool_decide (name = "")) &&
  negb (bool_decide (name = ".")) &&
  negb (bool_decide (name = "..")) &&
  forallb (fun a => negb (bool_decide (a ∈ separators))) (String.list_ascii_of_string name).

(** How a write that fails leaves the file: [os.WriteFile] opens the file,
    creating or emptying it, before it writes.  The file is not created (and
    as it was, if it was there) when the opening fails; it holds the first
    [k] bytes of the data when the writing or the closing fails. *)
Inductive WriteFailure :=
  | NotCreated
  | Cut (k : nat).

Definition afterFailedWrite (how : WriteFailure) (file data : string)
    (files : gmap string string) : gmap string string :=
  match how with
  | NotCreated => files
  | Cut k => <[file := String.substring 0 k data]> files
  end.

(** What a removal that fails leaves of a directory: [os.RemoveAll] removes
    what it can and returns the first error it met.  [kept] are the names
    of the files it could not remove. *)
Definition survivors (kept : list string) (files : gmap string string) : gmap string string :=
  filter (fun kv : string * string => kv.1 ∈ kept) files.

Section OS.

(** What makes a call fail besides the state of the tree (permissions, a
    full disk, a missing parent, an empty name): the system's answer, which
    may depend on the state it is in.  For a write and for a removal the
    answer tells what the failed call leaves behind. *)
Variable mkdirDenied : World -> string -> bool.
Variable writeDenied : World -> string -> string -> option WriteFailure.
Variable removeDenied : World -> string -> option (list string).

(** [os.Mkdir(name, 0755)]: an error when [name] exists already, or when
    the system refuses ([name] is empty, the directory it is to be made in
    is missing or cannot be written).  The new directory is empty. *)
Definition os_Mkdir (name : string) : M World Z bool :=
  fun w =>
    match fs w !! name with
    | Some _ => (Ok false, record (Mkdir name false) w)
    | None =>
        if mkdirDenied w name then (Ok false, record (Mkdir name false) w)
        else (Ok true, record (Mkdir name true) (setFs (<[name := Directory ∅]> (fs w)) w))
    end.

(** [os.WriteFile(filepath.Join(dir, file), data, 0644)]: creates or
    replaces the file; an error when [dir] is not a directory.  A write that
    fails may leave the file behind, with part of the data. *)
Definition os_WriteFile (dir file data : string) : M World Z bool :=
  fun w =>
    match fs w !! dir with
    | Some (Directory files) =>
        match writeDenied w dir file with
        | Some how =>
            (Ok false, record (WriteFile dir file data false)
                              (setFs (<[dir := Directory (afterFailedWrite how file data files)]>
                                        (fs w)) w))
        | None =>
            (Ok true, record (WriteFile dir file data true)
                             (setFs (<[dir := Directory (<[file := data]> files)]> (fs w)) w))
        end
    | _ => (Ok false, record (WriteFile dir file data false) w)
    end.

(** [os.RemoveAll(name)]: removes [name] and everything under it; no error
    when [name] does not exist.  A removal that fails leaves the directory,
    with the files it could not remove. *)
Definition os_RemoveAll (name : string) : M World Z bool :=
  fun w =>
    match removeDenied w name with
    | Some kept =>
        (Ok false, record (RemoveAll name false)
                          (setFs (match fs w !! name with
                                  | Some (Directory files) =>
                                      <[name := Directory (survivors kept files)]> (fs w)
                                  | _ => fs w
                                  end) w))
    | None => (Ok true, record (RemoveAll name true) (setFs (delete name (fs w)) w))
    end.

(** [os.Exit(code)]. *)
Definition os_Exit {A} (code : Z) : M World Z A :=
  fun w => (Stopped code, record (Exit code) w).

(** *** Templates *)

Definition mainGoTemplate : string :=
"
package main

import (
	" +:+ dq +:+ "fmt" +:+ dq +:+ "
	" +:+ dq +:+ "syscall/js" +:+ dq +:+ "
)

func main() {
	fmt.Println(" +:+ dq +:+ "Go Wasm app initialized." +:+ dq +:+ ")

	// Get the document object
	document := js.Global().Get(" +:+ dq +:+ "document" +:+ dq +:+ ")
	if !document.Truthy() {
		fmt.Println(" +:+ dq +:+ "Could not get document object" +:+ dq +:+ ")
		return
	}

	// Get the app container
	appContainer := document.Call(" +:+ dq +:+ "getElementById" +:+ dq +:+ ", " +:+ dq +:+ "app" +:+ dq +:+ ")
	if !appContainer.Truthy() {
		fmt.Println(" +:+ dq +:+ "Could not find element with id 'app'" +:+ dq +:+ ")
		return
	}

	// Create a new element
	h1 := document.Call(" +:+ dq +:+ "createElement" +:+ dq +:+ ", " +:+ dq +:+ "h1" +:+ dq +:+ ")
	h1.Set(" +:+ dq +:+ "textContent" +:+ dq +:+ ", " +:+ dq +:+ "Hello, GoFlow! 🚀" +:+ dq +:+ ")

	// Append the new element to the container
	appContainer.Call(" +:+ dq +:+ "appendChild" +:+ dq +:+ ", h1)

	// Keep the Go program running
	<-make(chan bool)
}
".

Definition indexHTMLTemplate : string :=
"
<!DOCTYPE html>
<html lang=" +:+ dq +:+ "en" +:+ dq +:+ ">
<head>
    <meta charset=" +:+ dq +:+ "UTF-8" +:+ dq +:+ ">
    <meta name=" +:+ dq +:+ "viewport" +:+ dq +:+ " content=" +:+ dq +:+ "width=device-width, initial-scale=1.0" +:+ dq +:+ ">
    <title>GoFlow App</title>
    <style>
        body { font-family: -apple-system, BlinkMacSystemFont, 'Segoe UI', Roboto, Helvetica, Arial, sans-serif; display: flex; justify-content: center; align-items: center; height: 100vh; margin: 0; background-color: #f0f2f5; }
        #app { text-align: center; }
    </style>
</head>
<body>
    <div id=" +:+ dq +:+ "app" +:+ dq +:+ ">
        <h2>Loading WebAssembly...</h2>
		<p>If you see this message, the Go Wasm module is loading or has failed to load. Check the browser console for errors.</p>
    </div>

    <!-- The JS glue file provided by the Go installation -->
    <script src=" +:+ dq +:+ "wasm_exec.js" +:+ dq +:+ "></script>
    <script>
        if (!WebAssembly.instantiateStreaming) { // polyfill
            WebAssembly.instantiateStreaming = async (resp, importObject) => {
                const source = await (await resp).arrayBuffer();
                return await WebAssembly.instantiate(source, importObject);
            };
        }

        const go = new Go();
        WebAssembly.instantiateStreaming(fetch(" +:+ dq +:+ "app.wasm" +:+ dq +:+ "), go.importObject).then((result) => {
            go.run(result.instance);
        }).catch((err) => {
            console.error(" +:+ dq +:+ "Wasm instantiation failed:" +:+ dq +:+ ", err);
			const appDiv = document.getElementById('app');
			appDiv.innerHTML = '<h2 style=" +:+ dq +:+ "color: red;" +:+ dq +:+ ">Error</h2><p>Failed to load WebAssembly module. Check console.</p>';
        });
    </script>
</body>
</html>
".

Definition gitignoreTemplate : string :=
"
# Compiled Wasm file
app.wasm

# JS glue file
wasm_exec.js
".

Definition goModTemplate (projectName : string) : string :=
  "
module " +:+ projectName +:+ "

go 1.22
".

Definition readmeTemplate (projectName : string) : string :=
  "
# " +:+ projectName +:+ "

This project was generated by the GoFlow CLI.

## Development

".

(** Define files to create with their content. *)
Definition filesToCreate (projectName : string) : gmap string string :=
  <["main.go" := mainGoTemplate]>
  (<["index.html" := indexHTMLTemplate]>
  (<["go.mod" := goModTemplate projectName]>
  (<["README.md" := readmeTemplate projectName]>
  (<[".gitignore" := gitignoreTemplate]> ∅)))).

(** *** runInit *)

Variable rangeOrder : forall V : Type, gmap string V -> list (string * V).

(** [runInit(cmd, args)] with [projectName := args[0]]; the command is
    declared with [cobra.ExactArgs(1)], so there is one argument. *)
Definition runInit (projectName : string) : M World Z unit :=
  Printf (Initializing projectName) ;;;
  (* Create project directory *)
  made <- os_Mkdir projectName ;;
  (if made then ret tt
   else Printf ErrorCreatingDirectory ;;; os_Exit 1) ;;;
  forEach (rangeOrder _ (filesToCreate projectName))
    (fun fc =>
       written <- os_WriteFile projectName fc.1 (strings.TrimSpace fc.2) ;;
       (if written then ret tt
        else Printf (ErrorCreatingFile fc.1) ;;;
             (* Cleanup: attempt to remove created directory *)
             os_RemoveAll projectName ;;;
             os_Exit 1) ;;;
       Printf (Created projectName fc.1)) ;;;
  Printf (Success projectName) ;;;
  Printf (NextSteps projectName).

(** *** The outcomes of runInit *)

(** The body of the loop of [runInit]. *)
Definition writeOne (projectName : string) (fc : string * string) : M World Z unit :=
  written <- os_WriteFile projectName fc.1 (TrimSpace fc.2) ;;
  (if written then ret tt
   else Printf (ErrorCreatingFile fc.1) ;;;
        os_RemoveAll projectName ;;;
        os_Exit 1) ;;;
  Printf (Created projectName fc.1).

(** The calls of a run of writes that all went through. *)
Definition written (projectName : string) (l : list (string * string)) : list SysCall :=
  (fun fc => WriteFile projectName fc.1 (TrimSpace fc.2) true) <$> l.

Definition trimmed (l : list (string * string)) : gmap string string :=
  list_to_map (prod_map id TrimSpace <$> l).

(** The three ways [runInit] can go. *)
Definition directoryRefused (name : string) (w : World) (out : Outcome Z unit) (w' : World) : Prop :=
  out = Stopped 1%Z ∧
  calls w' = calls w ++ [Mkdir name false; Exit 1] ∧
  fs w' = fs w.

Definition writeFailed (name : string) (w : World) (out : Outcome Z unit) (w' : World) : Prop :=
  exists done fc rest ok,
    rangeOrder _ (filesToCreate name) = done ++ fc :: rest ∧
    out = Stopped 1%Z ∧
    calls w' = calls w ++ Mkdir name true :: written name done ++
               [WriteFile name fc.1 (TrimSpace fc.2) false; RemoveAll name ok; Exit 1] ∧
    (ok = true -> fs w' = fs w).

Definition projectCreated (name : string) (w : World) (out : Outcome Z unit) (w' : World) : Prop :=
  out = Ok tt ∧
  calls w' = calls w ++ Mkdir name true :: written name (rangeOrder _ (filesToCreate name)) ∧
  fs w' = <[name := Directory (TrimSpace <$> filesToCreate name)]> (fs w).



End OS.

End cmd.

(** ** Package cmd: the build command *)

Module build.
Import cmd.

(** How [os.Stat] ends, as far as [os.IsNotExist] tells. *)
Inductive StatResult :=
  | Found
  | NotExist
  | StatError.          (* an error that [os.IsNotExist] does not recognise *)

Definition IsNotExist (r : StatResult) : bool :=
  match r with NotExist => true | _ => false end.

(** The errors [copyWasmExec] returns, without their wording. *)
Inductive CopyError :=
  | GorootNotSet
  | CannotOpen
  | CannotCreate
  | CannotCopy.

(** The calls made to the system, each with how it went. *)
Inductive BuildCall :=
  | Stat (name : string) (r : StatResult)
  | Run (name : string) (args env : list string) (ok : bool)
  | Open (root : string) (elems : list string) (ok : bool)
  | Create (name : string) (ok : bool)
  | Copy (name : string) (ok : bool)
  | ExitWith (code : Z).

(** The lines printed, without their wording. *)
Inductive BuildMessage :=
  | NoMainGo
  | Building
  | BuildFailed
  | BuildSuccessful
  | CopyFailed (e : CopyError)
  | Copied
  | BuildComplete.

(** The working directory, the calls made to the system and the lines
    printed, as for the init command. *)
Record Machine := mkMachine {
  files : gmap string Entry;
  ops : list BuildCall;
  printed : list BuildMessage
}.

Definition Println (m : BuildMessage) : M Machine Z unit :=
  fun w => (Ok tt, mkMachine (files w) (ops w) (printed w ++ [m])).

Definition did (c : BuildCall) (f : gmap string Entry) (w : Machine) : Machine :=
  mkMachine f (ops w ++ [c]) (printed w).

(** The value an environment gives a key when a process is started with it:
    of several entries for one key, the last counts. *)
Definition entryValue (key entry : string) : option string :=
  if String.prefix (key +:+ "=") entry
  then Some (String.substring (String.length key + 1)
                              (String.length entry - (String.length key + 1)) entry)
  else None.

Fixpoint firstValue (key : string) (env : list string) : option string :=
  match env with
  | [] => None
  | entry :: env' =>
      match entryValue key entry with
      | Some v => Some v
      | None => firstValue key env'
      end
  end.

Definition envLookup (key : string) (env : list string) : option string :=
  firstValue key (reverse env).

Section Build.

(** What [runtime.GOROOT()] and [os.Environ()] return. *)
Variable GOROOT : string.
Variable environ : list string.

(** The system's part: whether [Stat] fails for a reason other than the
    absence of the file; the file [filepath.Join(root, elems...)] outside the
    working directory, when it can be opened; the run of the compiler, which
    succeeds or not and leaves the working directory as it likes; whether
    a file cannot be created; and after how many bytes a copy stops, if it
    does. *)
Variable statDenied : gmap string Entry -> string -> bool.
Variable readFile : string -> list string -> option string.
Variable goBuild : gmap string Entry -> list string -> bool * gmap string Entry.
Variable createDenied : gmap string Entry -> string -> bool.
Variable copyStops : gmap string Entry -> option nat.

(** [os.Stat(name)], as far as its error goes. *)
Definition statResult (f : gmap string Entry) (name : string) : StatResult :=
  if statDenied f name then StatError
  else match f !! name with
       | Some _ => Found
       | None => NotExist
       end.

Definition os_Stat (name : string) : M Machine Z StatResult :=
  fun w =>
    let r := statResult (files w) name in
    (Ok r, did (Stat name r) (files w) w).

(** [exec.Command(name, args...)] run with [Env] set to [env]. *)
Definition exec_Run (name : string) (args env : list string) : M Machine Z bool :=
  fun w =>
    let (ok, left) := goBuild (files w) env in
    (Ok ok, did (Run name args env ok) left w).

(** [os.Open(filepath.Join(root, elems...))]: the content to read, or an
    error. *)
Definition os_Open (root : string) (elems : list string) : M Machine Z (option string) :=
  fun w =>
    let r := readFile root elems in
    (Ok r, did (Open root elems (bool_decide (is_Some r))) (files w) w).

(** [os.Create(name)]: the file is created, or emptied when it exists; an
    error when the name is a directory. *)
Definition os_Create (name : string) : M Machine Z bool :=
  fun w =>
    match files w !! name with
    | Some (Directory _) => (Ok false, did (Create name false) (files w) w)
    | _ =>
        if createDenied (files w) name then (Ok false, did (Create name false) (files w) w)
        else (Ok true, did (Create name true) (<[name := RegularFile ""]> (files w)) w)
    end.

(** [io.Copy(dest, src)] into the file just created: all of the content, or
    what was written when the copy stopped. *)
Definition io_Copy (name content : string) : M Machine Z bool :=
  fun w =>
    match copyStops (files w) with
    | Some k =>
        (Ok false, did (Copy name false)
                       (<[name := RegularFile (String.substring 0 k content)]> (files w)) w)
    | None =>
        (Ok true, did (Copy name true) (<[name := RegularFile content]> (files w)) w)
    end.

Definition os_Exit {A} (code : Z) : M Machine Z A :=
  fun w => (Stopped code, did (ExitWith code) (files w) w).

(** [copyWasmExec] finds and copies the wasm_exec.js file. *)
Definition copyWasmExec : M Machine Z (option CopyError) :=
  let goRoot := GOROOT in
  if bool_decide (goRoot = "") then ret (Some GorootNotSet)
  else
    srcFile <- os_Open goRoot ["lib"; "wasm"; "wasm_exec.js"] ;;
    match srcFile with
    | None => ret (Some CannotOpen)
    | Some content =>
        destFile <- os_Create "wasm_exec.js" ;;
        if destFile then
          copied <- io_Copy "wasm_exec.js" content ;;
          if copied then ret None else ret (Some CannotCopy)
        else ret (Some CannotCreate)
    end.

(** [runBuild] handles the logic for the build command. *)
Definition runBuild : M Machine Z unit :=
  (* Check if we are in a goflow project *)
  stat <- os_Stat "main.go" ;;
  (if IsNotExist stat then Println NoMainGo ;;; os_Exit 1 else ret tt) ;;;
  Println Building ;;;
  (* Set environment variables for the build command. *)
  built <- exec_Run "go" ["build"; "-o"; "app.wasm"; "."]
                    (environ ++ ["GOOS=js"; "GOARCH=wasm"]) ;;
  (if built then ret tt else Println BuildFailed ;;; os_Exit 1) ;;;
  Println BuildSuccessful ;;;
  (* Copy the wasm_exec.js file. *)
  err <- copyWasmExec ;;
  match err with
  | Some e => Println (CopyFailed e) ;;; os_Exit 1
  | None => ret tt
  end ;;;
  Println Copied ;;;
  Println BuildComplete.

End Build.

End build.
Import vdom js renderer strings cmd.

(** A call that is a removal the system refused. *)
Definition failedCleanup (c : SysCall) : bool :=
  match c with
  | RemoveAll _ false => true
  | _ => false
  end.

(** The working directory of a command run inside a directory the init
    command has made, nothing called or printed yet. *)
Definition inside (files : gmap string string) : build.Machine :=
  build.mkMachine (RegularFile <$> files) [] [].

(** ** Concrete inputs *)

(** A host that refuses the empty name only. *)
Definition acceptsName (s : string) : bool := negb (bool_decide (s = "")).

(** The order of the entries as the map lists them. *)
Definition listedOrder (V : Type) (m : gmap string V) : list (string * V) :=
  map_to_list m.

(** A document: the root element, in it the container with identifier [app],
    in it a text left by a previous render. *)
Definition page : Document :=
  mkDocument [ mkHostNode (ElementNode "html") ∅ ∅ [1];
               mkHostNode (ElementNode "div") {["id" := "app"]} ∅ [2];
               mkHostNode (TextNode "Loading") ∅ ∅ [] ] 0.

Definition clickMe : VNode :=
  element "button" {["class" := GoString "btn"]} {["click" := Some "onClick"]}
          [Some (text "Click me!")].

Definition nameInput : VNode :=
  element "input" {["type" := GoString "text"]} {["change" := Some "onChange"]} [].

Definition disabledButton : VNode :=
  element "button" {["disabled" := GoBool true]} ∅ [Some (text "Off")].

Definition app : VNode :=
  element "div" {["class" := GoString "app"]} ∅
          [Some (element "h1" ∅ ∅ [Some (text "Welcome to GoFlow!")]); Some clickMe].

(** An element with a child of a type the renderer does not know between two
    texts. *)
Definition withUnknownChild : VNode :=
  element "p" ∅ ∅
          [Some (text "a"); Some (mkVNode VNodeOther "" ∅ [] "" ∅); Some (text "b")].

(** An element one of whose children has a tag the host rejects, between
    two texts. *)
Definition withRejectedChild : VNode :=
  element "p" ∅ ∅
          [Some (text "a"); Some (element "" ∅ ∅ []); Some (text "b")].

(** An image with a string, an integer and a boolean among its
    attributes. *)
Definition sizedImage : VNode :=
  element "img" {["alt" := GoString "logo"; "width" := GoInt 640 I;
                  "hidden" := GoBool true]} ∅ [].

(** The entries in the reverse of the order in which the map lists them. *)
Definition reversedOrder (V : Type) (m : gmap string V) : list (string * V) :=
  reverse (map_to_list m).

(** A root of a type the renderer does not know. *)
Definition unknownRoot : VNode := mkVNode VNodeOther "" ∅ [] "" ∅.

(** An input with two attributes and two handlers. *)
Definition searchBox : VNode :=
  element "input" {["type" := GoString "text"; "name" := GoString "q"]}
          {["change" := Some "onChange"; "click" := Some "onClick"]} [].

(** A button whose click handler is a nil func. *)
Definition deadButton : VNode :=
  element "button" ∅ {["click" := None]} [Some (text "Off")].

(** A list with a nil pointer between two texts. *)
Definition withNilChild : VNode :=
  element "ul" ∅ ∅ [Some (text "a"); None; Some (text "b")].

(** An input one of whose attributes holds a value [js.ValueOf] cannot
    convert. *)
Definition badAttribute : VNode :=
  element "input" {["type" := GoString "text"; "value" := GoUnsupported]} ∅ [].

(** A system that lets every call through. *)
Definition allowed2 (w : World) (name : string) : bool := false.
Definition allowed3 (w : World) (dir file : string) : option WriteFailure := None.
Definition removable (w : World) (name : string) : option (list string) := None.

(** A system on which [go.mod] cannot be written. *)
Definition goModDenied (w : World) (dir file : string) : option WriteFailure :=
  if bool_decide (file = "go.mod") then Some NotCreated else None.

(** A system on which the write of [index.html] stops after nine bytes,
    and on which a removal fails, no file removed. *)
Definition indexDenied (w : World) (dir file : string) : option WriteFailure :=
  if bool_decide (file = "index.html") then Some (Cut 9) else None.
Definition removalFails (w : World) (name : string) : option (list string) :=
  Some ["main.go"; "index.html"; "go.mod"; "README.md"; ".gitignore"].

Definition emptyDisk : World := mkWorld ∅ [] [].

(** A working directory with a file of the user. *)
Definition busyDisk : World :=
  mkWorld {["notes.txt" := RegularFile "keep"]} [] [].

(** A working directory where [my-app] exists already, with a file of the
    user in it. *)
Definition takenDisk : World :=
  mkWorld {["my-app" := Directory {["notes.txt" := "keep"]}]} [] [].

(** A Go installation under [/usr/local/go], holding the glue file. *)
Definition goRoot : string := "/usr/local/go".
Definition installation (root : string) (elems : list string) : option string :=
  if bool_decide (root = "/usr/local/go" ∧ elems = ["lib"; "wasm"; "wasm_exec.js"])
  then Some "// wasm glue"
  else None.

(** The environment of a shell on Linux. *)
Definition shellEnv : list string := ["PATH=/usr/bin"; "GOOS=linux"; "HOME=/root"].

(** A compiler that succeeds and leaves [app.wasm], and one that fails. *)
Definition compiles (f : gmap string Entry) (env : list string) : bool * gmap string Entry :=
  (true, <["app.wasm" := RegularFile "wasm"]> f).
Definition compileFails (f : gmap string Entry) (env : list string)
    : bool * gmap string Entry :=
  (false, f).

(** A system on which [Stat] and the creation of files go through; a copy
    that goes through and one that stops after three bytes. *)
Definition granted (f : gmap string Entry) (name : string) : bool := false.
Definition copiesAll (f : gmap string Entry) : option nat := None.
Definition copyCut (f : gmap string Entry) : option nat := Some 3.

(** A project directory with the glue file of an earlier build, and an empty
    directory. *)
Definition projectDir : build.Machine :=
  build.mkMachine {["main.go" := RegularFile "package main";
                    "wasm_exec.js" := RegularFile "// old glue"]} [] [].
Definition emptyDir : build.Machine := build.mkMachine ∅ [] [].

(** * Part II: properties *)

(** ** The monad *)

Section MonadFacts.
Context {S E : Type}.

Lemma bind_ok {A B} (m : M S E A) (k : A -> M S E B) s a s' :
  m s = (Ok a, s') -> bind m k s = k a s'.
Proof. intros H. unfold bind. by rewrite H. Qed.

Lemma bind_stopped {A B} (m : M S E A) (k : A -> M S E B) s e s' :
  m s = (Stopped e, s') -> bind m k s = (Stopped e, s').
Proof. intros H. unfold bind. by rewrite H. Qed.

Lemma bind_ext {A B} (m : M S E A) (k1 k2 : A -> M S E B) s :
  (forall a s', k1 a s' = k2 a s') -> bind m k1 s = bind m k2 s.
Proof. intros H. unfold bind. destruct (m s) as [[a|e] s']; [apply H | reflexivity]. Qed.

Lemma bind_ext_l {A B} (m1 m2 : M S E A) (k : A -> M S E B) s :
  m1 s = m2 s -> bind m1 k s = bind m2 k s.
Proof. intros H. unfold bind. by rewrite H. Qed.

Lemma bind_inv {A B} (m : M S E A) (k : A -> M S E B) s out s' :
  bind m k s = (out, s') ->
  (exists a s1, m s = (Ok a, s1) ∧ k a s1 = (out, s')) ∨
  (exists e, m s = (Stopped e, s') ∧ out = Stopped e).
Proof.
  unfold bind. destruct (m s) as [[a|e] s1]; intros H.
  - left. by exists a, s1.
  - right. exists e. by inversion H.
Qed.

Lemma forEach_cons {A} (x : A) (l : list A) (body : A -> M S E unit) s :
  forEach (x :: l) body s = bind (body x) (fun _ => forEach l body) s.
Proof. reflexivity. Qed.

Lemma forEach_invariant {A} (I : S -> Prop) (body : A -> M S E unit) l :
  (forall x s out s', body x s = (out, s') -> I s -> I s') ->
  forall s out s', forEach l body s = (out, s') -> I s -> I s'.
Proof.
  intros Hbody. induction l as [|x l IH]; intros s out s' Hrun Hs.
  - by inversion Hrun; subst.
  - rewrite forEach_cons in Hrun.
    apply bind_inv in Hrun as [(a & s1 & H1 & H2)|(e & H1 & _)]; eauto.
Qed.

Lemma forEach_app {A} (l1 l2 : list A) (body : A -> M S E unit) s :
  forEach (l1 ++ l2) body s = bind (forEach l1 body) (fun _ => forEach l2 body) s.
Proof.
  revert s. induction l1 as [|x l1 IH]; intros s; simpl.
  - reflexivity.
  - unfold bind in *. destruct (body x s) as [[[]|e] s1]; [apply IH | reflexivity].
Qed.

End MonadFacts.

(** ** Induction over trees *)

Section TreeInduction.

Variable P : VNode -> Prop.
Hypothesis step : forall ty tag props cs txt hs,
  Forall (fun c => match c with Some v => P v | None => True end) cs ->
  P (mkVNode ty tag props cs txt hs).

Lemma VNode_nested_ind (v : VNode) : P v.
Proof.
  revert v. fix IH 1. intros [ty tag props cs txt hs]. apply step.
  induction cs as [|[c|] cs IHcs]; constructor; auto.
Qed.

End TreeInduction.

Section HostTreeInduction.

Variable P : HostTree -> Prop.
Hypothesis leaf : forall s, P (HText s).
Hypothesis node : forall tag attrs ls ts, Forall P ts -> P (HElem tag attrs ls ts).

Lemma HostTree_nested_ind (t : HostTree) : P t.
Proof.
  revert t. fix IH 1. intros [s|tag attrs ls ts]; [apply leaf | apply node].
  induction ts as [|t ts IHts]; constructor; auto.
Qed.

End HostTreeInduction.

(** ** Reading a host subtree *)

Section ReflectsFacts.

Lemma reflects_text lo d id s :
  reflects lo d id (HText s) = true <->
  lo <= id ∧ nodes d !! id = Some (mkHostNode (TextNode s) ∅ ∅ []).
Proof.
  simpl. rewrite andb_true_iff, !bool_decide_eq_true. reflexivity.
Qed.

Lemma reflects_elem lo d id tag attrs ls ts :
  reflects lo d id (HElem tag attrs ls ts) = true <->
  lo <= id ∧
  exists n, nodes d !! id = Some n ∧ kind n = ElementNode tag ∧
            attributes n = attrs ∧ listeners n = ls ∧
            Forall2 (fun i t => reflects lo d i t = true) (childNodes n) ts.
Proof.
  simpl. rewrite andb_true_iff, bool_decide_eq_true.
  apply and_iff_compat_l.
  destruct (nodes d !! id) as [n|]; [|split; [done | intros (n & ? & _); done]].
  rewrite !andb_true_iff, !bool_decide_eq_true.
  assert (Hall : forall ts ids,
    (fix all2 (ts : list HostTree) (ids : list nodeId) {struct ts} : bool :=
       match ts, ids with
       | [], [] => true
       | t' :: ts', i :: ids' => reflects lo d i t' && all2 ts' ids'
       | _, _ => false
       end) ts ids = true <->
    Forall2 (fun i t => reflects lo d i t = true) ids ts).
  { clear. induction ts as [|t ts IH]; intros [|i ids]; simpl.
    - split; [constructor | done].
    - split; [done | inversion 1].
    - split; [done | inversion 1].
    - rewrite andb_true_iff, IH. split.
      + intros [? ?]. by constructor.
      + inversion 1; subst. done. }
  rewrite Hall. split.
  - intros [[[? ?] ?] ?]. exists n. done.
  - intros (n' & [= <-] & ? & ? & ? & ?). done.
Qed.

(** A subtree with identifiers from [lo] on only depends on the nodes from
    [lo] on. *)
Lemma reflects_frame lo d d' t : forall id,
  (forall j, lo <= j -> j < length (nodes d) -> nodes d' !! j = nodes d !! j) ->
  reflects lo d id t = true -> reflects lo d' id t = true.
Proof.
  induction t as [s|tag attrs ls ts IH] using HostTree_nested_ind; intros id Hsame.
  - rewrite !reflects_text. intros [Hlo Hn]. split; [done|].
    rewrite Hsame; [done | done | by eapply lookup_lt_Some].
  - rewrite !reflects_elem. intros (Hlo & n & Hn & Hk & Ha & Hl & Hcs).
    split; [done|]. exists n. repeat split; try done.
    + rewrite Hsame; [done | done | by eapply lookup_lt_Some].
    + clear Hn. revert IH. induction Hcs as [|i t ids ts' Hi _ IHcs]; intros IH.
      * constructor.
      * inversion IH; subst. constructor; [auto | auto].
Qed.

Lemma reflects_weaken lo lo' d t : forall id,
  lo' <= lo -> reflects lo d id t = true -> reflects lo' d id t = true.
Proof.
  induction t as [s|tag attrs ls ts IH] using HostTree_nested_ind; intros id Hle.
  - rewrite !reflects_text. intros [? ?]. split; [lia | done].
  - rewrite !reflects_elem. intros (Hlo & n & Hn & Hk & Ha & Hl & Hcs).
    split; [lia|]. exists n. repeat split; try done.
    clear Hn. revert IH. induction Hcs as [|i t ids ts' Hi _ IHcs]; intros IH.
    + constructor.
    + inversion IH; subst. constructor; auto.
Qed.

End ReflectsFacts.

(** ** The host operations on one node of the store *)

Section StoreFacts.

Lemma setNodes_id d : setNodes d (nodes d) = d.
Proof. by destruct d. Qed.

Lemma setNodes_setNodes d l1 l2 : setNodes (setNodes d l1) l2 = setNodes d l2.
Proof. reflexivity. Qed.

Lemma update_at pre n rest d f :
  nodes d = pre ++ n :: rest ->
  update (length pre) f d = (Ok tt, setNodes d (pre ++ f n :: rest)).
Proof.
  intros Hd. unfold update. rewrite Hd.
  replace (length pre) with (length pre + 0) by lia.
  by rewrite alter_app_r.
Qed.

Lemma lookup_at (pre : list HostNode) n rest : (pre ++ n :: rest) !! length pre = Some n.
Proof. by rewrite list_lookup_middle. Qed.

Lemma appendChild_at pre n rest d c :
  nodes d = pre ++ n :: rest -> isElement n = true ->
  appendChild (Node (length pre)) (Node c) d =
  (Ok tt, setNodes d (pre ++ mkHostNode (kind n) (attributes n) (listeners n)
                                        (childNodes n ++ [c]) :: rest)).
Proof.
  intros Hd Hel. unfold appendChild. rewrite Hd, lookup_at, Hel.
  by rewrite (update_at pre n rest) by done.
Qed.

Lemma lookup_tail_stable (pre : list HostNode) n n' rest extra j :
  length pre < j -> j < length (pre ++ n :: rest) ->
  (pre ++ n' :: rest ++ extra) !! j = (pre ++ n :: rest) !! j.
Proof.
  rewrite length_app. simpl. intros Hj Hlt.
  rewrite !lookup_app_r by lia.
  destruct (j - length pre) as [|j'] eqn:Hjp; [lia|]. simpl.
  apply lookup_app_l. lia.
Qed.

End StoreFacts.

(** ** Resolving the container *)

Section ResolveFacts.

Lemma findById_element fuel d id : forall at_ r,
  findById fuel d id at_ = Some r ->
  exists n, nodes d !! r = Some n ∧ isElement n = true.
Proof.
  induction fuel as [|fuel IH]; intros at_ r H; simpl in H; [done|].
  destruct (nodes d !! at_) as [n|] eqn:Hn; [|done].
  destruct (isElement n && bool_decide (attributes n !! "id" = Some id)) eqn:Hhit.
  - inversion H; subst. apply andb_true_iff in Hhit as [Hel _]. by exists n.
  - clear Hn Hhit. revert H. generalize (childNodes n). intros cs.
    induction cs as [|c cs IHcs]; [done|].
    destruct (findById fuel d id c) as [r'|] eqn:Hc.
    + intros [= <-]. by eapply IH.
    + exact IHcs.
Qed.

(** A renderer made on an identifier that resolves is bound. *)
Lemma NewRenderer_bound d containerID c :
  getElementById d containerID = Node c -> bound d (NewRenderer d containerID) c.
Proof.
  unfold bound, NewRenderer, getElementById. cbn [container].
  case_bool_decide; [done|].
  destruct (findById (Datatypes.S (length (nodes d))) d containerID (documentElement d))
    as [r|] eqn:Hf; [|done].
  intros [= <-]. split; [done|]. by eapply findById_element.
Qed.

End ResolveFacts.

(** ** The loops of createDomNode *)

Section LoopFacts.

Variable validName : string -> bool.

Lemma setAttributes_run l : forall pre n rest d,
  nodes d = pre ++ n :: rest ->
  NoDup l.*1 ->
  Forall (fun kv => validName kv.1 = true ∧ is_Some (attrString kv.2)) l ->
  forEach l (fun kv => setAttribute validName (Node (length pre)) kv.1 kv.2) d =
  (Ok tt, setNodes d (pre ++ mkHostNode (kind n) (attrsOf l ∪ attributes n)
                                        (listeners n) (childNodes n) :: rest)).
Proof.
  induction l as [|[k v] l IH]; intros pre n rest d Hd Hnd Hok.
  - simpl. unfold ret, attrsOf. simpl. rewrite (left_id_L ∅ (∪)).
    destruct n; simpl. by rewrite <- Hd, setNodes_id.
  - inversion Hnd as [|? ? Hk Hnd']; subst. inversion Hok as [|? ? [Hv [s Hs]] Hok']; subst.
    simpl in Hv, Hs, Hk. rewrite forEach_cons.
    erewrite bind_ok; [| unfold setAttribute; simpl; rewrite Hs, Hv; by apply update_at].
    erewrite IH; [| reflexivity | done | done]. simpl.
    f_equal. unfold setNodes. simpl. do 3 f_equal.
    unfold attrsOf. simpl. rewrite Hs. simpl.
    rewrite <- insert_union_l, <- insert_union_r; [done|].
    apply not_elem_of_list_to_map_1.
    rewrite <- list_fmap_compose. simpl. exact Hk.
Qed.

Lemma addEventListeners_run l : forall pre n rest d,
  nodes d = pre ++ n :: rest ->
  NoDup l.*1 ->
  Forall (fun eh => listeners n !! eh.1 = None) l ->
  forEach l (fun eh => addEventListener (Node (length pre)) eh.1 (FuncOf eh.2)) d =
  (Ok tt, setNodes d (pre ++ mkHostNode (kind n) (attributes n)
                                        (listenersOf l ∪ listeners n) (childNodes n) :: rest)).
Proof.
  induction l as [|[k h] l IH]; intros pre n rest d Hd Hnd Hfree.
  - simpl. unfold ret, listenersOf. simpl. rewrite (left_id_L ∅ (∪)).
    destruct n; simpl. by rewrite <- Hd, setNodes_id.
  - inversion Hnd as [|? ? Hk Hnd']; subst. inversion Hfree as [|? ? Hn Hfree']; subst.
    simpl in Hn, Hk. rewrite forEach_cons.
    erewrite bind_ok; [| unfold addEventListener; simpl; by apply update_at].
    erewrite IH; [| reflexivity | done |].
    + simpl. f_equal. unfold setNodes. simpl. do 3 f_equal.
      unfold listenersOf. simpl. rewrite Hn. simpl.
      rewrite <- insert_union_l, <- insert_union_r; [done|].
      apply not_elem_of_list_to_map_1.
      rewrite <- list_fmap_compose. simpl. exact Hk.
    + simpl. apply Forall_forall. intros [k' h'] Hin. simpl.
      rewrite lookup_insert_ne.
      * rewrite Forall_forall in Hfree'. exact (Hfree' _ Hin).
      * intros <-. apply Hk. apply list_elem_of_fmap. by exists (k, h').
Qed.

End LoopFacts.

(** ** createDomNode builds the image of the tree *)

Section RendererFacts.

Variable validName : string -> bool.
Variable rangeOrder : forall V : Type, gmap string V -> list (string * V).
Hypothesis rangeOrder_perm :
  forall (V : Type) (m : gmap string V), rangeOrder V m ≡ₚ map_to_list m.

Local Abbreviation builds := (renderer.builds validName rangeOrder).

Lemma rangeOrder_NoDup {V} (m : gmap string V) : NoDup (rangeOrder V m).*1.
Proof. rewrite rangeOrder_perm. apply NoDup_fst_map_to_list. Qed.

Lemma rangeOrder_elem {V} (m : gmap string V) k v :
  (k, v) ∈ rangeOrder V m <-> m !! k = Some v.
Proof. rewrite rangeOrder_perm. apply elem_of_map_to_list. Qed.

Lemma list_to_map_rangeOrder {V} (m : gmap string V) : list_to_map (rangeOrder V m) = m.
Proof.
  rewrite <- (list_to_map_to_list m) at 2.
  apply list_to_map_proper; [apply rangeOrder_NoDup | apply rangeOrder_perm].
Qed.

Lemma attrsOf_rangeOrder (m : gmap string GoValue) :
  map_Forall (fun k x => validName k = true ∧ is_Some (attrString x)) m ->
  attrsOf (rangeOrder _ m) = omap attrString m.
Proof.
  intros Hm. unfold attrsOf.
  change (fun kv : string * GoValue => (kv.1, default "" (attrString kv.2)))
    with (prod_map (@id string) (fun x => default "" (attrString x))).
  rewrite list_to_map_fmap, list_to_map_rangeOrder.
  apply map_eq. intros k. rewrite lookup_fmap, lookup_omap.
  destruct (m !! k) as [x|] eqn:Hk; simpl; [|done].
  destruct (Hm k x Hk) as [_ [s Hs]]. by rewrite Hs.
Qed.

Lemma listenersOf_rangeOrder (m : gmap string GoFunc) :
  listenersOf (rangeOrder _ m) = (fun h => [FuncOf h]) <$> m.
Proof.
  unfold listenersOf.
  change (fun eh : string * GoFunc => (eh.1, [FuncOf eh.2]))
    with (prod_map (@id string) (fun h : GoFunc => [FuncOf h])).
  by rewrite list_to_map_fmap, list_to_map_rangeOrder.
Qed.

Lemma appendChildren_fix element cs d :
  (fix appendChildren (cs : list (option VNode)) : M Document Panic unit :=
     match cs with
     | [] => ret tt
     | child :: cs' =>
         childNode <- match child with
                      | None => panic NilDereference
                      | Some c => createDomNode validName rangeOrder c
                      end ;;
         (if Truthy childNode then appendChild element childNode else ret tt) ;;;
         appendChildren cs'
     end) cs d = appendChildren validName rangeOrder element cs d.
Proof.
  revert d. induction cs as [|c cs IH]; intros d; [reflexivity|].
  simpl. unfold bind, createDomNodePtr.
  destruct c as [c|]; [|reflexivity].
  destruct (createDomNode validName rangeOrder c d) as [[r|e] d1]; [|reflexivity].
  destruct (Truthy r).
  - destruct (appendChild element r d1) as [[[]|e] d2]; [apply IH | reflexivity].
  - simpl. apply IH.
Qed.

Lemma createDomNode_element v d :
  Type_ v = VNodeElement ->
  createDomNode validName rangeOrder v d =
  (element <- createElement validName (Tag v) ;;
   forEach (rangeOrder _ (Props v))
     (fun kv => setAttribute validName element kv.1 kv.2) ;;;
   forEach (rangeOrder _ (EventHandlers v))
     (fun eh => addEventListener element eh.1 (FuncOf eh.2)) ;;;
   appendChildren validName rangeOrder element (Children v) ;;;
   ret element) d.
Proof.
  destruct v as [ty tag props cs txt hs]. simpl. intros ->.
  apply bind_ext; intros el d1. apply bind_ext; intros _ d2.
  apply bind_ext; intros _ d3. apply bind_ext_l, appendChildren_fix.
Qed.

Lemma usableImages_fix cs :
  (fix images (cs : list (option VNode)) : list HostTree :=
     match cs with
     | [] => []
     | Some c :: cs' =>
         match hostImage c with
         | Some t => t :: images cs'
         | None => images cs'
         end
     | None :: cs' => images cs'
     end) cs = usableImages cs.
Proof.
  induction cs as [|[c|] cs IH]; simpl; [done| |done].
  unfold usableImages. simpl. destruct (hostImage c); by rewrite IH.
Qed.

Lemma hostImage_element v :
  Type_ v = VNodeElement ->
  hostImage v = Some (HElem (Tag v) (omap attrString (Props v))
                            ((fun h => [FuncOf h]) <$> EventHandlers v)
                            (usableImages (Children v))).
Proof.
  destruct v as [ty tag props cs txt hs]. simpl. intros ->.
  by rewrite usableImages_fix.
Qed.

Lemma hostable_element v :
  Type_ v = VNodeElement ->
  hostable validName v = true <->
  validName (Tag v) = true ∧
  map_Forall (fun k x => validName k = true ∧ is_Some (attrString x)) (Props v) ∧
  Forall (fun c => exists c', c = Some c' ∧ hostable validName c' = true) (Children v).
Proof.
  destruct v as [ty tag props cs txt hs]. simpl. intros ->.
  rewrite !andb_true_iff, bool_decide_eq_true.
  cut ((fix all (cs : list (option VNode)) : bool :=
          match cs with
          | [] => true
          | Some c :: cs' => hostable validName c && all cs'
          | None :: _ => false
          end) cs = true <->
       Forall (fun c => exists c', c = Some c' ∧ hostable validName c' = true) cs).
  { intros ->. tauto. }
  induction cs as [|[c|] cs IH]; simpl.
  - split; [constructor | done].
  - rewrite andb_true_iff, IH. split.
    + intros [? ?]. constructor; [by exists c | done].
    + intros H. inversion H as [|? ? (c' & Heq & Hc) Hcs]. by simplify_eq.
  - split; [done | inversion 1 as [|? ? (c' & ? & ?) ?]; done].
Qed.

Lemma appendChildren_run cs :
  Forall (fun c => exists c', c = Some c' ∧ forall d, exists new, builds c' d new) cs ->
  forall pre n rest d,
    nodes d = pre ++ n :: rest -> isElement n = true ->
    exists ids new,
      let d' := setNodes d (pre ++ mkHostNode (kind n) (attributes n) (listeners n)
                                              (childNodes n ++ ids) :: rest ++ new) in
      appendChildren validName rangeOrder (Node (length pre)) cs d = (Ok tt, d') ∧
      Forall2 (fun i t => reflects (length (nodes d)) d' i t = true) ids (usableImages cs).
Proof.
  induction 1 as [|c cs (c' & -> & Hc) _ IH]; intros pre n rest d Hd Hel.
  - exists [], []. simpl. split; [|constructor].
    unfold ret. rewrite !app_nil_r. destruct n; simpl. by rewrite <- Hd, setNodes_id.
  - destruct (Hc d) as (new1 & Hrun & Himg).
    simpl. erewrite bind_ok; [|exact Hrun].
    unfold usableImages. simpl. fold (usableImages cs).
    unfold rootOf in *. destruct (hostImage c') as [t|]; simpl.
    + set (d1 := setNodes d (nodes d ++ new1)) in *.
      assert (Hd1 : nodes d1 = pre ++ n :: (rest ++ new1)).
      { unfold d1. simpl. rewrite Hd. by rewrite <- app_assoc. }
      erewrite bind_ok; [|by apply (appendChild_at pre n (rest ++ new1))].
      set (n1 := mkHostNode (kind n) (attributes n) (listeners n)
                            (childNodes n ++ [length (nodes d)])).
      set (d2 := setNodes d1 (pre ++ n1 :: rest ++ new1)).
      destruct (IH pre n1 (rest ++ new1) d2 eq_refl Hel) as (ids & new & Hrest & Hids).
      exists (length (nodes d) :: ids), (new1 ++ new).
      simpl in Hrest, Hids. rewrite <- !app_assoc in Hrest, Hids. simpl in Hrest, Hids.
      simpl. split; [exact Hrest|]. constructor.
      * eapply reflects_frame; [|exact Himg].
        intros j Hj Hlt. rewrite Hd1 in Hlt |- *. rewrite Hd in Hj.
        rewrite length_app in Hj. simpl in Hj.
        rewrite (app_assoc rest new1 new).
        apply lookup_tail_stable; [lia | done].
      * eapply Forall2_impl; [exact Hids|]. intros i t'. simpl.
        apply reflects_weaken. rewrite Hd, !length_app. simpl. rewrite length_app. lia.
    + subst new1. rewrite app_nil_r, setNodes_id in *.
      change ((ret tt : M Document Panic unit) ;;; appendChildren validName rangeOrder (Node (length pre)) cs)
        with (bind (ret tt : M Document Panic unit) (fun _ => appendChildren validName rangeOrder (Node (length pre)) cs)).
      erewrite bind_ok; [|reflexivity].
      exact (IH pre n rest d Hd Hel).
Qed.

Theorem createDomNode_builds v :
  hostable validName v = true -> forall d, exists new, builds v d new.
Proof.
  induction v as [ty tag props cs txt hs IH] using VNode_nested_ind.
  intros Hh d. unfold builds, rootOf. destruct ty.
  - (* element *)
    apply hostable_element in Hh as (Htag & Hprops & Hcs); [|done].
    rewrite hostImage_element, createDomNode_element by done.
    cbn [Tag Props EventHandlers Children] in *.
    set (n0 := mkHostNode (ElementNode tag) ∅ ∅ []).
    set (d1 := setNodes d (nodes d ++ [n0])).
    erewrite bind_ok; [|unfold createElement; by rewrite Htag].
    erewrite bind_ok; cycle 1.
    { apply (setAttributes_run validName _ (nodes d) n0 [] d1); [done|apply rangeOrder_NoDup|].
      apply Forall_forall. intros [k x] Hkx. apply rangeOrder_elem in Hkx.
      exact (Hprops k x Hkx). }
    erewrite bind_ok; cycle 1.
    { apply (addEventListeners_run _ (nodes d)); [reflexivity|apply rangeOrder_NoDup|].
      apply Forall_forall. intros ? _. apply lookup_empty. }
    subst n0 d1. cbn [kind attributes listeners childNodes].
    rewrite attrsOf_rangeOrder, listenersOf_rangeOrder by done.
    rewrite !(right_id_L ∅ (∪)), !setNodes_setNodes.
    match goal with |- context [setNodes d (?p ++ [?n])] =>
      set (n2 := n); set (d3 := setNodes d (p ++ [n])) end.
    assert (Hkids : Forall (fun c => exists c', c = Some c' ∧ forall d, exists new, builds c' d new) cs).
    { clear -IH Hcs. induction Hcs as [|c cs (c' & -> & Hc) _ IHcs]; [constructor|].
      inversion IH; subst. constructor; [|auto]. exists c'. split; [done|]. auto. }
    destruct (appendChildren_run cs Hkids (nodes d) n2 [] d3 eq_refl eq_refl)
      as (ids & new & Hrun & Hids).
    simpl in Hrun, Hids.
    erewrite bind_ok; [|exact Hrun].
    eexists (_ :: new). split; [reflexivity|].
    apply reflects_elem. split; [done|].
    eexists. split; [simpl; apply lookup_at|]. simpl. repeat split.
    eapply Forall2_impl; [exact Hids|]. intros i t. apply reflects_weaken.
    rewrite length_app. simpl. lia.
  - (* text *)
    cbn [hostImage createDomNode Type_ Text].
    exists [mkHostNode (TextNode txt) ∅ ∅ []]. split; [reflexivity|].
    apply reflects_text. split; [done|]. simpl. apply lookup_at.
  - (* a type the renderer does not know *)
    simpl. exists []. split; [|done]. unfold ret. by rewrite app_nil_r, setNodes_id.
Qed.

(** ** Render *)

Lemma bound_split d r c :
  bound d r c ->
  exists pre n rest, nodes d = pre ++ n :: rest ∧ c = length pre ∧ isElement n = true.
Proof.
  intros (_ & n & Hn & Hel).
  apply list_elem_of_split_length in Hn as (pre & rest & -> & ->). by exists pre, n, rest.
Qed.

Lemma childrenOf_at d pre n rest :
  nodes d = pre ++ n :: rest -> childrenOf d (length pre) = childNodes n.
Proof. intros Hd. unfold childrenOf. by rewrite Hd, lookup_at. Qed.

(** A render of a tree the host can instantiate: the container is left with
    the new root as its only child, the image of the tree hangs from it, and
    no other node of the document has changed. *)
Lemma Render_run r c d v t :
  bound d r c -> hostable validName v = true -> hostImage v = Some t ->
  exists d',
    Render validName rangeOrder r (Some v) d = (Ok tt, d') ∧
    childrenOf d' c = [length (nodes d)] ∧
    reflects (length (nodes d)) d' (length (nodes d)) t = true ∧
    (forall j, j ≠ c -> j < length (nodes d) -> nodes d' !! j = nodes d !! j).
Proof.
  intros Hb Hh Ht. destruct (bound_split _ _ _ Hb) as (pre & n & rest & Hd & -> & Hel).
  destruct Hb as [Hr _]. unfold Render. rewrite Hr.
  set (n1 := mkHostNode (kind n) (attributes n) (listeners n) []).
  set (d1 := setNodes d (pre ++ n1 :: rest)).
  erewrite bind_ok; [|by apply (update_at pre n rest)].
  fold n1 d1.
  destruct (createDomNode_builds v Hh d1) as (new & Hrun & Himg).
  unfold rootOf in Hrun. rewrite Ht in Hrun, Himg.
  assert (Hlen : length (nodes d1) = length (nodes d)).
  { unfold d1. simpl. rewrite Hd, !length_app. reflexivity. }
  rewrite Hlen in Hrun, Himg.
  erewrite bind_ok; [|exact Hrun].
  set (d2 := setNodes d1 (nodes d1 ++ new)) in *.
  assert (Hd2 : nodes d2 = pre ++ n1 :: (rest ++ new)).
  { unfold d2, d1. simpl. by rewrite <- app_assoc. }
  rewrite (appendChild_at pre n1 (rest ++ new)) by done.
  eexists. split; [reflexivity|]. simpl. split; [|split].
  - unfold childrenOf. simpl. by rewrite lookup_at.
  - eapply reflects_frame; [|exact Himg].
    intros j Hj Hlt. rewrite Hd2. clear Hlt. simpl.
    rewrite Hd, length_app in Hj. simpl in Hj.
    rewrite !(lookup_app_r pre) by lia.
    destruct (j - length pre) as [|j'] eqn:Hjp; [lia | done].
  - intros j Hne Hlt. rewrite Hd. rewrite Hd in Hlt.
    destruct (decide (j < length pre)) as [Hj|Hj].
    + by rewrite !lookup_app_l.
    + rewrite !(lookup_app_r pre) by lia.
      destruct (j - length pre) as [|j'] eqn:Hjp; [lia|]. simpl.
      apply lookup_app_l. rewrite length_app in Hlt. simpl in Hlt. lia.
Qed.

(** ** Whatever the tree, createDomNode leaves the existing nodes alone *)

Lemma keeps_refl d : keeps d d.
Proof. exists []. by rewrite app_nil_r, setNodes_id. Qed.

Lemma keeps_trans d1 d2 d3 : keeps d1 d2 -> keeps d2 d3 -> keeps d1 d3.
Proof.
  intros [n1 ->] [n2 ->]. exists (n1 ++ n2). simpl. by rewrite app_assoc.
Qed.

Lemma keeps_length d d' : keeps d d' -> length (nodes d) <= length (nodes d').
Proof. intros [new ->]. simpl. rewrite length_app. lia. Qed.

Lemma keeps_lookup d d' j :
  keeps d d' -> j < length (nodes d) -> nodes d' !! j = nodes d !! j.
Proof. intros [new ->] Hj. simpl. by apply lookup_app_l. Qed.

Lemma keeps_alloc d0 d n : keeps d0 d -> keeps d0 (alloc n d).2.
Proof. intros H. eapply keeps_trans; [exact H|]. by exists [n]. Qed.

Lemma keeps_update d0 d i f :
  keeps d0 d -> length (nodes d0) <= i -> keeps d0 (update i f d).2.
Proof.
  intros [new ->] Hi. exists (alter f (i - length (nodes d0)) new). simpl.
  by rewrite alter_app_r_alt.
Qed.

Lemma setAttribute_keeps d0 e k x d out d' :
  setAttribute validName (Node e) k x d = (out, d') ->
  keeps d0 d -> length (nodes d0) <= e -> keeps d0 d'.
Proof.
  unfold setAttribute. intros Hrun Hk He.
  destruct (attrString x); [|by inversion Hrun; subst].
  destruct (validName k); [|by inversion Hrun; subst].
  inversion Hrun; subst. by apply (keeps_update d0 d e).
Qed.

Lemma addEventListener_keeps d0 e ev f d out d' :
  addEventListener (Node e) ev f d = (out, d') ->
  keeps d0 d -> length (nodes d0) <= e -> keeps d0 d'.
Proof.
  unfold addEventListener. intros Hrun Hk He.
  inversion Hrun; subst. by apply (keeps_update d0 d e).
Qed.

Lemma appendChild_keeps d0 e r d out d' :
  appendChild (Node e) r d = (out, d') ->
  keeps d0 d -> length (nodes d0) <= e -> keeps d0 d'.
Proof.
  unfold appendChild. intros Hrun Hk He.
  destruct r as [|c]; [by inversion Hrun; subst|].
  destruct (nodes d !! e) as [n|]; [|by inversion Hrun; subst].
  destruct (isElement n); [|by inversion Hrun; subst].
  inversion Hrun; subst. by apply (keeps_update d0 d e).
Qed.

Lemma appendChildren_keeps d0 e cs :
  Forall (fun c => match c with
                   | Some v => forall d out d',
                       createDomNode validName rangeOrder v d = (out, d') -> keeps d d'
                   | None => True
                   end) cs ->
  length (nodes d0) <= e ->
  forall d out d',
    appendChildren validName rangeOrder (Node e) cs d = (out, d') ->
    keeps d0 d -> keeps d0 d'.
Proof.
  intros Hcs He. induction Hcs as [|c cs Hc _ IH]; intros d out d' Hrun Hk.
  - by inversion Hrun; subst.
  - simpl in Hrun.
    apply bind_inv in Hrun as [(r & d1 & H1 & Hrun)|(p & H1 & _)]; cycle 1.
    { destruct c as [v|]; simpl in H1; [|by inversion H1; subst].
      eapply keeps_trans; [exact Hk | by eapply Hc]. }
    assert (Hk1 : keeps d0 d1).
    { destruct c as [v|]; simpl in H1; [|by inversion H1].
      eapply keeps_trans; [exact Hk | by eapply Hc]. }
    apply bind_inv in Hrun as [([] & d2 & H2 & Hrun)|(p & H2 & _)].
    + apply (IH d2 out d' Hrun).
      destruct (Truthy r); [by eapply appendChild_keeps | by inversion H2; subst].
    + destruct (Truthy r); [by eapply appendChild_keeps | by inversion H2; subst].
Qed.

Lemma createDomNode_keeps v : forall d out d',
  createDomNode validName rangeOrder v d = (out, d') -> keeps d d'.
Proof.
  induction v as [ty tag props cs txt hs IH] using VNode_nested_ind.
  intros d out d' Hrun. destruct ty.
  - rewrite createDomNode_element in Hrun by done.
    cbn [Tag Props EventHandlers Children] in Hrun.
    apply bind_inv in Hrun as [(el & d1 & H1 & Hrun)|(p & H1 & _)]; cycle 1.
    { unfold createElement in H1. destruct (validName tag); inversion H1; subst.
      apply keeps_refl. }
    assert (el = Node (length (nodes d)) ∧ keeps d d1) as [-> Hk1].
    { unfold createElement in H1. destruct (validName tag); inversion H1; subst.
      split; [done|]. apply (keeps_alloc d d), keeps_refl. }
    apply bind_inv in Hrun as [([] & d2 & H2 & Hrun)|(p & H2 & _)]; cycle 1.
    { eapply (forEach_invariant (keeps d)); [|exact H2|exact Hk1].
      intros [k x] s o s' Hb Hs. by eapply setAttribute_keeps. }
    assert (Hk2 : keeps d d2).
    { eapply (forEach_invariant (keeps d)); [|exact H2|exact Hk1].
      intros [k x] s o s' Hb Hs. by eapply setAttribute_keeps. }
    apply bind_inv in Hrun as [([] & d3 & H3 & Hrun)|(p & H3 & _)]; cycle 1.
    { eapply (forEach_invariant (keeps d)); [|exact H3|exact Hk2].
      intros [k x] s o s' Hb Hs. by eapply addEventListener_keeps. }
    assert (Hk3 : keeps d d3).
    { eapply (forEach_invariant (keeps d)); [|exact H3|exact Hk2].
      intros [k x] s o s' Hb Hs. by eapply addEventListener_keeps. }
    apply bind_inv in Hrun as [([] & d4 & H4 & Hrun)|(p & H4 & _)].
    + inversion Hrun; subst. by eapply (appendChildren_keeps d (length (nodes d)) cs).
    + by eapply (appendChildren_keeps d (length (nodes d)) cs).
  - inversion Hrun; subst. apply (keeps_alloc d d), keeps_refl.
  - inversion Hrun; subst. apply keeps_refl.
Qed.

(** ** The image of a two-variant tree is its structural mapping *)

Lemma structuralMapping_image v :
  twoVariant v = true -> exists t, hostImage v = Some t ∧ structuralMapping v t.
Proof.
  induction v as [ty tag props cs txt hs IH] using VNode_nested_ind.
  intros Htv. destruct ty; [| |done].
  - rewrite hostImage_element by done. eexists. split; [reflexivity|].
    cbn [Tag Props EventHandlers Children].
    simpl in Htv. simpl. split; [done|]. split; [intros k; apply lookup_omap|].
    revert IH Htv. induction cs as [|[c|] cs IHcs]; intros IH Htv; [done| |done].
    apply andb_true_iff in Htv as [Hc Hcs]. inversion IH as [|? ? IHc IHcs']; subst.
    destruct (IHc Hc) as (t & Ht & Hm).
    unfold usableImages. simpl. rewrite Ht. fold (usableImages cs). split; [done|].
    by apply IHcs.
  - eexists. split; [reflexivity|]. reflexivity.
Qed.

(** ** The claims about the renderer *)

(** Claim C1.  For every tree [T] of the data model (texts and elements) that
    the host can instantiate, [Render(T)] on a renderer bound to container
    [c] returns; afterwards the children of [c] are exactly one node, the new
    root, whatever they were before; the host subtree hanging from that root
    is the structural mapping of [T], depth first: same tag names, same
    attribute sets, same text content, same children in the same order; and
    every node of that subtree has an identifier that did not exist before
    the render, so that nothing of a previous render remains under [c]. *)
Theorem Render_structural_mapping r c d T :
  bound d r c -> hostable validName T = true -> twoVariant T = true ->
  exists d' root t,
    Render validName rangeOrder r (Some T) d = (Ok tt, d') ∧
    childrenOf d' c = [root] ∧
    reflects (length (nodes d)) d' root t = true ∧
    structuralMapping T t.
Proof.
  intros Hb Hh Htv.
  destruct (structuralMapping_image T Htv) as (t & Ht & Hm).
  destruct (Render_run r c d T t Hb Hh Ht) as (d' & Hrun & Hkids & Hrefl & _).
  by exists d', (length (nodes d)), t.
Qed.

(** Claim C3.  When the container identifier resolves to no node of the host
    document, the renderer built on it holds null, and every later [Render],
    on whatever tree (null included) and whatever the document has become,
    panics with the [ValueError] of [Value.Set] before anything is touched:
    the failure is explicit, not a silent no-op. *)
Theorem Render_unresolved_container_panics d containerID :
  getElementById d containerID = Null ->
  forall vnode d1,
    Render validName rangeOrder (NewRenderer d containerID) vnode d1 =
    (Stopped (ValueError "Value.Set"), d1).
Proof.
  intros Hnull vnode d1. unfold Render, NewRenderer. simpl. rewrite Hnull. reflexivity.
Qed.

(** Claim C4.  On a bound container, [Render(nil)] returns and leaves the
    container with no child, whatever children it had. *)
Theorem Render_nil_empties_container r c d :
  bound d r c ->
  exists d',
    Render validName rangeOrder r None d = (Ok tt, d') ∧
    childrenOf d' c = [] ∧ length (nodes d') = length (nodes d).
Proof.
  intros Hb. destruct (bound_split _ _ _ Hb) as (pre & n & rest & Hd & -> & Hel).
  destruct Hb as [Hr _]. unfold Render. rewrite Hr.
  erewrite bind_ok; [|by apply (update_at pre n rest)].
  eexists. split; [reflexivity|]. split.
  - unfold childrenOf. simpl. by rewrite lookup_at.
  - simpl. rewrite Hd, !length_app. reflexivity.
Qed.

(** Claim C9.  After a [Render] on a bound container, however it ends, the
    container has at most one direct child: none when the root is nil, and
    exactly the node the root was instantiated to when the root is not nil
    and [createDomNode] returned a node for it, in which case [Render]
    returns. *)
Theorem Render_at_most_one_child r c d vnode out d' :
  bound d r c ->
  Render validName rangeOrder r vnode d = (out, d') ->
  length (childrenOf d' c) <= 1 ∧
  (vnode = None -> out = Ok tt ∧ childrenOf d' c = []) ∧
  (forall v d1 id d2,
      vnode = Some v ->
      clearInnerHTML (container r) d = (Ok tt, d1) ->
      createDomNode validName rangeOrder v d1 = (Ok (Node id), d2) ->
      out = Ok tt ∧ childrenOf d' c = [id]).
Proof.
  intros Hb Hrun. destruct (bound_split _ _ _ Hb) as (pre & n & rest & Hd & -> & Hel).
  destruct Hb as [Hr _]. unfold Render in Hrun. rewrite Hr in *.
  set (n1 := mkHostNode (kind n) (attributes n) (listeners n) []).
  assert (Hclear : clearInnerHTML (Node (length pre)) d =
                   (Ok tt, setNodes d (pre ++ n1 :: rest))).
  { by apply (update_at pre n rest). }
  erewrite bind_ok in Hrun; [|exact Hclear].
  set (d1 := setNodes d (pre ++ n1 :: rest)) in *.
  pose proof Hclear as Hup. simpl in Hup.
  destruct vnode as [v|].
  - apply bind_inv in Hrun as [(el & d2 & H1 & Hrun)|(p & H1 & ->)].
    + destruct (createDomNode_keeps _ _ _ _ H1) as [new Hd2].
      assert (Hn2 : nodes d2 = pre ++ n1 :: (rest ++ new)).
      { rewrite Hd2. unfold d1. simpl. by rewrite <- app_assoc. }
      destruct el as [|id].
      * inversion Hrun; subst out d'. unfold childrenOf.
        rewrite Hn2, lookup_at. simpl. split; [lia|]. split; [done|].
        intros v' d1' id' d2' [= <-] Hc. simpl in Hc. rewrite Hup in Hc. inversion Hc; subst d1'.
        fold d1. rewrite H1. done.
      * rewrite (appendChild_at pre n1 (rest ++ new)) in Hrun by done.
        inversion Hrun; subst out d'. unfold childrenOf. simpl. rewrite lookup_at. simpl.
        split; [lia|]. split; [done|].
        intros v' d1' id' d2' [= <-] Hc. simpl in Hc. rewrite Hup in Hc. inversion Hc; subst d1'.
        fold d1. rewrite H1. intros [= <- <-]. done.
    + destruct (createDomNode_keeps _ _ _ _ H1) as [new Hd2].
      unfold childrenOf. rewrite Hd2. unfold d1. simpl.
      rewrite <- app_assoc. simpl. rewrite lookup_at. simpl. split; [lia|]. split; [done|].
      intros v' d1' id' d2' [= <-] Hc. simpl in Hc. rewrite Hup in Hc. inversion Hc; subst d1'.
      fold d1. rewrite H1. done.
  - inversion Hrun; subst out d'. unfold childrenOf, d1. simpl. rewrite lookup_at. simpl.
    split; [lia|]. split; [done|]. done.
Qed.

(** For an element the host can instantiate, [createDomNode]
    returns the new element; its children are, in order, the nodes of the
    children that instantiate to a usable node, each carrying the image of
    its child; a child whose instantiation returns a value that is not
    truthy (exactly a child without an image) is left out, the siblings after
    it are still appended, and the instantiation as a whole does not fail. *)
Lemma createDomNode_omits_unusable_children v d :
  Type_ v = VNodeElement -> hostable validName v = true ->
  exists d',
    createDomNode validName rangeOrder v d = (Ok (Node (length (nodes d))), d') ∧
    Forall2 (fun i t => reflects (length (nodes d)) d' i t = true)
            (childrenOf d' (length (nodes d))) (usableImages (Children v)) ∧
    (forall c, Some c ∈ Children v ->
       forall d0, exists r d0',
         createDomNode validName rangeOrder c d0 = (Ok r, d0') ∧
         (Truthy r = false <-> hostImage c = None)).
Proof.
  intros Hty Hh. destruct (createDomNode_builds v Hh d) as (new & Hrun & Himg).
  unfold rootOf in Hrun. rewrite hostImage_element in Hrun, Himg by done.
  eexists. split; [exact Hrun|]. split.
  - apply reflects_elem in Himg as (_ & n & Hn & _ & _ & _ & Hkids).
    unfold childrenOf. by rewrite Hn.
  - intros c Hc d0. apply hostable_element in Hh as (_ & _ & Hcs); [|done].
    rewrite Forall_forall in Hcs. destruct (Hcs _ Hc) as (c' & [= <-] & Hhc).
    destruct (createDomNode_builds c Hhc d0) as (new0 & Hrun0 & _).
    eexists _, _. split; [exact Hrun0|].
    unfold rootOf. destruct (hostImage c); simpl; split; done.
Qed.

(** An attribute value of a virtual node is a Go interface value, not
    always a string.  For an element the host can instantiate, [createDomNode] applies every key/value pair of [Props] to
    the created element and nothing else: the element's attribute under a
    key is the string form of the value [Props] has under it, which is the
    value itself when it is a string. *)
Lemma createDomNode_applies_every_attribute v d :
  Type_ v = VNodeElement -> hostable validName v = true ->
  exists d' n,
    createDomNode validName rangeOrder v d = (Ok (Node (length (nodes d))), d') ∧
    nodes d' !! length (nodes d) = Some n ∧
    kind n = ElementNode (Tag v) ∧
    (forall k, attributes n !! k = Props v !! k ≫= attrString) ∧
    (forall k s, Props v !! k = Some (GoString s) -> attributes n !! k = Some s).
Proof.
  intros Hty Hh. destruct (createDomNode_builds v Hh d) as (new & Hrun & Himg).
  unfold rootOf in Hrun. rewrite hostImage_element in Hrun, Himg by done.
  apply reflects_elem in Himg as (_ & n & Hn & Hk & Ha & _ & _).
  eexists _, n. split; [exact Hrun|]. split; [exact Hn|]. split; [exact Hk|].
  assert (Hall : forall k, attributes n !! k = Props v !! k ≫= attrString).
  { intros k. rewrite Ha. apply lookup_omap. }
  split; [exact Hall|]. intros k s Hs. by rewrite Hall, Hs.
Qed.

(** *** Events on a rendered element *)

Lemma Render_element_listeners r c d v :
  bound d r c -> Type_ v = VNodeElement -> hostable validName v = true ->
  exists d' el n,
    Render validName rangeOrder r (Some v) d = (Ok tt, d') ∧
    childrenOf d' c = [el] ∧
    nodes d' !! el = Some n ∧
    kind n = ElementNode (Tag v) ∧
    listeners n = (fun h => [FuncOf h]) <$> EventHandlers v.
Proof.
  intros Hb Hty Hh.
  destruct (Render_run r c d v _ Hb Hh (hostImage_element v Hty))
    as (d' & Hrun & Hkids & Hrefl & _).
  apply reflects_elem in Hrefl as (_ & n & Hn & Hk & _ & Hl & _).
  by exists d', (length (nodes d)), n.
Qed.

Lemma dispatchEvent_handler d el n ev cb log :
  nodes d !! el = Some n ->
  listeners n !! eventType ev = Some [FuncOf (Some cb)] ->
  dispatchEvent d el ev log = (Ok tt, log ++ [mkInvocation cb []]).
Proof.
  intros Hn Hl. unfold dispatchEvent. rewrite Hn, Hl. reflexivity.
Qed.

(** Claim C2, as amended.  For an element with a handler registered under
    "change" (what an Input with a change callback renders to), once it is
    rendered, a change event dispatched on the host element calls that
    handler exactly once and with no argument: the listener does not read
    the native event, so the call is the same whatever value the host
    reports. *)
Theorem change_listener_calls_handler_without_value r c d v cb :
  bound d r c -> Type_ v = VNodeElement -> hostable validName v = true ->
  EventHandlers v !! "change" = Some (Some cb) ->
  exists d' el,
    Render validName rangeOrder r (Some v) d = (Ok tt, d') ∧
    childrenOf d' c = [el] ∧
    forall value log,
      dispatchEvent d' el (mkEvent "change" value) log =
      (Ok tt, log ++ [mkInvocation cb []]).
Proof.
  intros Hb Hty Hh Hcb.
  destruct (Render_element_listeners r c d v Hb Hty Hh)
    as (d' & el & n & Hrun & Hkids & Hn & _ & Hl).
  exists d', el. split; [exact Hrun|]. split; [exact Hkids|].
  intros value log. apply (dispatchEvent_handler d' el n); [exact Hn|].
  simpl. rewrite Hl, lookup_fmap. unfold GoFunc in *. by rewrite Hcb.
Qed.

(** Claim C7.  For an element with a click callback registered under "click"
    (what a Button built with a click callback renders to), once it is
    rendered, every click event dispatched on the host button calls the
    callback exactly once: after any sequence of clicks the callback has
    been called as many times as there were clicks, and nothing else has. *)
Theorem click_invokes_callback_once_per_event r c d v cb :
  bound d r c -> Type_ v = VNodeElement -> hostable validName v = true ->
  EventHandlers v !! "click" = Some (Some cb) ->
  exists d' button,
    Render validName rangeOrder r (Some v) d = (Ok tt, d') ∧
    childrenOf d' c = [button] ∧
    forall clicks log,
      Forall (fun ev => eventType ev = "click") clicks ->
      forEach clicks (dispatchEvent d' button) log =
      (Ok tt, log ++ replicate (length clicks) (mkInvocation cb [])).
Proof.
  intros Hb Hty Hh Hcb.
  destruct (Render_element_listeners r c d v Hb Hty Hh)
    as (d' & el & n & Hrun & Hkids & Hn & _ & Hl).
  exists d', el. split; [exact Hrun|]. split; [exact Hkids|].
  intros clicks. induction clicks as [|ev clicks IH]; intros log Hall.
  - simpl. unfold ret. by rewrite app_nil_r.
  - inversion Hall as [|? ? Hev Hall']; subst.
    rewrite forEach_cons. erewrite bind_ok; cycle 1.
    { apply (dispatchEvent_handler d' el n); [exact Hn|].
      rewrite Hev, Hl, lookup_fmap. unfold GoFunc in *. by rewrite Hcb. }
    rewrite IH by done. simpl. by rewrite <- app_assoc.
Qed.

(** ** More on the renderer *)

(** What any [Render] on a bound container does to the document: the
    container keeps its kind, attributes and listeners and gets new children,
    new nodes are added at the end, and nothing else changes. *)
Lemma Render_shape r c d vnode out d' :
  bound d r c ->
  Render validName rangeOrder r vnode d = (out, d') ->
  exists pre n rest new kids,
    nodes d = pre ++ n :: rest ∧ c = length pre ∧ isElement n = true ∧
    d' = setNodes d (pre ++ mkHostNode (kind n) (attributes n) (listeners n) kids
                          :: rest ++ new) ∧
    length kids <= 1 ∧
    (forall p, out = Stopped p -> kids = [] ∧ vnode ≠ None).
Proof.
  intros Hb Hrun. destruct (bound_split _ _ _ Hb) as (pre & n & rest & Hd & -> & Hel).
  destruct Hb as [Hr _]. unfold Render in Hrun. rewrite Hr in Hrun.
  erewrite bind_ok in Hrun; [|by apply (update_at pre n rest)].
  set (n1 := mkHostNode (kind n) (attributes n) (listeners n) []) in *.
  set (d1 := setNodes d (pre ++ n1 :: rest)) in *.
  exists pre, n, rest. destruct vnode as [v|].
  - apply bind_inv in Hrun as [(el & d2 & H1 & Hrun)|(p & H1 & ->)].
    + destruct (createDomNode_keeps _ _ _ _ H1) as [new Hd2].
      assert (Hn2 : nodes d2 = pre ++ n1 :: (rest ++ new)).
      { rewrite Hd2. unfold d1. simpl. by rewrite <- app_assoc. }
      assert (Hd2' : d2 = setNodes d (pre ++ n1 :: rest ++ new)).
      { rewrite Hd2. unfold d1. rewrite setNodes_setNodes. simpl. by rewrite <- app_assoc. }
      destruct el as [|id].
      * inversion Hrun; subst out d'. exists new, [].
        split; [done|]. split; [done|]. split; [done|]. split; [done|].
        split; [simpl; lia | done].
      * rewrite (appendChild_at pre n1 (rest ++ new)) in Hrun by done.
        inversion Hrun; subst out d'. exists new, [id].
        split; [done|]. split; [done|]. split; [done|]. split.
        { rewrite Hd2'. by rewrite setNodes_setNodes. }
        split; [simpl; lia | done].
    + destruct (createDomNode_keeps _ _ _ _ H1) as [new Hd2].
      exists new, []. split; [done|]. split; [done|]. split; [done|]. split.
      { rewrite Hd2. unfold d1. rewrite setNodes_setNodes. simpl. by rewrite <- app_assoc. }
      split; [simpl; lia | done].
  - inversion Hrun; subst out d'. exists [], [].
    split; [done|]. split; [done|]. split; [done|]. split.
    { unfold d1. by rewrite app_nil_r. }
    split; [simpl; lia | done].
Qed.

Lemma Render_keeps_bound r c d vnode out d' :
  bound d r c ->
  Render validName rangeOrder r vnode d = (out, d') ->
  bound d' r c.
Proof.
  intros Hb Hrun.
  destruct (Render_shape _ _ _ _ _ _ Hb Hrun)
    as (pre & n & rest & new & kids & Hd & -> & Hel & -> & _).
  destruct Hb as [Hr _]. split; [done|]. eexists. split; [simpl; apply lookup_at|].
  exact Hel.
Qed.

Lemma reflects_lookup lo d id t : reflects lo d id t = true -> id < length (nodes d).
Proof.
  destruct t as [s|tag attrs ls ts].
  - rewrite reflects_text. intros [_ H]. by eapply lookup_lt_Some.
  - rewrite reflects_elem. intros (_ & n & H & _). by eapply lookup_lt_Some.
Qed.

(** Extra X1.  Rendering one tree and then another into the same container:
    both renders return, and after the second the container's only child is
    the root made by the second render, which carries the structural mapping
    of the second tree and is made of nodes that did not exist after the
    first: the first render's root is no longer a child of the container. *)
Theorem Render_again_replaces_previous_tree r c d T1 T2 :
  bound d r c ->
  hostable validName T1 = true -> twoVariant T1 = true ->
  hostable validName T2 = true -> twoVariant T2 = true ->
  exists d1 d2 root1 root2 t2,
    Render validName rangeOrder r (Some T1) d = (Ok tt, d1) ∧
    childrenOf d1 c = [root1] ∧
    Render validName rangeOrder r (Some T2) d1 = (Ok tt, d2) ∧
    childrenOf d2 c = [root2] ∧
    root1 < length (nodes d1) ∧
    reflects (length (nodes d1)) d2 root2 t2 = true ∧
    structuralMapping T2 t2.
Proof.
  intros Hb Hh1 Htv1 Hh2 Htv2.
  destruct (structuralMapping_image T1 Htv1) as (t1 & Ht1 & _).
  destruct (structuralMapping_image T2 Htv2) as (t2 & Ht2 & Hm2).
  destruct (Render_run r c d T1 t1 Hb Hh1 Ht1) as (d1 & Hrun1 & Hkids1 & Hrefl1 & _).
  pose proof (Render_keeps_bound _ _ _ _ _ _ Hb Hrun1) as Hb1.
  destruct (Render_run r c d1 T2 t2 Hb1 Hh2 Ht2) as (d2 & Hrun2 & Hkids2 & Hrefl2 & _).
  exists d1, d2, (length (nodes d)), (length (nodes d1)), t2.
  repeat (split; [done|]). split; [|done].
  by eapply reflects_lookup.
Qed.

(** Extra X2.  Whatever the tree and however it ends, a [Render] on a bound
    container changes no node that existed before other than the container,
    and of the container only the children: its kind, attributes and
    listeners stay, and so does the document element. *)
Theorem Render_changes_only_container_children r c d vnode out d' :
  bound d r c ->
  Render validName rangeOrder r vnode d = (out, d') ->
  (forall j, j < length (nodes d) -> j ≠ c -> nodes d' !! j = nodes d !! j) ∧
  documentElement d' = documentElement d ∧
  exists n n',
    nodes d !! c = Some n ∧ nodes d' !! c = Some n' ∧
    kind n' = kind n ∧ attributes n' = attributes n ∧ listeners n' = listeners n.
Proof.
  intros Hb Hrun.
  destruct (Render_shape _ _ _ _ _ _ Hb Hrun)
    as (pre & n & rest & new & kids & Hd & -> & Hel & -> & _).
  split; [|split; [done|]].
  - intros j Hlt Hne. simpl. rewrite Hd. rewrite Hd, length_app in Hlt. simpl in Hlt.
    destruct (decide (j < length pre)) as [Hj|Hj].
    + by rewrite !lookup_app_l.
    + rewrite !(lookup_app_r pre) by lia.
      destruct (j - length pre) as [|j'] eqn:Hjp; [lia|]. simpl.
      apply lookup_app_l. lia.
  - exists n. eexists. split; [rewrite Hd; apply lookup_at|].
    split; [simpl; apply lookup_at|]. done.
Qed.

(** Extra X3.  A [Render] that panics on a bound container leaves the
    container with no child: what it showed before is gone and nothing of
    the new tree is attached. *)
Theorem Render_panic_leaves_container_empty r c d vnode p d' :
  bound d r c ->
  Render validName rangeOrder r vnode d = (Stopped p, d') ->
  childrenOf d' c = [] ∧ vnode ≠ None.
Proof.
  intros Hb Hrun.
  destruct (Render_shape _ _ _ _ _ _ Hb Hrun)
    as (pre & n & rest & new & kids & Hd & -> & Hel & -> & _ & Hstop).
  destruct (Hstop p eq_refl) as [-> Hv]. split; [|done].
  unfold childrenOf. simpl. by rewrite lookup_at.
Qed.

(** Extra X4.  A root of a type the renderer does not know: [createDomNode]
    returns null for it and [Render], which does not test the root as it
    tests children, hands the null to [appendChild]; the host throws and
    [Render] panics, the container emptied and no node created. *)
Theorem Render_unknown_root_panics r c d v :
  bound d r c -> Type_ v = VNodeOther ->
  exists d',
    Render validName rangeOrder r (Some v) d = (Stopped (JSException "TypeError"), d') ∧
    childrenOf d' c = [] ∧ length (nodes d') = length (nodes d).
Proof.
  intros Hb Hty. destruct (bound_split _ _ _ Hb) as (pre & n & rest & Hd & -> & Hel).
  destruct Hb as [Hr _]. unfold Render. rewrite Hr.
  erewrite bind_ok; [|by apply (update_at pre n rest)].
  erewrite bind_ok; cycle 1.
  { destruct v as [ty tag props cs txt hs]. simpl in Hty. subst ty. reflexivity. }
  eexists. split; [reflexivity|]. split.
  - unfold childrenOf. simpl. by rewrite lookup_at.
  - simpl. rewrite Hd, !length_app. reflexivity.
Qed.

(** Extra X6.  The renderer attaches a listener for every entry of
    [EventHandlers], also when the handler is nil: the element renders, and
    the first event of that name dispatched on it panics on the call of the
    nil function, no call of the application having been made. *)
Theorem nil_handler_panics_on_dispatch r c d v event :
  bound d r c -> Type_ v = VNodeElement -> hostable validName v = true ->
  EventHandlers v !! event = Some None ->
  exists d' el,
    Render validName rangeOrder r (Some v) d = (Ok tt, d') ∧
    childrenOf d' c = [el] ∧
    forall value log,
      dispatchEvent d' el (mkEvent event value) log = (Stopped NilFuncCall, log).
Proof.
  intros Hb Hty Hh Hnil.
  destruct (Render_element_listeners r c d v Hb Hty Hh)
    as (d' & el & n & Hrun & Hkids & Hn & _ & Hl).
  exists d', el. split; [exact Hrun|]. split; [exact Hkids|].
  intros value log. unfold dispatchEvent. rewrite Hn. simpl.
  rewrite Hl, lookup_fmap. unfold GoFunc in *. rewrite Hnil. reflexivity.
Qed.

(** Extra X7.  An event for which the node has no handler: dispatched on the
    rendered element it calls nothing. *)
Theorem event_without_handler_calls_nothing r c d v event :
  bound d r c -> Type_ v = VNodeElement -> hostable validName v = true ->
  EventHandlers v !! event = None ->
  exists d' el,
    Render validName rangeOrder r (Some v) d = (Ok tt, d') ∧
    childrenOf d' c = [el] ∧
    forall value log,
      dispatchEvent d' el (mkEvent event value) log = (Ok tt, log).
Proof.
  intros Hb Hty Hh Hnone.
  destruct (Render_element_listeners r c d v Hb Hty Hh)
    as (d' & el & n & Hrun & Hkids & Hn & _ & Hl).
  exists d', el. split; [exact Hrun|]. split; [exact Hkids|].
  intros value log. unfold dispatchEvent. rewrite Hn. simpl.
  rewrite Hl, lookup_fmap. unfold GoFunc in *. rewrite Hnone. reflexivity.
Qed.

(** *** Panics inside createDomNode *)

Lemma Render_of_panic r c d v p :
  bound d r c ->
  (forall d1, exists d2, createDomNode validName rangeOrder v d1 = (Stopped p, d2)) ->
  exists d',
    Render validName rangeOrder r (Some v) d = (Stopped p, d') ∧ childrenOf d' c = [].
Proof.
  intros Hb Hpanic.
  destruct (Render validName rangeOrder r (Some v) d) as [out d'] eqn:Hrun.
  assert (out = Stopped p) as ->.
  { destruct (bound_split _ _ _ Hb) as (pre & n & rest & Hd & -> & Hel).
    destruct Hb as [Hr _]. unfold Render in Hrun. rewrite Hr in Hrun.
    erewrite bind_ok in Hrun; [|by apply (update_at pre n rest)].
    match type of Hrun with bind _ _ ?d1 = _ => destruct (Hpanic d1) as [d2 H2] end.
    erewrite bind_stopped in Hrun; [|exact H2]. by inversion Hrun. }
  exists d'. split; [done|].
  destruct (Render_shape _ _ _ _ _ _ Hb Hrun)
    as (pre & n & rest & new & kids & Hd & -> & Hel & -> & _ & Hstop).
  destruct (Hstop p eq_refl) as [-> _]. unfold childrenOf. simpl. by rewrite lookup_at.
Qed.

Lemma appendChildren_app el cs1 cs2 d :
  appendChildren validName rangeOrder el (cs1 ++ cs2) d =
  bind (appendChildren validName rangeOrder el cs1)
       (fun _ => appendChildren validName rangeOrder el cs2) d.
Proof.
  revert d. induction cs1 as [|c cs1 IH]; intros d; [reflexivity|].
  simpl. unfold bind in *.
  destruct (createDomNodePtr validName rangeOrder c d) as [[r|e] d1]; [|reflexivity].
  destruct ((if Truthy r then appendChild el r else ret tt) d1) as [[[]|e] d2];
    [apply IH | reflexivity].
Qed.

(** An element whose tag and attributes the host takes: [createDomNode]
    gets as far as the loop over the children, on the element made. *)
Lemma createDomNode_header v d :
  Type_ v = VNodeElement ->
  validName (Tag v) = true ->
  map_Forall (fun k x => validName k = true ∧ is_Some (attrString x)) (Props v) ->
  createDomNode validName rangeOrder v d =
  (appendChildren validName rangeOrder (Node (length (nodes d))) (Children v) ;;;
   ret (Node (length (nodes d))))
    (setNodes d (nodes d ++ [mkHostNode (ElementNode (Tag v)) (omap attrString (Props v))
                                        ((fun h => [FuncOf h]) <$> EventHandlers v) []])).
Proof.
  intros Hty Htag Hprops. rewrite createDomNode_element by done.
  set (n0 := mkHostNode (ElementNode (Tag v)) ∅ ∅ []).
  set (d1 := setNodes d (nodes d ++ [n0])).
  erewrite bind_ok; [|unfold createElement; by rewrite Htag].
  erewrite bind_ok; cycle 1.
  { apply (setAttributes_run validName _ (nodes d) n0 [] d1); [done|apply rangeOrder_NoDup|].
    apply Forall_forall. intros [k x] Hkx. apply rangeOrder_elem in Hkx.
    exact (Hprops k x Hkx). }
  erewrite bind_ok; cycle 1.
  { apply (addEventListeners_run _ (nodes d)); [reflexivity|apply rangeOrder_NoDup|].
    apply Forall_forall. intros ? _. apply lookup_empty. }
  subst n0 d1. cbn [kind attributes listeners childNodes].
  rewrite attrsOf_rangeOrder, listenersOf_rangeOrder by done.
  by rewrite !(right_id_L ∅ (∪)), !setNodes_setNodes.
Qed.

(** Extra X8.  A nil pointer among the children of an element, the children
    before it being instantiable: [createDomNode] reads the type through the
    nil pointer and panics, so [Render] panics with the nil dereference and
    the container is left empty. *)
Theorem Render_nil_child_panics r c d v before after :
  bound d r c ->
  Type_ v = VNodeElement ->
  validName (Tag v) = true ->
  map_Forall (fun k x => validName k = true ∧ is_Some (attrString x)) (Props v) ->
  Children v = before ++ None :: after ->
  Forall (fun ch => exists ch', ch = Some ch' ∧ hostable validName ch' = true) before ->
  exists d',
    Render validName rangeOrder r (Some v) d = (Stopped NilDereference, d') ∧
    childrenOf d' c = [].
Proof.
  intros Hb Hty Htag Hprops Hcs Hbefore. apply Render_of_panic; [done|].
  intros d1. rewrite createDomNode_header by done. rewrite Hcs.
  assert (Hkids : Forall (fun ch => exists ch', ch = Some ch' ∧
                             forall d, exists new, builds ch' d new) before).
  { eapply Forall_impl; [exact Hbefore|]. intros ch (ch' & -> & Hh).
    exists ch'. split; [done|]. by apply createDomNode_builds. }
  match goal with |- context [setNodes d1 (?p ++ [?n])] =>
    set (n2 := n); set (d3 := setNodes d1 (p ++ [n])) end.
  destruct (appendChildren_run before Hkids (nodes d1) n2 [] d3 eq_refl eq_refl)
    as (ids & new & Hrun & _).
  eexists. erewrite bind_stopped; [reflexivity|].
  rewrite appendChildren_app. erewrite bind_ok; [|exact Hrun].
  simpl. erewrite bind_stopped; reflexivity.
Qed.

Lemma setAttributes_stop el l :
  Forall (fun kv : string * GoValue => validName kv.1 = true) l ->
  Exists (fun kv : string * GoValue => attrString kv.2 = None) l ->
  forall d, exists d',
    forEach l (fun kv => setAttribute validName (Node el) kv.1 kv.2) d =
    (Stopped InvalidValue, d').
Proof.
  induction l as [|[k x] l IH]; intros Hvalid Hbad d; [by inversion Hbad|].
  rewrite forEach_cons. inversion Hvalid as [|? ? Hk Hvalid']; subst. simpl in Hk.
  destruct (attrString x) as [s|] eqn:Hx.
  - assert (Hbad' : Exists (fun kv : string * GoValue => attrString kv.2 = None) l).
    { inversion Hbad as [? ? Hhead|]; subst; [simpl in Hhead; congruence | done]. }
    erewrite bind_ok; [|unfold setAttribute; simpl; rewrite Hx, Hk; reflexivity].
    apply (IH Hvalid' Hbad').
  - exists d. erewrite bind_stopped; [reflexivity|].
    unfold setAttribute. simpl. by rewrite Hx.
Qed.

(** Extra X9.  An attribute value that [js.ValueOf] cannot convert, on an
    element whose tag and attribute names the host takes: whatever the order
    in which the attributes are visited, [Render] panics with the invalid
    value and the container is left empty. *)
Theorem Render_unsupported_attribute_panics r c d v key :
  bound d r c ->
  Type_ v = VNodeElement ->
  validName (Tag v) = true ->
  (forall k x, Props v !! k = Some x -> validName k = true) ->
  Props v !! key = Some GoUnsupported ->
  exists d',
    Render validName rangeOrder r (Some v) d = (Stopped InvalidValue, d') ∧
    childrenOf d' c = [].
Proof.
  intros Hb Hty Htag Hkeys Hbad. apply Render_of_panic; [done|].
  intros d1. rewrite createDomNode_element by done.
  erewrite bind_ok; [|unfold createElement; by rewrite Htag].
  destruct (setAttributes_stop (length (nodes d1)) (rangeOrder _ (Props v)))
    with (d := (alloc (mkHostNode (ElementNode (Tag v)) ∅ ∅ []) d1).2) as [d2 Hstop].
  - apply Forall_forall. intros [k x] Hkx. apply rangeOrder_elem in Hkx. simpl. eauto.
  - apply Exists_exists. exists (key, GoUnsupported). split; [|done].
    by apply rangeOrder_elem.
  - exists d2. erewrite bind_stopped; [reflexivity | exact Hstop].
Qed.

(** ** A tree the host cannot instantiate *)

Lemma setAttributes_fail el l :
  Exists (fun kv : string * GoValue =>
            ¬ (validName kv.1 = true ∧ is_Some (attrString kv.2))) l ->
  forall d, exists p d',
    forEach l (fun kv => setAttribute validName (Node el) kv.1 kv.2) d = (Stopped p, d').
Proof.
  induction 1 as [[k x] l Hbad|[k x] l _ IH]; intros d; rewrite forEach_cons; unfold bind.
  - unfold setAttribute. cbn [fst snd] in *. destruct (attrString x) as [s|] eqn:Hx.
    + destruct (validName k) eqn:Hk; [|by eexists _, _].
      exfalso. apply Hbad. split; [done | by eexists].
    + by eexists _, _.
  - destruct (setAttribute validName (Node el) (k, x).1 (k, x).2 d) as [[[]|p] d1].
    + apply IH.
    + by eexists _, _.
Qed.

Lemma appendChildren_fail el cs :
  Forall (fun c => match c with
                   | Some v =>
                       hostable validName v = false ->
                       forall d, exists p d',
                         createDomNode validName rangeOrder v d = (Stopped p, d')
                   | None => True
                   end) cs ->
  ¬ Forall (fun c => exists c', c = Some c' ∧ hostable validName c' = true) cs ->
  forall d, exists p d', appendChildren validName rangeOrder el cs d = (Stopped p, d').
Proof.
  induction 1 as [|c cs Hc _ IH]; intros Hnot d.
  { exfalso. apply Hnot. constructor. }
  cbn [appendChildren]. unfold bind at 1.
  destruct c as [v|]; [|by eexists _, _]. cbn [createDomNodePtr].
  destruct (createDomNode validName rangeOrder v d) as [[r|p] d1] eqn:Hv; [|by eexists _, _].
  destruct (hostable validName v) eqn:Hh.
  2:{ destruct (Hc eq_refl d) as (p & d' & Hstop). congruence. }
  unfold bind.
  destruct ((if Truthy r then appendChild el r else ret tt) d1) as [[[]|p] d2];
    [|by eexists _, _].
  apply IH. intros Hall. apply Hnot. constructor; [by exists v | exact Hall].
Qed.

(** [createDomNode] panics on every tree the host cannot instantiate: with
    [createDomNode_builds], it returns exactly on the trees it can. *)
Lemma createDomNode_fails v :
  hostable validName v = false ->
  forall d, exists p d', createDomNode validName rangeOrder v d = (Stopped p, d').
Proof.
  induction v as [ty tag props cs txt hs IH] using VNode_nested_ind. intros Hh d.
  destruct ty; [|done|done].
  set (v := mkVNode VNodeElement tag props cs txt hs) in *.
  destruct (validName tag) eqn:Htag.
  2:{ rewrite createDomNode_element by done. unfold bind, createElement.
      cbn [Tag v]. rewrite Htag. by eexists _, _. }
  destruct (decide (map_Forall (fun k x => validName k = true ∧ is_Some (attrString x))
                               props)) as [Hprops|Hprops].
  - rewrite createDomNode_header by done. cbn [Children v].
    destruct (appendChildren_fail
                (Node (length (nodes d))) cs) with
      (d := setNodes d (nodes d ++ [mkHostNode (ElementNode (Tag v))
                                      (omap attrString (Props v))
                                      ((fun h => [FuncOf h]) <$> EventHandlers v) []]))
      as (p & d' & Hstop).
    + eapply Forall_impl; [exact IH|]. intros [c|] Hc; [exact Hc | done].
    + intros Hall. assert (hostable validName v = true); [|congruence].
      apply hostable_element; done.
    + eexists p, d'. by erewrite bind_stopped.
  - apply map_not_Forall in Hprops as (k & x & Hkx & Hbad); [|apply _].
    rewrite createDomNode_element by done. cbn [Tag Props v].
    erewrite bind_ok; [|unfold createElement; by rewrite Htag].
    destruct (setAttributes_fail (length (nodes d)) (rangeOrder _ props))
      with (d := setNodes d (nodes d ++ [mkHostNode (ElementNode tag) ∅ ∅ []]))
      as (p & d' & Hstop).
    + apply Exists_exists. exists (k, x). split; [by apply rangeOrder_elem | exact Hbad].
    + eexists p, d'. by erewrite bind_stopped.
Qed.

(** Once a child fails, what comes after it in the list plays no part. *)
Lemma appendChildren_stops_at el ch before :
  (forall d, exists p d',
      createDomNodePtr validName rangeOrder ch d = (Stopped p, d')) ->
  forall d, exists p d',
    forall after,
      appendChildren validName rangeOrder el (before ++ ch :: after) d = (Stopped p, d').
Proof.
  intros Hch. induction before as [|c before IH]; intros d.
  - destruct (Hch d) as (p & d' & Hstop). exists p, d'. intros after.
    rewrite app_nil_l. cbn [appendChildren]. unfold bind. by rewrite Hstop.
  - destruct (createDomNodePtr validName rangeOrder c d) as [[r|p] d1] eqn:H1.
    + destruct ((if Truthy r then appendChild el r else ret tt) d1) as [[[]|p] d2] eqn:H2.
      * destruct (IH d2) as (p & d' & Hall). exists p, d'. intros after.
        rewrite <- app_comm_cons. cbn [appendChildren]. unfold bind. rewrite H1, H2.
        apply Hall.
      * exists p, d2. intros after.
        rewrite <- app_comm_cons. cbn [appendChildren]. unfold bind. by rewrite H1, H2.
    + exists p, d1. intros after.
      rewrite <- app_comm_cons. cbn [appendChildren]. unfold bind. by rewrite H1.
Qed.

Lemma createDomNode_stops_at v before ch after :
  Type_ v = VNodeElement ->
  Children v = before ++ ch :: after ->
  (ch = None ∨ exists c, ch = Some c ∧ hostable validName c = false) ->
  forall d, exists p d',
    forall after',
      createDomNode validName rangeOrder
        (mkVNode (Type_ v) (Tag v) (Props v) (before ++ ch :: after') (Text v)
                 (EventHandlers v)) d = (Stopped p, d').
Proof.
  intros Hty Hcs Hbad d.
  assert (Hch : forall d, exists p d',
             createDomNodePtr validName rangeOrder ch d = (Stopped p, d')).
  { intros d0. destruct Hbad as [->|(c & -> & Hc)]; [by eexists _, _|].
    apply createDomNode_fails, Hc. }
  destruct (createElement validName (Tag v) d) as [[el|p] d1] eqn:H1.
  2:{ exists p, d1. intros after'. rewrite createDomNode_element by done.
      cbn [Tag Props EventHandlers Children]. unfold bind. by rewrite H1. }
  destruct (forEach (rangeOrder _ (Props v))
              (fun kv => setAttribute validName el kv.1 kv.2) d1) as [[[]|p] d2] eqn:H2.
  2:{ exists p, d2. intros after'. rewrite createDomNode_element by done.
      cbn [Tag Props EventHandlers Children]. unfold bind. by rewrite H1, H2. }
  destruct (forEach (rangeOrder _ (EventHandlers v))
              (fun eh => addEventListener el eh.1 (FuncOf eh.2)) d2) as [[[]|p] d3] eqn:H3.
  2:{ exists p, d3. intros after'. rewrite createDomNode_element by done.
      cbn [Tag Props EventHandlers Children]. unfold bind. by rewrite H1, H2, H3. }
  destruct (appendChildren_stops_at el ch before Hch d3) as (p & d' & Hall).
  exists p, d'. intros after'. rewrite createDomNode_element by done.
  cbn [Tag Props EventHandlers Children]. unfold bind. by rewrite H1, H2, H3, Hall.
Qed.

Lemma Render_of_failure r c d v :
  bound d r c ->
  (forall d1, exists p d2, createDomNode validName rangeOrder v d1 = (Stopped p, d2)) ->
  exists p d',
    Render validName rangeOrder r (Some v) d = (Stopped p, d') ∧ childrenOf d' c = [].
Proof.
  intros Hb Hpanic.
  destruct (Render validName rangeOrder r (Some v) d) as [out d'] eqn:Hrun.
  assert (exists p, out = Stopped p) as [p ->].
  { destruct (bound_split _ _ _ Hb) as (pre & n & rest & Hd & -> & Hel).
    destruct Hb as [Hr _]. unfold Render in Hrun. rewrite Hr in Hrun.
    erewrite bind_ok in Hrun; [|by apply (update_at pre n rest)].
    match type of Hrun with bind _ _ ?d1 = _ => destruct (Hpanic d1) as (p & d2 & H2) end.
    erewrite bind_stopped in Hrun; [|exact H2]. exists p. by inversion Hrun. }
  exists p, d'. split; [done|].
  destruct (Render_shape _ _ _ _ _ _ Hb Hrun)
    as (pre & n & rest & new & kids & Hd & -> & Hel & -> & _ & Hstop).
  destruct (Hstop p eq_refl) as [-> _]. unfold childrenOf. simpl. by rewrite lookup_at.
Qed.

(** Extra X5.  Go visits the attributes and the event handlers of a node in
    an order it does not fix.  Whether a render succeeds does not depend on
    it: on a bound container, whatever the order, [Render] returns exactly
    for the trees the host can instantiate whose root is a text or an
    element, and panics for every other tree. *)
Theorem Render_returns_whatever_the_range_order r c d v :
  bound d r c ->
  ((exists d', Render validName rangeOrder r (Some v) d = (Ok tt, d')) <->
   hostable validName v = true ∧ Type_ v ≠ VNodeOther) ∧
  ((exists p d', Render validName rangeOrder r (Some v) d = (Stopped p, d')) <->
   hostable validName v = false ∨ Type_ v = VNodeOther).
Proof.
  intros Hb.
  assert (Hok : hostable validName v = true -> Type_ v ≠ VNodeOther ->
                exists d', Render validName rangeOrder r (Some v) d = (Ok tt, d')).
  { intros Hh Hty.
    assert (exists t, hostImage v = Some t) as [t Ht].
    { destruct v as [[] tag props cs txt hs]; simpl in *; by eauto. }
    destruct (Render_run r c d v t Hb Hh Ht) as (d' & Hrun & _). by exists d'. }
  assert (Hother : Type_ v = VNodeOther ->
                   exists p d', Render validName rangeOrder r (Some v) d = (Stopped p, d')).
  { intros Hty. destruct (bound_split _ _ _ Hb) as (pre & n & rest & Hd & -> & Hel).
    destruct Hb as [Hr _]. unfold Render. rewrite Hr.
    erewrite bind_ok; [|by apply (update_at pre n rest)].
    erewrite bind_ok; cycle 1.
    { destruct v as [ty tag props cs txt hs]. simpl in Hty. subst ty. reflexivity. }
    by eexists _, _. }
  assert (Hbad : hostable validName v = false ->
                 exists p d', Render validName rangeOrder r (Some v) d = (Stopped p, d')).
  { intros Hh. destruct (Render_of_failure r c d v Hb) as (p & d' & Hrun & _).
    - intros d1. by apply createDomNode_fails.
    - by exists p, d'. }
  split; split.
  - intros [d' Hrun]. destruct (hostable validName v) eqn:Hh.
    + split; [done|]. intros Hty. destruct (Hother Hty) as (p & d2 & Hstop). congruence.
    + destruct (Hbad eq_refl) as (p & d2 & Hstop). congruence.
  - intros [Hh Hty]. by apply Hok.
  - intros (p & d' & Hrun). destruct (hostable validName v) eqn:Hh; [|by left].
    right. destruct (Type_ v) eqn:Hty; [| |done].
    + destruct (Hok eq_refl) as (d2 & Hret); [done | congruence].
    + destruct (Hok eq_refl) as (d2 & Hret); [done | congruence].
  - intros [Hh|Hty]; [by apply Hbad | by apply Hother].
Qed.

(** Claim C5, as amended.  An element the host can instantiate, children
    included, renders: its children are, in order, the nodes of the children
    that instantiate to a usable node; a child whose instantiation returns
    null, which is exactly a child of a type the renderer does not know, is
    left out and the siblings after it are still appended.  A child whose
    instantiation fails is not tolerated: the instantiation of a child the
    host cannot instantiate panics, and for such a child or a nil pointer
    among the children of any element, [createDomNode] panics whatever the
    siblings after that child are, and [Render] panics with the container
    left empty. *)
Theorem createDomNode_child_omitted_or_fatal v d :
  Type_ v = VNodeElement ->
  (hostable validName v = true ->
   (exists d',
      createDomNode validName rangeOrder v d = (Ok (Node (length (nodes d))), d') ∧
      Forall2 (fun i t => reflects (length (nodes d)) d' i t = true)
              (childrenOf d' (length (nodes d))) (usableImages (Children v))) ∧
   (forall c, Some c ∈ Children v ->
      forall d0, exists r d0',
        createDomNode validName rangeOrder c d0 = (Ok r, d0') ∧
        (Truthy r = false <-> Type_ c = VNodeOther) ∧
        (Truthy r = false <-> hostImage c = None)) ∧
   (forall r c, bound d r c ->
      exists d', Render validName rangeOrder r (Some v) d = (Ok tt, d'))) ∧
  (forall c d0,
     hostable validName c = false ->
     exists p d0', createDomNode validName rangeOrder c d0 = (Stopped p, d0')) ∧
  (forall before ch after,
     Children v = before ++ ch :: after ->
     ch = None ∨ (exists c, ch = Some c ∧ hostable validName c = false) ->
     (exists p d',
        forall after',
          createDomNode validName rangeOrder
            (mkVNode (Type_ v) (Tag v) (Props v) (before ++ ch :: after') (Text v)
                     (EventHandlers v)) d = (Stopped p, d')) ∧
     (exists p d', createDomNode validName rangeOrder v d = (Stopped p, d')) ∧
     (forall r c, bound d r c ->
        exists p d',
          Render validName rangeOrder r (Some v) d = (Stopped p, d') ∧
          childrenOf d' c = [])).
Proof.
  intros Hty. split.
  - intros Hh.
    destruct (createDomNode_omits_unusable_children v d Hty Hh) as (d' & Hrun & Hkids & Hper).
    split; [by exists d'|]. split.
    + intros c Hc d0. destruct (Hper c Hc d0) as (r & d0' & Hc0 & Hnull).
      exists r, d0'. split; [done|]. split; [|done].
      rewrite Hnull. destruct c as [[] tag props cs txt hs]; simpl; split; done.
    + intros r c Hb.
      destruct (Render_run r c d v _ Hb Hh (hostImage_element v Hty)) as (d1 & Hr & _).
      by exists d1.
  - split; [intros c d0 Hc; by apply createDomNode_fails|].
    intros before ch after Hcs Hbad.
    assert (Hall : forall d1, exists p d2,
               createDomNode validName rangeOrder v d1 = (Stopped p, d2)).
    { intros d1.
      destruct (createDomNode_stops_at v before ch after Hty Hcs Hbad d1) as (p & d2 & H).
      exists p, d2. specialize (H after). rewrite <- Hcs in H. by destruct v. }
    split; [by apply (createDomNode_stops_at v before ch after)|].
    split; [apply Hall|].
    intros r c Hb. by apply Render_of_failure.
Qed.

(** Claim C6, as amended.  The attribute values of an element are Go
    interface values, which nothing has turned into strings.  Whenever
    [createDomNode] returns, it returns the element it has created, and that
    element has an attribute for every key of [Props] and for no other: the
    string form of the value, which is the value itself for a string, the
    decimal form for an integer, [true] or [false] for a boolean.  A pair the
    host cannot take (a name it rejects, a value [js.ValueOf] cannot
    convert) is not skipped: [createDomNode] panics.  On an element the host
    can instantiate, [createDomNode] does return. *)
Theorem createDomNode_applies_attributes_or_panics v d :
  Type_ v = VNodeElement ->
  (forall r d',
     createDomNode validName rangeOrder v d = (Ok r, d') ->
     exists n,
       r = Node (length (nodes d)) ∧
       nodes d' !! length (nodes d) = Some n ∧
       kind n = ElementNode (Tag v) ∧
       (forall k, attributes n !! k = Props v !! k ≫= attrString) ∧
       (forall k s, Props v !! k = Some (GoString s) -> attributes n !! k = Some s) ∧
       (forall k m e, Props v !! k = Some (GoInt m e) -> attributes n !! k = Some (pretty m)) ∧
       (forall k b, Props v !! k = Some (GoBool b) ->
          attributes n !! k = Some (if b then "true" else "false"))) ∧
  (forall k x,
     Props v !! k = Some x ->
     validName k = false ∨ attrString x = None ->
     exists p d', createDomNode validName rangeOrder v d = (Stopped p, d')) ∧
  (hostable validName v = true ->
   exists d', createDomNode validName rangeOrder v d = (Ok (Node (length (nodes d))), d')).
Proof.
  intros Hty. split; [|split].
  - intros r d' Hrun.
    destruct (hostable validName v) eqn:Hh.
    2:{ destruct (createDomNode_fails v Hh d) as (p & d2 & Hstop). congruence. }
    destruct (createDomNode_applies_every_attribute v d Hty Hh)
      as (d1 & n & Hrun1 & Hn & Hk & Hall & Hstr).
    rewrite Hrun in Hrun1. injection Hrun1 as -> ->.
    exists n. split; [done|]. split; [done|]. split; [done|]. split; [done|].
    split; [done|]. split.
    + intros k m e Hm. by rewrite Hall, Hm.
    + intros k b Hb. rewrite Hall, Hb. by destruct b.
  - intros k x Hkx Hbad. apply createDomNode_fails.
    destruct (hostable validName v) eqn:Hh; [|done].
    apply hostable_element in Hh as (_ & Hprops & _); [|done].
    destruct (Hprops k x Hkx) as [Hk [s Hs]].
    destruct Hbad; congruence.
  - intros Hh.
    destruct (createDomNode_applies_every_attribute v d Hty Hh) as (d1 & n & Hrun1 & _).
    by exists d1.
Qed.

End RendererFacts.

(** ** The renderer on a concrete page *)

Lemma listedOrder_perm (V : Type) (m : gmap string V) : listedOrder V m ≡ₚ map_to_list m.
Proof. reflexivity. Qed.

Lemma page_bound : bound page (NewRenderer page "app") 1.
Proof. split; [reflexivity | eexists; split; reflexivity]. Qed.

Lemma Render_structural_mapping_witness :
  exists d' root t,
    Render acceptsName listedOrder (NewRenderer page "app") (Some app) page = (Ok tt, d') ∧
    childrenOf d' 1 = [root] ∧
    reflects (length (nodes page)) d' root t = true ∧
    structuralMapping app t.
Proof.
  apply (Render_structural_mapping acceptsName listedOrder listedOrder_perm
           (NewRenderer page "app") 1 page app).
  - split; [reflexivity | eexists; split; reflexivity].
  - vm_compute. reflexivity.
  - vm_compute. reflexivity.
Defined.

Lemma Render_unresolved_container_panics_witness :
  getElementById page "root" = Null ∧
  Render acceptsName listedOrder (NewRenderer page "root") (Some app) page =
  (Stopped (ValueError "Value.Set"), page).
Proof.
  split; [vm_compute; reflexivity|].
  apply (Render_unresolved_container_panics acceptsName listedOrder page "root").
  vm_compute. reflexivity.
Defined.

Lemma Render_nil_empties_container_witness :
  childrenOf page 1 = [2] ∧
  exists d',
    Render acceptsName listedOrder (NewRenderer page "app") None page = (Ok tt, d') ∧
    childrenOf d' 1 = [] ∧ length (nodes d') = length (nodes page).
Proof.
  split; [reflexivity|].
  apply (Render_nil_empties_container acceptsName listedOrder (NewRenderer page "app") 1 page).
  split; [reflexivity | eexists; split; reflexivity].
Defined.

Lemma Render_at_most_one_child_witness :
  length (childrenOf
            (Render acceptsName listedOrder (NewRenderer page "app") (Some app) page).2 1) <= 1 ∧
  (Some app = None ->
   (Render acceptsName listedOrder (NewRenderer page "app") (Some app) page).1 = Ok tt ∧
   childrenOf (Render acceptsName listedOrder (NewRenderer page "app") (Some app) page).2 1 = []) ∧
  (forall v d1 id d2,
      Some app = Some v ->
      clearInnerHTML (container (NewRenderer page "app")) page = (Ok tt, d1) ->
      createDomNode acceptsName listedOrder v d1 = (Ok (Node id), d2) ->
      (Render acceptsName listedOrder (NewRenderer page "app") (Some app) page).1 = Ok tt ∧
      childrenOf (Render acceptsName listedOrder (NewRenderer page "app") (Some app) page).2 1
      = [id]).
Proof.
  apply (Render_at_most_one_child acceptsName listedOrder
           (NewRenderer page "app") 1 page (Some app)).
  - split; [reflexivity | eexists; split; reflexivity].
  - vm_compute. reflexivity.
Defined.

Lemma createDomNode_child_omitted_or_fatal_witness :
  (hostable acceptsName withUnknownChild = true ->
   (exists d',
      createDomNode acceptsName listedOrder withUnknownChild page = (Ok (Node 3), d') ∧
      Forall2 (fun i t => reflects 3 d' i t = true)
              (childrenOf d' 3) (usableImages (Children withUnknownChild))) ∧
   (forall c, Some c ∈ Children withUnknownChild ->
      forall d0, exists r d0',
        createDomNode acceptsName listedOrder c d0 = (Ok r, d0') ∧
        (Truthy r = false <-> Type_ c = VNodeOther) ∧
        (Truthy r = false <-> hostImage c = None)) ∧
   (forall r c, bound page r c ->
      exists d', Render acceptsName listedOrder r (Some withUnknownChild) page = (Ok tt, d'))) ∧
  (forall c d0,
     hostable acceptsName c = false ->
     exists p d0', createDomNode acceptsName listedOrder c d0 = (Stopped p, d0')) ∧
  (forall before ch after,
     Children withUnknownChild = before ++ ch :: after ->
     ch = None ∨ (exists c, ch = Some c ∧ hostable acceptsName c = false) ->
     (exists p d',
        forall after',
          createDomNode acceptsName listedOrder
            (mkVNode (Type_ withUnknownChild) (Tag withUnknownChild) (Props withUnknownChild)
                     (before ++ ch :: after') (Text withUnknownChild)
                     (EventHandlers withUnknownChild)) page = (Stopped p, d')) ∧
     (exists p d', createDomNode acceptsName listedOrder withUnknownChild page
                   = (Stopped p, d')) ∧
     (forall r c, bound page r c ->
        exists p d',
          Render acceptsName listedOrder r (Some withUnknownChild) page = (Stopped p, d') ∧
          childrenOf d' c = [])).
Proof.
  apply (createDomNode_child_omitted_or_fatal acceptsName listedOrder listedOrder_perm
           withUnknownChild page).
  reflexivity.
Defined.

(** Claim C5 as stated fails: the second child of [withRejectedChild] has a
    tag the host rejects, so its instantiation yields no host node.  It is
    not omitted: [createDomNode] panics with the exception of the host, the
    text after it is never instantiated (two nodes are created, the element
    and the first text), and the render as a whole fails, the container left
    empty. *)
Lemma rejected_child_fails_the_render :
  Children withRejectedChild
  = [Some (text "a"); Some (element "" ∅ ∅ []); Some (text "b")] ∧
  createDomNode acceptsName listedOrder (element "" ∅ ∅ []) page
  = (Stopped (JSException "InvalidCharacterError"), page) ∧
  (createDomNode acceptsName listedOrder withRejectedChild page).1
  = Stopped (JSException "InvalidCharacterError") ∧
  length (nodes (createDomNode acceptsName listedOrder withRejectedChild page).2)
  = length (nodes page) + 2 ∧
  (Render acceptsName listedOrder (NewRenderer page "app") (Some withRejectedChild) page).1
  = Stopped (JSException "InvalidCharacterError") ∧
  childrenOf (Render acceptsName listedOrder (NewRenderer page "app")
                (Some withRejectedChild) page).2 1 = [].
Proof.
  split; [reflexivity|].
  repeat (split; [vm_compute; reflexivity|]). vm_compute. reflexivity.
Qed.

(** The element of [withUnknownChild] gets two children, the two texts. *)
Example withUnknownChild_children :
  childrenOf (createDomNode acceptsName listedOrder withUnknownChild page).2 3 = [4; 5] ∧
  usableImages (Children withUnknownChild) = [HText "a"; HText "b"].
Proof. split; vm_compute; reflexivity. Qed.

Lemma createDomNode_applies_attributes_or_panics_witness :
  (forall r d',
     createDomNode acceptsName listedOrder sizedImage page = (Ok r, d') ->
     exists n,
       r = Node (length (nodes page)) ∧
       nodes d' !! length (nodes page) = Some n ∧
       kind n = ElementNode (Tag sizedImage) ∧
       (forall k, attributes n !! k = Props sizedImage !! k ≫= attrString) ∧
       (forall k s, Props sizedImage !! k = Some (GoString s) -> attributes n !! k = Some s) ∧
       (forall k m e, Props sizedImage !! k = Some (GoInt m e) ->
          attributes n !! k = Some (pretty m)) ∧
       (forall k b, Props sizedImage !! k = Some (GoBool b) ->
          attributes n !! k = Some (if b then "true" else "false"))) ∧
  (forall k x,
     Props sizedImage !! k = Some x ->
     acceptsName k = false ∨ attrString x = None ->
     exists p d', createDomNode acceptsName listedOrder sizedImage page = (Stopped p, d')) ∧
  (hostable acceptsName sizedImage = true ->
   exists d', createDomNode acceptsName listedOrder sizedImage page
              = (Ok (Node (length (nodes page))), d')).
Proof.
  apply (createDomNode_applies_attributes_or_panics acceptsName listedOrder listedOrder_perm
           sizedImage page).
  reflexivity.
Defined.

(** The image gets its three attributes, the integer in decimal. *)
Example sizedImage_attributes :
  hostable acceptsName sizedImage = true ∧
  exists d' n,
    createDomNode acceptsName listedOrder sizedImage page = (Ok (Node 3), d') ∧
    nodes d' !! 3 = Some n ∧
    attributes n = {["alt" := "logo"; "width" := "640"; "hidden" := "true"]}.
Proof. split; [vm_compute; reflexivity|]. eexists _, _. vm_compute. repeat split. Qed.

(** Claim C6 as stated fails: [disabledButton] is an element the renderer
    accepts, its attribute [disabled] holds the boolean [true], which is no
    string, and the renderer applies it all the same, the host storing the
    text [true]. *)
Lemma attribute_value_need_not_be_a_string :
  Type_ disabledButton = VNodeElement ∧
  Props disabledButton !! "disabled" = Some (GoBool true) ∧
  (forall s, GoBool true ≠ GoString s) ∧
  exists d' n,
    createDomNode acceptsName listedOrder disabledButton page = (Ok (Node 3), d') ∧
    nodes d' !! 3 = Some n ∧
    attributes n !! "disabled" = Some "true".
Proof.
  split; [reflexivity|]. split; [reflexivity|]. split; [discriminate|].
  eexists _, _. split; [vm_compute; reflexivity|]. split; reflexivity.
Qed.

Lemma change_listener_calls_handler_without_value_witness :
  exists d' el,
    Render acceptsName listedOrder (NewRenderer page "app") (Some nameInput) page = (Ok tt, d') ∧
    childrenOf d' 1 = [el] ∧
    forall value log,
      dispatchEvent d' el (mkEvent "change" value) log =
      (Ok tt, log ++ [mkInvocation "onChange" []]).
Proof.
  apply (change_listener_calls_handler_without_value acceptsName listedOrder listedOrder_perm
           (NewRenderer page "app") 1 page nameInput "onChange").
  - split; [reflexivity | eexists; split; reflexivity].
  - reflexivity.
  - vm_compute. reflexivity.
  - reflexivity.
Defined.

(** Claim C2 as stated fails: the input [nameInput] has a change handler;
    rendered into [page], it is node 3; the host dispatches a change event
    whose target reports the value [hello]; the handler is called with no
    argument, not with that value. *)
Lemma change_value_is_not_passed :
  exists d',
    Render acceptsName listedOrder (NewRenderer page "app") (Some nameInput) page = (Ok tt, d') ∧
    childrenOf d' 1 = [3] ∧
    dispatchEvent d' 3 (mkEvent "change" "hello") [] =
      (Ok tt, [mkInvocation "onChange" []]) ∧
    dispatchEvent d' 3 (mkEvent "change" "hello") [] ≠
      (Ok tt, [mkInvocation "onChange" ["hello"]]).
Proof.
  eexists. split; [vm_compute; reflexivity|]. split; [reflexivity|].
  split; [reflexivity | discriminate].
Qed.

Lemma click_invokes_callback_once_per_event_witness :
  exists d' button,
    Render acceptsName listedOrder (NewRenderer page "app") (Some clickMe) page = (Ok tt, d') ∧
    childrenOf d' 1 = [button] ∧
    forall clicks log,
      Forall (fun ev => eventType ev = "click") clicks ->
      forEach clicks (dispatchEvent d' button) log =
      (Ok tt, log ++ replicate (length clicks) (mkInvocation "onClick" [])).
Proof.
  apply (click_invokes_callback_once_per_event acceptsName listedOrder listedOrder_perm
           (NewRenderer page "app") 1 page clickMe "onClick").
  - split; [reflexivity | eexists; split; reflexivity].
  - reflexivity.
  - vm_compute. reflexivity.
  - reflexivity.
Defined.

(** Three clicks on the rendered button: three calls of the callback. *)
Example three_clicks :
  forEach [mkEvent "click" ""; mkEvent "click" ""; mkEvent "click" ""]
    (dispatchEvent (Render acceptsName listedOrder (NewRenderer page "app")
                      (Some clickMe) page).2 3) [] =
  (Ok tt, [mkInvocation "onClick" []; mkInvocation "onClick" []; mkInvocation "onClick" []]).
Proof. vm_compute. reflexivity. Qed.

(** *** More on the renderer, on the page *)

Lemma reversedOrder_perm (V : Type) (m : gmap string V) :
  reversedOrder V m ≡ₚ map_to_list m.
Proof. apply reverse_Permutation. Qed.

Lemma badAttribute_names (k : string) (x : GoValue) :
  Props badAttribute !! k = Some x -> acceptsName k = true.
Proof.
  intros Hk. unfold acceptsName. destruct (decide (k = "")) as [->|Hne].
  - vm_compute in Hk. discriminate.
  - by rewrite bool_decide_false.
Qed.

Lemma Render_again_replaces_previous_tree_witness :
  exists d1 d2 root1 root2 t2,
    Render acceptsName listedOrder (NewRenderer page "app") (Some app) page = (Ok tt, d1) ∧
    childrenOf d1 1 = [root1] ∧
    Render acceptsName listedOrder (NewRenderer page "app") (Some clickMe) d1 = (Ok tt, d2) ∧
    childrenOf d2 1 = [root2] ∧
    root1 < length (nodes d1) ∧
    reflects (length (nodes d1)) d2 root2 t2 = true ∧
    structuralMapping clickMe t2.
Proof.
  apply (Render_again_replaces_previous_tree acceptsName listedOrder listedOrder_perm
           (NewRenderer page "app") 1 page app clickMe).
  - split; [reflexivity | eexists; split; reflexivity].
  - vm_compute. reflexivity.
  - vm_compute. reflexivity.
  - vm_compute. reflexivity.
  - vm_compute. reflexivity.
Defined.

Lemma Render_changes_only_container_children_witness :
  (forall j, j < length (nodes page) -> j ≠ 1 ->
     nodes (Render acceptsName listedOrder (NewRenderer page "app") (Some app) page).2 !! j
     = nodes page !! j) ∧
  documentElement (Render acceptsName listedOrder (NewRenderer page "app") (Some app) page).2
  = documentElement page ∧
  exists n n',
    nodes page !! 1 = Some n ∧
    nodes (Render acceptsName listedOrder (NewRenderer page "app") (Some app) page).2 !! 1
    = Some n' ∧
    kind n' = kind n ∧ attributes n' = attributes n ∧ listeners n' = listeners n.
Proof.
  apply (Render_changes_only_container_children acceptsName listedOrder
           (NewRenderer page "app") 1 page (Some app)
           (Render acceptsName listedOrder (NewRenderer page "app") (Some app) page).1).
  - split; [reflexivity | eexists; split; reflexivity].
  - vm_compute. reflexivity.
Defined.

Lemma Render_panic_leaves_container_empty_witness :
  childrenOf (Render acceptsName listedOrder (NewRenderer page "app") (Some badAttribute)
                page).2 1 = [] ∧
  Some badAttribute ≠ None.
Proof.
  apply (Render_panic_leaves_container_empty acceptsName listedOrder
           (NewRenderer page "app") 1 page (Some badAttribute) InvalidValue).
  - split; [reflexivity | eexists; split; reflexivity].
  - vm_compute. reflexivity.
Defined.

Lemma Render_unknown_root_panics_witness :
  exists d',
    Render acceptsName listedOrder (NewRenderer page "app") (Some unknownRoot) page
    = (Stopped (JSException "TypeError"), d') ∧
    childrenOf d' 1 = [] ∧ length (nodes d') = length (nodes page).
Proof.
  apply (Render_unknown_root_panics acceptsName listedOrder
           (NewRenderer page "app") 1 page unknownRoot).
  - split; [reflexivity | eexists; split; reflexivity].
  - reflexivity.
Defined.

Lemma Render_returns_whatever_the_range_order_witness :
  ((exists d', Render acceptsName reversedOrder (NewRenderer page "app") (Some searchBox) page
               = (Ok tt, d')) <->
   hostable acceptsName searchBox = true ∧ Type_ searchBox ≠ VNodeOther) ∧
  ((exists p d', Render acceptsName reversedOrder (NewRenderer page "app") (Some searchBox)
                   page = (Stopped p, d')) <->
   hostable acceptsName searchBox = false ∨ Type_ searchBox = VNodeOther).
Proof.
  apply (Render_returns_whatever_the_range_order acceptsName reversedOrder reversedOrder_perm
           (NewRenderer page "app") 1 page searchBox).
  split; [reflexivity | eexists; split; reflexivity].
Defined.

(** The two orders do differ on the attributes of [searchBox]. *)
Example searchBox_orders_differ :
  listedOrder _ (Props searchBox) ≠ reversedOrder _ (Props searchBox).
Proof. vm_compute. discriminate. Qed.

Lemma nil_handler_panics_on_dispatch_witness :
  exists d' el,
    Render acceptsName listedOrder (NewRenderer page "app") (Some deadButton) page
    = (Ok tt, d') ∧
    childrenOf d' 1 = [el] ∧
    forall value log,
      dispatchEvent d' el (mkEvent "click" value) log = (Stopped NilFuncCall, log).
Proof.
  apply (nil_handler_panics_on_dispatch acceptsName listedOrder listedOrder_perm
           (NewRenderer page "app") 1 page deadButton "click").
  - split; [reflexivity | eexists; split; reflexivity].
  - reflexivity.
  - vm_compute. reflexivity.
  - vm_compute. reflexivity.
Defined.

Lemma event_without_handler_calls_nothing_witness :
  exists d' el,
    Render acceptsName listedOrder (NewRenderer page "app") (Some clickMe) page
    = (Ok tt, d') ∧
    childrenOf d' 1 = [el] ∧
    forall value log,
      dispatchEvent d' el (mkEvent "keydown" value) log = (Ok tt, log).
Proof.
  apply (event_without_handler_calls_nothing acceptsName listedOrder listedOrder_perm
           (NewRenderer page "app") 1 page clickMe "keydown").
  - split; [reflexivity | eexists; split; reflexivity].
  - reflexivity.
  - vm_compute. reflexivity.
  - vm_compute. reflexivity.
Defined.

Lemma Render_nil_child_panics_witness :
  exists d',
    Render acceptsName listedOrder (NewRenderer page "app") (Some withNilChild) page
    = (Stopped NilDereference, d') ∧
    childrenOf d' 1 = [].
Proof.
  apply (Render_nil_child_panics acceptsName listedOrder listedOrder_perm
           (NewRenderer page "app") 1 page withNilChild
           [Some (text "a")] [Some (text "b")]).
  - split; [reflexivity | eexists; split; reflexivity].
  - reflexivity.
  - vm_compute. reflexivity.
  - apply map_Forall_empty.
  - reflexivity.
  - constructor; [|constructor]. eexists. split; [reflexivity|]. vm_compute. reflexivity.
Defined.

Lemma Render_unsupported_attribute_panics_witness :
  exists d',
    Render acceptsName listedOrder (NewRenderer page "app") (Some badAttribute) page
    = (Stopped InvalidValue, d') ∧
    childrenOf d' 1 = [].
Proof.
  apply (Render_unsupported_attribute_panics acceptsName listedOrder listedOrder_perm
           (NewRenderer page "app") 1 page badAttribute "value").
  - split; [reflexivity | eexists; split; reflexivity].
  - reflexivity.
  - vm_compute. reflexivity.
  - exact badAttribute_names.
  - vm_compute. reflexivity.
Defined.

(** ** TrimSpace *)

Section TrimFacts.

Lemma bytes_app a b : bytes (a +:+ b) = bytes a ++ bytes b.
Proof.
  unfold bytes. induction a as [|c a IH]; [reflexivity|].
  simpl. f_equal. exact IH.
Qed.

Lemma ofBytes_bytes s : ofBytes (bytes s) = s.
Proof.
  unfold ofBytes, bytes. rewrite map_map.
  rewrite (map_ext _ id) by (intros a; apply Ascii.ascii_N_embedding).
  rewrite map_id. apply String.string_of_list_ascii_of_string.
Qed.

Lemma trimLeading_spaces enc ws rest : forall fuel,
  Forall (fun c => asciiSpace c = true) ws ->
  spaceWidth enc rest = 0 ->
  length ws <= fuel ->
  trimLeading enc fuel (ws ++ rest) = rest.
Proof.
  induction ws as [|c ws IH]; intros fuel Hws Hrest Hfuel.
  - destruct fuel; simpl; [done | by rewrite Hrest].
  - destruct fuel as [|fuel]; [simpl in Hfuel; lia|].
    inversion Hws as [|? ? Hc Hws']; subst.
    change ((c :: ws) ++ rest) with (c :: (ws ++ rest)).
    change (trimLeading enc (Datatypes.S fuel) (c :: (ws ++ rest)))
      with (match spaceWidth enc (c :: (ws ++ rest)) with
            | O => c :: (ws ++ rest)
            | w => trimLeading enc fuel (drop w (c :: (ws ++ rest)))
            end).
    unfold spaceWidth. rewrite Hc. change (drop 1 (c :: (ws ++ rest))) with (ws ++ rest).
    apply IH; [done | done | simpl in Hfuel; lia].
Qed.

(** White space around a core that neither starts nor ends with white space
    is what [TrimSpace] removes. *)
Lemma trim_core ws1 core ws2 :
  Forall (fun c => asciiSpace c = true) ws1 ->
  Forall (fun c => asciiSpace c = true) ws2 ->
  spaceWidth id (core ++ ws2) = 0 ->
  spaceWidth reverse (reverse core) = 0 ->
  trimRight (trimLeft (ws1 ++ core ++ ws2)) = core.
Proof.
  intros H1 H2 Hhead Hlast. unfold trimLeft.
  rewrite (trimLeading_spaces id ws1 (core ++ ws2));
    [|exact H1|exact Hhead|rewrite length_app; lia].
  unfold trimRight. rewrite reverse_app.
  rewrite (trimLeading_spaces reverse (reverse ws2) (reverse core)).
  - apply reverse_involutive.
  - by apply Forall_reverse.
  - exact Hlast.
  - rewrite !length_reverse, length_app. lia.
Qed.

(** *** What TrimSpace removes and what it leaves *)

Lemma hasPrefix_app p l : hasPrefix p l = true <-> exists r, l = p ++ r.
Proof.
  revert l. induction p as [|a p IH]; intros l; simpl.
  - split; [by exists l | done].
  - destruct l as [|b l].
    + split; [done | by intros [r ?]].
    + rewrite andb_true_iff, bool_decide_eq_true, IH. split.
      * intros [-> [r ->]]. by exists r.
      * intros [r [= -> ->]]. split; [done | by exists r].
Qed.

Lemma unicodeSpaces_nonempty p : In p unicodeSpaces -> length p ≠ 0.
Proof.
  intros Hin. assert (H : Forall (fun p => length p ≠ 0) unicodeSpaces).
  { unfold unicodeSpaces. repeat constructor; done. }
  rewrite Forall_forall in H. apply H. by apply list_elem_of_In.
Qed.

Lemma spaceWidth_cases enc l :
  (forall p, length (enc p) = length p) ->
  spaceWidth enc l = 0 ∨
  (exists c l', l = c :: l' ∧ asciiSpace c = true ∧ spaceWidth enc l = 1) ∨
  (exists p r, p ∈ unicodeSpaces ∧ l = enc p ++ r ∧
               spaceWidth enc l = length (enc p) ∧ length (enc p) ≠ 0).
Proof.
  intros Henc. destruct l as [|c l]; [by left|]. unfold spaceWidth.
  destruct (asciiSpace c) eqn:Hc.
  - right. left. by exists c, l.
  - destruct (find _ unicodeSpaces) as [p|] eqn:Hf; [|by left].
    apply find_some in Hf as [Hin Hp]. apply hasPrefix_app in Hp as [r Hr].
    right. right. exists p, r. rewrite Henc.
    split; [by apply list_elem_of_In|]. split; [done|]. split; [done|].
    by apply unicodeSpaces_nonempty.
Qed.

(** [trimLeading] cuts a run of white space off the front. *)
Lemma trimLeading_split enc fuel : forall l,
  (forall p, length (enc p) = length p) ->
  exists pre, l = pre ++ trimLeading enc fuel l ∧ whiteRunes enc pre.
Proof.
  induction fuel as [|fuel IH]; intros l Henc; [exists []; split; [done|constructor]|].
  simpl. destruct (spaceWidth_cases enc l Henc)
    as [H0|[(c & l' & -> & Hc & H1)|(p & r & Hp & -> & Hw & Hne)]].
  - rewrite H0. exists []. split; [done|constructor].
  - rewrite H1. change (drop 1 (c :: l')) with l'.
    destruct (IH l' Henc) as (pre & Hl & Hpre).
    exists (c :: pre). split; [simpl; f_equal; exact Hl | by constructor].
  - rewrite Hw. destruct (length (enc p)) as [|n] eqn:Hn; [done|].
    rewrite <- Hn, drop_app_length.
    destruct (IH r Henc) as (pre & Hl & Hpre).
    exists (enc p ++ pre). split; [rewrite <- app_assoc; f_equal; exact Hl | by constructor].
Qed.

(** With fuel for the whole list, what is left does not start with white
    space. *)
Lemma trimLeading_done enc fuel : forall l,
  (forall p, length (enc p) = length p) ->
  length l <= fuel -> spaceWidth enc (trimLeading enc fuel l) = 0.
Proof.
  induction fuel as [|fuel IH]; intros l Henc Hlen.
  - destruct l; [done | simpl in Hlen; lia].
  - simpl. destruct (spaceWidth_cases enc l Henc)
      as [H0|[(c & l' & -> & Hc & H1)|(p & r & Hp & -> & Hw & Hne)]].
    + by rewrite H0.
    + rewrite H1. change (drop 1 (c :: l')) with l'.
      apply IH; [done | simpl in Hlen; lia].
    + rewrite Hw. destruct (length (enc p)) as [|n] eqn:Hn; [done|].
      rewrite <- Hn, drop_app_length. apply IH; [done|].
      rewrite length_app in Hlen. lia.
Qed.

Lemma whiteRunes_app enc l1 l2 :
  whiteRunes enc l1 -> whiteRunes enc l2 -> whiteRunes enc (l1 ++ l2).
Proof.
  induction 1 as [|c l Hc _ IH|p l Hp _ IH]; intros H2; [done| |].
  - simpl. constructor; auto.
  - rewrite <- app_assoc. constructor; auto.
Qed.

Lemma whiteRunes_reverse l : whiteRunes reverse l -> whiteSpace (reverse l).
Proof.
  induction 1 as [|c l Hc _ IH|p l Hp _ IH]; [constructor| |].
  - rewrite reverse_cons. apply whiteRunes_app; [done|]. by repeat constructor.
  - rewrite reverse_app, reverse_involutive. apply whiteRunes_app; [done|].
    rewrite <- (app_nil_r p). apply (white_rune id p []); [done|constructor].
Qed.

(** A list that does not start with white space has no prefix that does. *)
Lemma spaceWidth_prefix l post : spaceWidth id (l ++ post) = 0 -> spaceWidth id l = 0.
Proof.
  destruct l as [|c l]; [done|].
  change ((c :: l) ++ post) with (c :: (l ++ post)). unfold spaceWidth.
  destruct (asciiSpace c); [done|].
  destruct (find (fun p => hasPrefix (id p) (c :: (l ++ post))) unicodeSpaces)
    as [q|] eqn:Hq.
  { apply find_some in Hq as [Hin _]. intros H. by apply unicodeSpaces_nonempty in Hin. }
  intros _. destruct (find (fun p => hasPrefix (id p) (c :: l)) unicodeSpaces) as [p|] eqn:Hp;
    [|done].
  apply find_some in Hp as [Hin Hpre]. exfalso.
  apply (find_none _ _ Hq) in Hin. simpl in Hin.
  apply hasPrefix_app in Hpre as [r Hr]. simpl in Hr.
  assert (hasPrefix p (c :: l ++ post) = true); [|congruence].
  apply hasPrefix_app. exists (r ++ post). by rewrite app_assoc, <- Hr.
Qed.

(** [TrimSpace] is the string between a leading and a trailing run of white
    space, and what it leaves neither starts nor ends with white space. *)
Theorem TrimSpace_trims s : trimmedOf s (TrimSpace s).
Proof.
  unfold trimmedOf, TrimSpace, trimRight. set (l := bytes s). unfold trimLeft.
  destruct (trimLeading_split id (length l) l) as (pre & Hl & Hpre); [done|].
  set (m := trimLeading id (length l) l) in *.
  destruct (trimLeading_split reverse (length m) (reverse m)) as (tsop & Hm & Htsop);
    [apply length_reverse|].
  set (k := trimLeading reverse (length m) (reverse m)) in *.
  assert (Hm' : m = reverse k ++ reverse tsop).
  { rewrite <- reverse_app, <- Hm. by rewrite reverse_involutive. }
  exists pre, (reverse k), (reverse tsop).
  split; [by rewrite <- Hm'|]. split; [done|]. split; [exact Hpre|].
  split; [by apply whiteRunes_reverse|]. split.
  - apply (spaceWidth_prefix _ (reverse tsop)). rewrite <- Hm'.
    by apply trimLeading_done.
  - rewrite reverse_involutive. apply trimLeading_done; [apply length_reverse|].
    by rewrite length_reverse.
Qed.

(** The go.mod written for a project. *)
Lemma TrimSpace_goModTemplate name :
  TrimSpace (goModTemplate name) = "module " +:+ name +:+ "

go 1.22".
Proof.
  unfold TrimSpace.
  etransitivity; [|apply ofBytes_bytes]. f_equal.
  unfold goModTemplate. rewrite !bytes_app.
  change (bytes "
module ") with ([10%N] ++ bytes "module ").
  change (bytes "

go 1.22
") with (bytes "

go 1.22" ++ [10%N]).
  rewrite <- !app_assoc.
  rewrite (app_assoc (bytes "module ")), (app_assoc (bytes "module " ++ bytes name)).
  rewrite <- (app_assoc (bytes "module ")).
  apply trim_core.
  - repeat constructor.
  - repeat constructor.
  - reflexivity.
  - rewrite !reverse_app. reflexivity.
Qed.

(** The README.md written for a project. *)
Lemma TrimSpace_readmeTemplate name :
  TrimSpace (readmeTemplate name) = "# " +:+ name +:+ "

This project was generated by the GoFlow CLI.

## Development".
Proof.
  unfold TrimSpace.
  etransitivity; [|apply ofBytes_bytes]. f_equal.
  unfold readmeTemplate. rewrite !bytes_app.
  change (bytes "
# ") with ([10%N] ++ bytes "# ").
  change (bytes "

This project was generated by the GoFlow CLI.

## Development

") with (bytes "

This project was generated by the GoFlow CLI.

## Development" ++ [10%N; 10%N]).
  rewrite <- !app_assoc.
  rewrite (app_assoc (bytes "# ")), (app_assoc (bytes "# " ++ bytes name)).
  rewrite <- (app_assoc (bytes "# ")).
  apply trim_core.
  - repeat constructor.
  - repeat constructor.
  - reflexivity.
  - rewrite !reverse_app. reflexivity.
Qed.

End TrimFacts.

(** ** The init command *)

Section InitFacts.

Variable mkdirDenied : World -> string -> bool.
Variable writeDenied : World -> string -> string -> option WriteFailure.
Variable removeDenied : World -> string -> option (list string).
Variable rangeOrder : forall V : Type, gmap string V -> list (string * V).
Hypothesis rangeOrder_perm :
  forall (V : Type) (m : gmap string V), rangeOrder V m ≡ₚ map_to_list m.

Local Abbreviation writeOne := (cmd.writeOne writeDenied removeDenied).
Local Abbreviation writeFailed := (cmd.writeFailed rangeOrder).
Local Abbreviation projectCreated := (cmd.projectCreated rangeOrder).

Lemma writeOne_denied name fc w files how :
  fs w !! name = Some (Directory files) ->
  writeDenied w name fc.1 = Some how ->
  exists ok w',
    writeOne name fc w = (Stopped 1%Z, w') ∧
    calls w' = calls w ++ [WriteFile name fc.1 (TrimSpace fc.2) false;
                           RemoveAll name ok; Exit 1] ∧
    (ok = true -> fs w' = delete name (fs w)).
Proof.
  intros Hdir Hden. unfold writeOne, os_WriteFile, bind. rewrite Hdir, Hden. simpl.
  unfold os_RemoveAll. simpl.
  destruct (removeDenied _ name); simpl.
  - exists false. eexists. split; [reflexivity|]. simpl.
    rewrite <- !app_assoc. done.
  - exists true. eexists. split; [reflexivity|]. simpl.
    rewrite <- !app_assoc. split; [done|]. intros _. apply delete_insert_eq.
Qed.

Lemma writeOne_ok name fc w files :
  fs w !! name = Some (Directory files) ->
  writeDenied w name fc.1 = None ->
  exists w',
    writeOne name fc w = (Ok tt, w') ∧
    calls w' = calls w ++ [WriteFile name fc.1 (TrimSpace fc.2) true] ∧
    fs w' = <[name := Directory (<[fc.1 := TrimSpace fc.2]> files)]> (fs w).
Proof.
  intros Hdir Hden. unfold writeOne, os_WriteFile, bind. rewrite Hdir, Hden. simpl.
  eexists. split; [reflexivity|]. done.
Qed.

(** The loop over the files, in the order [l]: either some write fails,
    after which the directory is removed (if the system lets it) and the
    command exits with status 1, or every file is written. *)
Lemma writeFiles_run name l : forall w files,
  fs w !! name = Some (Directory files) ->
  NoDup l.*1 ->
  exists out w',
    forEach l (writeOne name) w = (out, w') ∧
    ((exists done fc rest ok,
        l = done ++ fc :: rest ∧ out = Stopped 1%Z ∧
        calls w' = calls w ++ written name done ++
                   [WriteFile name fc.1 (TrimSpace fc.2) false; RemoveAll name ok; Exit 1] ∧
        (ok = true -> fs w' = delete name (fs w)) ∧
        (exists w1 how, writeDenied w1 name fc.1 = Some how)) ∨
     (out = Ok tt ∧
      calls w' = calls w ++ written name l ∧
      fs w' = <[name := Directory (trimmed l ∪ files)]> (fs w))).
Proof.
  induction l as [|fc l IH]; intros w files Hdir Hnd.
  - exists (Ok tt), w. split; [reflexivity|]. right. split; [done|].
    unfold written, trimmed. simpl. rewrite app_nil_r, (left_id_L ∅ (∪)).
    split; [done|]. by rewrite insert_id.
  - inversion Hnd as [|? ? Hk Hnd']; subst. rewrite forEach_cons.
    destruct (writeDenied w name fc.1) as [how|] eqn:Hden.
    + destruct (writeOne_denied name fc w files how Hdir Hden)
        as (ok & w' & Hrun & Hcalls & Hfs).
      exists (Stopped 1%Z), w'. split; [by erewrite bind_stopped|].
      left. exists [], fc, l, ok. split; [done|]. split; [done|]. split; [done|].
      split; [done|]. by exists w, how.
    + destruct (writeOne_ok name fc w files Hdir Hden) as (w1 & Hrun & Hcalls & Hfs).
      erewrite bind_ok; [|exact Hrun].
      destruct (IH w1 (<[fc.1 := TrimSpace fc.2]> files)) as (out & w' & Hloop & Hcases).
      { rewrite Hfs. apply lookup_insert_eq. }
      { done. }
      exists out, w'. split; [exact Hloop|].
      destruct Hcases as [(done & fc' & rest & ok & -> & -> & Hc & Hf & Hw)|(-> & Hc & Hf)].
      * left. exists (fc :: done), fc', rest, ok. split; [done|]. split; [done|].
        split; [|split; [|exact Hw]].
        -- rewrite Hc, Hcalls. unfold written. simpl. by rewrite <- !app_assoc.
        -- intros Hok. rewrite (Hf Hok), Hfs. apply delete_insert_eq.
      * right. split; [done|]. split.
        -- rewrite Hc, Hcalls. unfold written. simpl. by rewrite <- !app_assoc.
        -- rewrite Hf, Hfs, insert_insert_eq. do 2 f_equal.
           unfold trimmed. simpl.
           rewrite <- insert_union_l, <- insert_union_r; [done|].
           apply not_elem_of_list_to_map_1.
           rewrite <- list_fmap_compose. exact Hk.
Qed.

Lemma runInit_unfold name w :
  runInit mkdirDenied writeDenied removeDenied rangeOrder name w =
  (Printf (Initializing name) ;;;
   made <- os_Mkdir mkdirDenied name ;;
   (if made then ret tt else Printf ErrorCreatingDirectory ;;; os_Exit 1) ;;;
   forEach (rangeOrder _ (filesToCreate name)) (writeOne name) ;;;
   Printf (Success name) ;;;
   Printf (NextSteps name)) w.
Proof. reflexivity. Qed.

Lemma trimmed_rangeOrder (m : gmap string string) :
  trimmed (rangeOrder _ m) = TrimSpace <$> m.
Proof.
  unfold trimmed.
  by rewrite list_to_map_fmap, (list_to_map_rangeOrder rangeOrder rangeOrder_perm).
Qed.

Lemma os_Mkdir_fails name w :
  (fs w !! name ≠ None ∨ mkdirDenied w name = true) ->
  os_Mkdir mkdirDenied name w = (Ok false, record (Mkdir name false) w).
Proof.
  unfold os_Mkdir. intros [H|H].
  - by destruct (fs w !! name).
  - rewrite H. by destruct (fs w !! name).
Qed.

Lemma os_Mkdir_makes name w :
  fs w !! name = None -> mkdirDenied w name = false ->
  os_Mkdir mkdirDenied name w =
  (Ok true, record (Mkdir name true) (setFs (<[name := Directory ∅]> (fs w)) w)).
Proof. unfold os_Mkdir. by intros -> ->. Qed.

Lemma runInit_cases name w :
  exists out w',
    runInit mkdirDenied writeDenied removeDenied rangeOrder name w = (out, w') ∧
    (fs w !! name ≠ None -> directoryRefused name w out w') ∧
    (directoryRefused name w out w' ∨ writeFailed name w out w' ∨ projectCreated name w out w').
Proof.
  rewrite runInit_unfold.
  set (w0 := mkWorld (fs w) (calls w) (stdout w ++ [Initializing name])).
  erewrite bind_ok; [|reflexivity]. fold w0.
  destruct (decide (fs w !! name ≠ None ∨ mkdirDenied w0 name = true)) as [Hno|Hyes].
  - erewrite bind_ok; [|by apply os_Mkdir_fails].
    eexists _, _. split; [reflexivity|].
    assert (Href : directoryRefused name w (Stopped 1%Z)
              (record (Exit 1) (mkWorld (fs w) (calls w ++ [Mkdir name false])
                                        ((stdout w ++ [Initializing name]) ++ [ErrorCreatingDirectory])))).
    { split; [done|]. simpl. by rewrite <- app_assoc. }
    split; [intros _; exact Href | left; exact Href].
  - assert (Hfree : fs w !! name = None).
    { destruct (fs w !! name) eqn:E; [|done]. exfalso. apply Hyes. left. done. }
    assert (Hallowed : mkdirDenied w0 name = false).
    { destruct (mkdirDenied w0 name) eqn:E; [|done]. exfalso. apply Hyes. by right. }
    erewrite bind_ok; [|by apply os_Mkdir_makes].
    erewrite bind_ok; [|reflexivity].
    set (w1 := record (Mkdir name true) (setFs (<[name := Directory ∅]> (fs w0)) w0)).
    destruct (writeFiles_run name (rangeOrder _ (filesToCreate name)) w1 ∅)
      as (out & w2 & Hloop & Hcases).
    { apply lookup_insert_eq. }
    { apply (rangeOrder_NoDup rangeOrder rangeOrder_perm). }
    destruct Hcases as [(done & fc & rest & ok & Hl & -> & Hc & Hf & _)|(-> & Hc & Hf)].
    + erewrite bind_stopped; [|exact Hloop].
      exists (Stopped 1%Z), w2. split; [done|]. split; [done|].
      right. left. exists done, fc, rest, ok. split; [done|]. split; [done|]. split.
      * rewrite Hc. simpl. by rewrite <- app_assoc.
      * intros Hok. rewrite (Hf Hok). simpl. by rewrite delete_insert_id.
    + erewrite bind_ok; [|exact Hloop].
      eexists _, _. split; [reflexivity|]. split; [done|].
      right. right. split; [done|]. simpl. split.
      * rewrite Hc. simpl. by rewrite <- app_assoc.
      * rewrite Hf. simpl. rewrite insert_insert_eq, (right_id_L ∅ (∪)).
        by rewrite trimmed_rangeOrder.
Qed.


Lemma fmap_lookup_Some {A B} (f : A -> B) (m : gmap string A) k x :
  m !! k = Some x -> (f <$> m) !! k = Some (f x).
Proof. intros H. by rewrite lookup_fmap, H. Qed.

Lemma filesToCreate_lookups name :
  filesToCreate name !! "main.go" = Some mainGoTemplate ∧
  filesToCreate name !! "index.html" = Some indexHTMLTemplate ∧
  filesToCreate name !! "go.mod" = Some (goModTemplate name) ∧
  filesToCreate name !! "README.md" = Some (readmeTemplate name) ∧
  filesToCreate name !! ".gitignore" = Some gitignoreTemplate ∧
  size (filesToCreate name) = 5.
Proof.
  unfold filesToCreate.
  split; [apply lookup_insert_eq|].
  do 4 (split; [rewrite !lookup_insert_ne by done; apply lookup_insert_eq|]).
  rewrite !map_size_insert_None, map_size_empty; [done|..];
    rewrite ?lookup_insert_ne by done; apply lookup_empty.
Qed.



(** Claim C10.  When [runInit] accepts a project name (it returns), the new
    directory holds exactly five files, [main.go], [index.html], [go.mod],
    [README.md] and [.gitignore], each with its template, made for that
    name, run through [TrimSpace]: every file of the directory holds its
    template with the leading and trailing white space trimmed; and five
    writes were made, one per file. *)
Theorem runInit_writes_five_trimmed_files name w w' :
  runInit mkdirDenied writeDenied removeDenied rangeOrder name w = (Ok tt, w') ->
  exists files order,
    fs w' !! name = Some (Directory files) ∧
    size files = 5 ∧
    files !! "main.go" = Some (TrimSpace mainGoTemplate) ∧
    files !! "index.html" = Some (TrimSpace indexHTMLTemplate) ∧
    files !! "go.mod" = Some (TrimSpace (goModTemplate name)) ∧
    files !! "README.md" = Some (TrimSpace (readmeTemplate name)) ∧
    files !! ".gitignore" = Some (TrimSpace gitignoreTemplate) ∧
    (forall file content, files !! file = Some content ->
       exists template,
         filesToCreate name !! file = Some template ∧ trimmedOf template content) ∧
    calls w' = calls w ++ Mkdir name true :: written name order ∧
    length order = 5 ∧
    order ≡ₚ map_to_list (filesToCreate name).
Proof.
  intros Hrun. destruct (runInit_cases name w) as (out & w1 & Hrun' & _ & Hcases).
  rewrite Hrun in Hrun'. inversion Hrun'; subst out w1. clear Hrun'.
  destruct Hcases as [(? & _)|[(? & ? & ? & ? & _ & ? & _)|(_ & Hc & Hf)]]; [done|done|].
  destruct (filesToCreate_lookups name) as (H1 & H2 & H3 & H4 & H5 & Hsize).
  exists (TrimSpace <$> filesToCreate name), (rangeOrder _ (filesToCreate name)).
  split; [rewrite Hf; apply lookup_insert_eq|].
  split; [rewrite map_size_fmap; exact Hsize|].
  split; [exact (fmap_lookup_Some TrimSpace _ _ _ H1)|].
  split; [exact (fmap_lookup_Some TrimSpace _ _ _ H2)|].
  split; [exact (fmap_lookup_Some TrimSpace _ _ _ H3)|].
  split; [exact (fmap_lookup_Some TrimSpace _ _ _ H4)|].
  split; [exact (fmap_lookup_Some TrimSpace _ _ _ H5)|].
  split.
  { intros file content Hfile. rewrite lookup_fmap in Hfile.
    destruct (filesToCreate name !! file) as [template|]; [|done].
    exists template. split; [done|]. injection Hfile as <-. apply TrimSpace_trims. }
  split; [exact Hc|]. split.
  - rewrite rangeOrder_perm, length_map_to_list. exact Hsize.
  - apply rangeOrder_perm.
Qed.

(** ** More on the init command *)

Lemma writeOne_denied_full name fc w files how :
  fs w !! name = Some (Directory files) ->
  writeDenied w name fc.1 = Some how ->
  exists ok w',
    writeOne name fc w = (Stopped 1%Z, w') ∧
    calls w' = calls w ++ [WriteFile name fc.1 (TrimSpace fc.2) false;
                           RemoveAll name ok; Exit 1] ∧
    stdout w' = stdout w ++ [ErrorCreatingFile fc.1] ∧
    if ok then fs w' = delete name (fs w)
    else exists left,
        fs w' = <[name := Directory left]> (fs w) ∧
        forall file content,
          left !! file = Some content ->
          files !! file = Some content ∨
          (file = fc.1 ∧ exists k, content = String.substring 0 k (TrimSpace fc.2)).
Proof.
  intros Hdir Hden. unfold cmd.writeOne, os_WriteFile, bind. rewrite Hdir, Hden. simpl.
  unfold os_RemoveAll. simpl.
  destruct (removeDenied _ name) as [kept|]; simpl.
  - exists false. eexists. split; [reflexivity|]. simpl.
    rewrite <- !app_assoc. split; [done|]. split; [done|].
    rewrite lookup_insert_eq, insert_insert_eq. eexists. split; [reflexivity|].
    intros file content [Hin _]%map_lookup_filter_Some.
    destruct how as [|k]; cbn [afterFailedWrite] in Hin; [by left|].
    apply lookup_insert_Some in Hin as [[<- <-]|[_ Hin]]; [right | by left].
    split; [done | by exists k].
  - exists true. eexists. split; [reflexivity|]. simpl.
    rewrite <- !app_assoc. split; [done|]. split; [done|]. apply delete_insert_eq.
Qed.

Lemma writeOne_ok_full name fc w files :
  fs w !! name = Some (Directory files) ->
  writeDenied w name fc.1 = None ->
  exists w',
    writeOne name fc w = (Ok tt, w') ∧
    calls w' = calls w ++ [WriteFile name fc.1 (TrimSpace fc.2) true] ∧
    stdout w' = stdout w ++ [Created name fc.1] ∧
    fs w' = <[name := Directory (<[fc.1 := TrimSpace fc.2]> files)]> (fs w).
Proof.
  intros Hdir Hden. unfold cmd.writeOne, os_WriteFile, bind. rewrite Hdir, Hden. simpl.
  eexists. split; [reflexivity|]. done.
Qed.

(** The loop over the files with everything it leaves: calls, lines printed
    and tree, also when the removal of the directory fails.  What a failed
    removal leaves in the directory are files written before the write that
    failed, whole, and what that write left of its file. *)
Lemma writeFiles_full name l : forall w files,
  fs w !! name = Some (Directory files) ->
  NoDup l.*1 ->
  exists out w',
    forEach l (writeOne name) w = (out, w') ∧
    ((exists done fc rest ok,
        l = done ++ fc :: rest ∧ out = Stopped 1%Z ∧
        calls w' = calls w ++ written name done ++
                   [WriteFile name fc.1 (TrimSpace fc.2) false; RemoveAll name ok; Exit 1] ∧
        stdout w' = stdout w ++ (Created name <$> done.*1) ++ [ErrorCreatingFile fc.1] ∧
        if ok then fs w' = delete name (fs w)
        else exists left,
            fs w' = <[name := Directory left]> (fs w) ∧
            forall file content,
              left !! file = Some content ->
              (trimmed done ∪ files) !! file = Some content ∨
              (file = fc.1 ∧ exists k, content = String.substring 0 k (TrimSpace fc.2))) ∨
     (out = Ok tt ∧
      calls w' = calls w ++ written name l ∧
      stdout w' = stdout w ++ (Created name <$> l.*1) ∧
      fs w' = <[name := Directory (trimmed l ∪ files)]> (fs w))).
Proof.
  induction l as [|fc l IH]; intros w files Hdir Hnd.
  - exists (Ok tt), w. split; [reflexivity|]. right. split; [done|].
    unfold written, trimmed. simpl. rewrite !app_nil_r, (left_id_L ∅ (∪)).
    split; [done|]. split; [done|]. by rewrite insert_id.
  - inversion Hnd as [|? ? Hk Hnd']; subst. rewrite forEach_cons.
    destruct (writeDenied w name fc.1) as [how|] eqn:Hden.
    + destruct (writeOne_denied_full name fc w files how Hdir Hden)
        as (ok & w' & Hrun & Hcalls & Hout & Hfs).
      exists (Stopped 1%Z), w'. split; [by erewrite bind_stopped|].
      left. exists [], fc, l, ok. split; [done|]. split; [done|]. split; [done|].
      split; [done|]. destruct ok; [done|].
      destruct Hfs as (left & Hfs & Hleft). exists left. split; [done|].
      unfold trimmed. simpl. by rewrite (left_id_L ∅ (∪)).
    + destruct (writeOne_ok_full name fc w files Hdir Hden) as (w1 & Hrun & Hcalls & Hout & Hfs).
      erewrite bind_ok; [|exact Hrun].
      destruct (IH w1 (<[fc.1 := TrimSpace fc.2]> files)) as (out & w' & Hloop & Hcases).
      { rewrite Hfs. apply lookup_insert_eq. }
      { done. }
      exists out, w'. split; [exact Hloop|].
      assert (Hunion : forall done' : list (string * string),
                 fc.1 ∉ done'.*1 ->
                 trimmed done' ∪ <[fc.1 := TrimSpace fc.2]> files =
                 trimmed (fc :: done') ∪ files).
      { intros done' Hfresh. unfold trimmed. simpl.
        rewrite <- insert_union_l, <- insert_union_r; [done|].
        apply not_elem_of_list_to_map_1. by rewrite <- list_fmap_compose. }
      destruct Hcases as [(done & fc' & rest & ok & -> & -> & Hc & Ho & Hf)|(-> & Hc & Ho & Hf)].
      * left. exists (fc :: done), fc', rest, ok. split; [done|]. split; [done|].
        split; [rewrite Hc, Hcalls; unfold written; simpl; by rewrite <- !app_assoc|].
        split; [rewrite Ho, Hout; simpl; by rewrite <- !app_assoc|].
        destruct ok; [rewrite Hf, Hfs; apply delete_insert_eq|].
        destruct Hf as (left & Hf & Hleft). exists left.
        split; [by rewrite Hf, Hfs, insert_insert_eq|].
        rewrite <- Hunion; [exact Hleft|].
        rewrite fmap_app in Hk. by apply not_elem_of_app in Hk as [? _].
      * right. split; [done|].
        split; [rewrite Hc, Hcalls; unfold written; simpl; by rewrite <- !app_assoc|].
        split; [rewrite Ho, Hout; simpl; by rewrite <- !app_assoc|].
        rewrite Hf, Hfs, insert_insert_eq. do 2 f_equal. by apply Hunion.
Qed.

(** Everything a run of [runInit] leaves, by the way it ends. *)
Lemma runInit_full name w :
  exists out w',
    runInit mkdirDenied writeDenied removeDenied rangeOrder name w = (out, w') ∧
    ((out = Stopped 1%Z ∧
      calls w' = calls w ++ [Mkdir name false; Exit 1] ∧
      stdout w' = stdout w ++ [Initializing name; ErrorCreatingDirectory] ∧
      fs w' = fs w) ∨
     (exists done fc rest ok,
        rangeOrder _ (filesToCreate name) = done ++ fc :: rest ∧
        out = Stopped 1%Z ∧ fs w !! name = None ∧
        calls w' = calls w ++ Mkdir name true :: written name done ++
                   [WriteFile name fc.1 (TrimSpace fc.2) false; RemoveAll name ok; Exit 1] ∧
        stdout w' = stdout w ++ Initializing name :: (Created name <$> done.*1) ++
                    [ErrorCreatingFile fc.1] ∧
        if ok then fs w' = fs w
        else exists left,
            fs w' = <[name := Directory left]> (fs w) ∧
            forall file content,
              left !! file = Some content ->
              trimmed done !! file = Some content ∨
              (file = fc.1 ∧ exists k, content = String.substring 0 k (TrimSpace fc.2))) ∨
     (out = Ok tt ∧ fs w !! name = None ∧
      calls w' = calls w ++ Mkdir name true :: written name (rangeOrder _ (filesToCreate name)) ∧
      stdout w' = stdout w ++ Initializing name ::
                  (Created name <$> (rangeOrder _ (filesToCreate name)).*1) ++
                  [Success name; NextSteps name] ∧
      fs w' = <[name := Directory (TrimSpace <$> filesToCreate name)]> (fs w))).
Proof.
  rewrite runInit_unfold.
  set (w0 := mkWorld (fs w) (calls w) (stdout w ++ [Initializing name])).
  erewrite bind_ok; [|reflexivity]. fold w0.
  destruct (decide (fs w !! name ≠ None ∨ mkdirDenied w0 name = true)) as [Hno|Hyes].
  - erewrite bind_ok; [|by apply os_Mkdir_fails].
    eexists _, _. split; [reflexivity|]. left. simpl.
    split; [done|]. split; [by rewrite <- app_assoc|].
    split; [by rewrite <- app_assoc | done].
  - assert (Hfree : fs w !! name = None).
    { destruct (fs w !! name) eqn:E; [|done]. exfalso. apply Hyes. left. done. }
    assert (Hallowed : mkdirDenied w0 name = false).
    { destruct (mkdirDenied w0 name) eqn:E; [|done]. exfalso. apply Hyes. by right. }
    erewrite bind_ok; [|by apply os_Mkdir_makes].
    erewrite bind_ok; [|reflexivity].
    set (w1 := record (Mkdir name true) (setFs (<[name := Directory ∅]> (fs w0)) w0)).
    destruct (writeFiles_full name (rangeOrder _ (filesToCreate name)) w1 ∅)
      as (out & w2 & Hloop & Hcases).
    { apply lookup_insert_eq. }
    { apply (rangeOrder_NoDup rangeOrder rangeOrder_perm). }
    destruct Hcases as [(done & fc & rest & ok & Hl & -> & Hc & Ho & Hf)|(-> & Hc & Ho & Hf)].
    + erewrite bind_stopped; [|exact Hloop].
      exists (Stopped 1%Z), w2. split; [done|].
      right. left. exists done, fc, rest, ok. split; [done|]. split; [done|]. split; [done|].
      split; [rewrite Hc; simpl; by rewrite <- app_assoc|].
      split; [rewrite Ho; simpl; by rewrite <- app_assoc|].
      destruct ok.
      * rewrite Hf. simpl. by rewrite delete_insert_id.
      * destruct Hf as (left & Hf & Hleft). exists left. split.
        -- rewrite Hf. simpl. by rewrite insert_insert_eq.
        -- intros file content Hin. specialize (Hleft file content Hin).
           by rewrite (right_id_L ∅ (∪)) in Hleft.
    + erewrite bind_ok; [|exact Hloop].
      eexists _, _. split; [reflexivity|].
      right. right. split; [done|]. split; [done|]. simpl.
      split; [rewrite Hc; simpl; by rewrite <- app_assoc|].
      split; [rewrite Ho; simpl; by rewrite <- !app_assoc|].
      rewrite Hf. simpl. rewrite insert_insert_eq, (right_id_L ∅ (∪)).
      by rewrite trimmed_rangeOrder.
Qed.

Lemma written_elem name l c :
  c ∈ written name l -> exists fc, c = WriteFile name fc.1 (TrimSpace fc.2) true.
Proof.
  unfold written. intros (fc & -> & _)%list_elem_of_fmap. by exists fc.
Qed.

Lemma written_no_failedCleanup name l : existsb failedCleanup (written name l) = false.
Proof. induction l as [|fc l IH]; [done | exact IH]. Qed.

(** Extra X10.  For a project name that is a single path element, and so
    names an entry of the working directory: however it ends, [runInit]
    touches no other entry of the working directory; every entry under
    another such name is afterwards what it was. *)
Theorem runInit_touches_only_the_project_name name w out w' other :
  runInit mkdirDenied writeDenied removeDenied rangeOrder name w = (out, w') ->
  pathElement name = true ->
  pathElement other = true ->
  other ≠ name ->
  fs w' !! other = fs w !! other.
Proof.
  intros Hrun _ _ Hother. destruct (runInit_full name w) as (out1 & w1 & Hrun1 & Hcases).
  rewrite Hrun in Hrun1. inversion Hrun1; subst out1 w1. clear Hrun1.
  destruct Hcases as [(_ & _ & _ & ->)|[(done & fc & rest & ok & _ & _ & _ & _ & _ & Hf)
                                       |(_ & _ & _ & _ & ->)]].
  - done.
  - destruct ok; [by rewrite Hf|].
    destruct Hf as (left & -> & _). by rewrite lookup_insert_ne.
  - by rewrite lookup_insert_ne.
Qed.

(** Extra X11.  The cleanup is best effort: when a write has failed and the
    removal of the directory fails too, [runInit] still exits with status 1
    and the directory stays behind.  What it then holds are files written
    before the write that failed, each with its trimmed template, and
    possibly the file of the failed write, with the first bytes of its
    trimmed template; nothing else. *)
Theorem runInit_failed_cleanup_leaves_written_files name w out w' new :
  runInit mkdirDenied writeDenied removeDenied rangeOrder name w = (out, w') ->
  calls w' = calls w ++ new ->
  existsb failedCleanup new = true ->
  exists done fc rest left,
    rangeOrder _ (filesToCreate name) = done ++ fc :: rest ∧
    out = Stopped 1%Z ∧
    fs w !! name = None ∧
    fs w' = <[name := Directory left]> (fs w) ∧
    forall file content,
      left !! file = Some content ->
      trimmed done !! file = Some content ∨
      (file = fc.1 ∧ exists k, content = String.substring 0 k (TrimSpace fc.2)).
Proof.
  intros Hrun Hnew Hfailed. destruct (runInit_full name w) as (out1 & w1 & Hrun1 & Hcases).
  rewrite Hrun in Hrun1. inversion Hrun1; subst out1 w1. clear Hrun1.
  destruct Hcases as [(_ & Hc & _)|[(done & fc & rest & ok & Hl & -> & Hfree & Hc & _ & Hf)
                                   |(_ & _ & Hc & _)]].
  - rewrite Hc in Hnew. apply app_inv_head in Hnew. subst new. done.
  - rewrite Hc in Hnew. apply app_inv_head in Hnew. subst new.
    simpl in Hfailed. rewrite existsb_app, written_no_failedCleanup in Hfailed.
    simpl in Hfailed. destruct ok; [done|].
    destruct Hf as (left & Hf & Hleft). by exists done, fc, rest, left.
  - rewrite Hc in Hnew. apply app_inv_head in Hnew. subst new.
    simpl in Hfailed. by rewrite written_no_failedCleanup in Hfailed.
Qed.

(** Extra X12.  After a run of [runInit] that returned, a second run on the
    same name is refused: it exits with status 1 on the failed [Mkdir], and
    the project of the first run is as it was. *)
Theorem runInit_again_is_refused name w w1 :
  runInit mkdirDenied writeDenied removeDenied rangeOrder name w = (Ok tt, w1) ->
  exists w2,
    runInit mkdirDenied writeDenied removeDenied rangeOrder name w1 = (Stopped 1%Z, w2) ∧
    calls w2 = calls w1 ++ [Mkdir name false; Exit 1] ∧
    fs w2 = fs w1 ∧
    fs w2 !! name = Some (Directory (TrimSpace <$> filesToCreate name)).
Proof.
  intros Hrun. destruct (runInit_full name w) as (out1 & w1' & Hrun1 & Hcases).
  rewrite Hrun in Hrun1. inversion Hrun1; subst out1 w1'. clear Hrun1.
  destruct Hcases as [(? & _)|[(? & ? & ? & ? & _ & ? & _)|(_ & _ & _ & _ & Hf)]];
    [done|done|].
  assert (Hheld : fs w1 !! name = Some (Directory (TrimSpace <$> filesToCreate name))).
  { rewrite Hf. apply lookup_insert_eq. }
  destruct (runInit_full name w1) as (out2 & w2 & Hrun2 & Hcases).
  destruct Hcases as [(-> & Hc & _ & Hfs)|[(? & ? & ? & ? & _ & _ & Hfree & _)
                                          |(_ & Hfree & _)]].
  - exists w2. split; [done|]. split; [done|]. split; [done|]. by rewrite Hfs.
  - by rewrite Hheld in Hfree.
  - by rewrite Hheld in Hfree.
Qed.

(** Extra X13.  The project name goes into the files as it is given: when
    [runInit] returns, the [go.mod] of the project is the module line with
    the name, a blank line and the Go version, and the [README.md] starts
    with the name as its title. *)
Theorem runInit_names_the_module name w w' :
  runInit mkdirDenied writeDenied removeDenied rangeOrder name w = (Ok tt, w') ->
  exists files,
    fs w' !! name = Some (Directory files) ∧
    files !! "go.mod" = Some ("module " +:+ name +:+ "

go 1.22") ∧
    files !! "README.md" = Some ("# " +:+ name +:+ "

This project was generated by the GoFlow CLI.

## Development").
Proof.
  intros Hrun. destruct (runInit_full name w) as (out1 & w1 & Hrun1 & Hcases).
  rewrite Hrun in Hrun1. inversion Hrun1; subst out1 w1. clear Hrun1.
  destruct Hcases as [(? & _)|[(? & ? & ? & ? & _ & ? & _)|(_ & _ & _ & _ & Hf)]];
    [done|done|].
  destruct (filesToCreate_lookups name) as (_ & _ & H3 & H4 & _).
  exists (TrimSpace <$> filesToCreate name).
  split; [rewrite Hf; apply lookup_insert_eq|]. split.
  - rewrite <- TrimSpace_goModTemplate. exact (fmap_lookup_Some TrimSpace _ _ _ H3).
  - rewrite <- TrimSpace_readmeTemplate. exact (fmap_lookup_Some TrimSpace _ _ _ H4).
Qed.

(** Extra X14.  What [runInit] prints: first that it initializes the
    project; then one line per file written, in the order of the writes;
    then, when it returns, the success line and the next steps, and when it
    exits, one error line, for the directory or for the file whose write
    failed, after which nothing is printed. *)
Theorem runInit_prints name w :
  exists out w' printed,
    runInit mkdirDenied writeDenied removeDenied rangeOrder name w = (out, w') ∧
    stdout w' = stdout w ++ Initializing name :: printed ∧
    match out with
    | Ok _ =>
        printed = (Created name <$> (rangeOrder _ (filesToCreate name)).*1) ++
                  [Success name; NextSteps name]
    | Stopped _ =>
        printed = [ErrorCreatingDirectory] ∨
        exists done fc rest,
          rangeOrder _ (filesToCreate name) = done ++ fc :: rest ∧
          printed = (Created name <$> done.*1) ++ [ErrorCreatingFile fc.1]
    end.
Proof.
  destruct (runInit_full name w) as (out & w' & Hrun & Hcases).
  destruct Hcases as [(-> & _ & Ho & _)|[(done & fc & rest & ok & Hl & -> & _ & _ & Ho & _)
                                        |(-> & _ & _ & Ho & _)]].
  - eexists _, _, _. split; [exact Hrun|]. split; [exact Ho|]. by left.
  - eexists _, _, _. split; [exact Hrun|]. split; [exact Ho|]. right. by exists done, fc, rest.
  - eexists _, _, _. split; [exact Hrun|]. split; [exact Ho|]. done.
Qed.

End InitFacts.

(** ** The init command on concrete systems *)


Lemma runInit_writes_five_trimmed_files_witness :
  exists files order,
    fs (runInit allowed2 allowed3 removable listedOrder "my-app" emptyDisk).2 !! "my-app"
      = Some (Directory files) ∧
    size files = 5 ∧
    files !! "main.go" = Some (TrimSpace mainGoTemplate) ∧
    files !! "index.html" = Some (TrimSpace indexHTMLTemplate) ∧
    files !! "go.mod" = Some (TrimSpace (goModTemplate "my-app")) ∧
    files !! "README.md" = Some (TrimSpace (readmeTemplate "my-app")) ∧
    files !! ".gitignore" = Some (TrimSpace gitignoreTemplate) ∧
    (forall file content, files !! file = Some content ->
       exists template,
         filesToCreate "my-app" !! file = Some template ∧ trimmedOf template content) ∧
    calls (runInit allowed2 allowed3 removable listedOrder "my-app" emptyDisk).2
      = calls emptyDisk ++ Mkdir "my-app" true :: written "my-app" order ∧
    length order = 5 ∧
    order ≡ₚ map_to_list (filesToCreate "my-app").
Proof.
  apply (runInit_writes_five_trimmed_files allowed2 allowed3 removable listedOrder
           listedOrder_perm "my-app" emptyDisk).
  vm_compute. reflexivity.
Defined.

(** The name is taken: one failed [Mkdir], exit status 1, and the directory of
    the user is as it was. *)
Example runInit_on_taken_name :
  let run := runInit allowed2 allowed3 removable listedOrder "my-app" takenDisk in
  run.1 = Stopped 1%Z ∧
  calls run.2 = [Mkdir "my-app" false; Exit 1] ∧
  fs run.2 = fs takenDisk.
Proof. vm_compute. repeat split. Qed.

(** A write fails: the directory made is removed again. *)
Example runInit_on_failed_write :
  let run := runInit allowed2 goModDenied removable listedOrder "my-app" emptyDisk in
  run.1 = Stopped 1%Z ∧
  last (calls run.2) = Some (Exit 1) ∧
  RemoveAll "my-app" true ∈ calls run.2 ∧
  fs run.2 = ∅.
Proof.
  vm_compute. split; [reflexivity|]. split; [reflexivity|]. split; [|reflexivity].
  repeat first [apply list_elem_of_here | apply list_elem_of_further].
Qed.

(** What the templates are trimmed to: the text between the first and the
    last line break. *)
Example templates_trimmed :
  TrimSpace gitignoreTemplate = "# Compiled Wasm file
app.wasm

# JS glue file
wasm_exec.js" ∧
  mainGoTemplate = "
" +:+ TrimSpace mainGoTemplate +:+ "
" ∧
  indexHTMLTemplate = "
" +:+ TrimSpace indexHTMLTemplate +:+ "
" ∧
  TrimSpace (goModTemplate "my-app") = "module my-app

go 1.22" ∧
  TrimSpace (readmeTemplate "my-app") = "# my-app

This project was generated by the GoFlow CLI.

## Development".
Proof. vm_compute. repeat split. Qed.

(** *** More on the init command, on concrete systems *)

Lemma runInit_touches_only_the_project_name_witness :
  fs (runInit allowed2 goModDenied removable listedOrder "my-app" busyDisk).2 !! "notes.txt"
  = fs busyDisk !! "notes.txt".
Proof.
  apply (runInit_touches_only_the_project_name allowed2 goModDenied removable listedOrder
           listedOrder_perm "my-app" busyDisk
           (runInit allowed2 goModDenied removable listedOrder "my-app" busyDisk).1).
  - apply surjective_pairing.
  - reflexivity.
  - reflexivity.
  - discriminate.
Defined.

Lemma runInit_failed_cleanup_leaves_written_files_witness :
  exists done fc rest left,
    listedOrder _ (filesToCreate "my-app") = done ++ fc :: rest ∧
    (runInit allowed2 indexDenied removalFails listedOrder "my-app" emptyDisk).1
    = Stopped 1%Z ∧
    fs emptyDisk !! "my-app" = None ∧
    fs (runInit allowed2 indexDenied removalFails listedOrder "my-app" emptyDisk).2
    = <["my-app" := Directory left]> (fs emptyDisk) ∧
    forall file content,
      left !! file = Some content ->
      trimmed done !! file = Some content ∨
      (file = fc.1 ∧ exists k, content = String.substring 0 k (TrimSpace fc.2)).
Proof.
  apply (runInit_failed_cleanup_leaves_written_files allowed2 indexDenied removalFails
           listedOrder listedOrder_perm "my-app" emptyDisk
           (runInit allowed2 indexDenied removalFails listedOrder "my-app" emptyDisk).1
           (runInit allowed2 indexDenied removalFails listedOrder "my-app" emptyDisk).2
           (calls (runInit allowed2 indexDenied removalFails listedOrder "my-app"
                     emptyDisk).2)).
  - apply surjective_pairing.
  - reflexivity.
  - vm_compute. reflexivity.
Defined.

Lemma runInit_again_is_refused_witness :
  exists w2,
    runInit allowed2 allowed3 removable listedOrder "my-app"
      (runInit allowed2 allowed3 removable listedOrder "my-app" emptyDisk).2
    = (Stopped 1%Z, w2) ∧
    calls w2 = calls (runInit allowed2 allowed3 removable listedOrder "my-app" emptyDisk).2
               ++ [Mkdir "my-app" false; Exit 1] ∧
    fs w2 = fs (runInit allowed2 allowed3 removable listedOrder "my-app" emptyDisk).2 ∧
    fs w2 !! "my-app" = Some (Directory (TrimSpace <$> filesToCreate "my-app")).
Proof.
  apply (runInit_again_is_refused allowed2 allowed3 removable listedOrder listedOrder_perm
           "my-app" emptyDisk).
  vm_compute. reflexivity.
Defined.

Lemma runInit_names_the_module_witness :
  exists files,
    fs (runInit allowed2 allowed3 removable listedOrder "my-app" emptyDisk).2 !! "my-app"
    = Some (Directory files) ∧
    files !! "go.mod" = Some ("module " +:+ "my-app" +:+ "

go 1.22") ∧
    files !! "README.md" = Some ("# " +:+ "my-app" +:+ "

This project was generated by the GoFlow CLI.

## Development").
Proof.
  apply (runInit_names_the_module allowed2 allowed3 removable listedOrder listedOrder_perm
           "my-app" emptyDisk).
  vm_compute. reflexivity.
Defined.

Lemma runInit_prints_witness :
  exists out w' printed,
    runInit allowed2 goModDenied removable listedOrder "my-app" emptyDisk = (out, w') ∧
    stdout w' = stdout emptyDisk ++ Initializing "my-app" :: printed ∧
    match out with
    | Ok _ =>
        printed = (Created "my-app" <$> (listedOrder _ (filesToCreate "my-app")).*1) ++
                  [Success "my-app"; NextSteps "my-app"]
    | Stopped _ =>
        printed = [ErrorCreatingDirectory] ∨
        exists done fc rest,
          listedOrder _ (filesToCreate "my-app") = done ++ fc :: rest ∧
          printed = (Created "my-app" <$> done.*1) ++ [ErrorCreatingFile fc.1]
    end.
Proof.
  apply (runInit_prints allowed2 goModDenied removable listedOrder listedOrder_perm
           "my-app" emptyDisk).
Defined.

(** The write of [index.html] stops and the removal fails: the directory
    stays, and [index.html] is in it, cut after nine bytes. *)
Example runInit_on_failed_cleanup :
  let run := runInit allowed2 indexDenied removalFails listedOrder "my-app" emptyDisk in
  run.1 = Stopped 1%Z ∧
  last (calls run.2) = Some (Exit 1) ∧
  RemoveAll "my-app" false ∈ calls run.2 ∧
  exists files,
    fs run.2 !! "my-app" = Some (Directory files) ∧
    files !! "index.html" = Some "<!DOCTYPE".
Proof.
  vm_compute. split; [reflexivity|]. split; [reflexivity|]. split.
  - repeat first [apply list_elem_of_here | apply list_elem_of_further].
  - eexists. split; reflexivity.
Qed.

(** ** The build command *)

Section BuildFacts.

Import build.

Variable GOROOT : string.
Variable environ : list string.
Variable statDenied : gmap string Entry -> string -> bool.
Variable readFile : string -> list string -> option string.
Variable goBuild : gmap string Entry -> list string -> bool * gmap string Entry.
Variable createDenied : gmap string Entry -> string -> bool.
Variable copyStops : gmap string Entry -> option nat.

Local Abbreviation copyWasmExec :=
  (build.copyWasmExec GOROOT readFile createDenied copyStops).
Local Abbreviation runBuild :=
  (build.runBuild GOROOT environ statDenied readFile goBuild createDenied copyStops).

(** Every path through [copyWasmExec]: it returns, with an error or without,
    and what it did to the working directory on each. *)
Lemma copyWasmExec_cases (w : Machine) :
  exists err w',
    copyWasmExec w = (Ok err, w') ∧
    printed w' = printed w ∧
    match err with
    | Some GorootNotSet => GOROOT = "" ∧ w' = w
    | Some CannotOpen =>
        GOROOT ≠ "" ∧
        readFile GOROOT ["lib"; "wasm"; "wasm_exec.js"] = None ∧
        files w' = files w ∧
        ops w' = ops w ++ [Open GOROOT ["lib"; "wasm"; "wasm_exec.js"] false]
    | Some CannotCreate =>
        GOROOT ≠ "" ∧
        (exists content, readFile GOROOT ["lib"; "wasm"; "wasm_exec.js"] = Some content) ∧
        ((exists inside, files w !! "wasm_exec.js" = Some (Directory inside)) ∨
         createDenied (files w) "wasm_exec.js" = true) ∧
        files w' = files w ∧
        ops w' = ops w ++ [Open GOROOT ["lib"; "wasm"; "wasm_exec.js"] true;
                           Create "wasm_exec.js" false]
    | Some CannotCopy =>
        GOROOT ≠ "" ∧
        exists content k,
          readFile GOROOT ["lib"; "wasm"; "wasm_exec.js"] = Some content ∧
          (forall inside, files w !! "wasm_exec.js" ≠ Some (Directory inside)) ∧
          createDenied (files w) "wasm_exec.js" = false ∧
          copyStops (<["wasm_exec.js" := RegularFile ""]> (files w)) = Some k ∧
          files w' = <["wasm_exec.js" := RegularFile (String.substring 0 k content)]> (files w) ∧
          ops w' = ops w ++ [Open GOROOT ["lib"; "wasm"; "wasm_exec.js"] true;
                             Create "wasm_exec.js" true; Copy "wasm_exec.js" false]
    | None =>
        GOROOT ≠ "" ∧
        exists content,
          readFile GOROOT ["lib"; "wasm"; "wasm_exec.js"] = Some content ∧
          (forall inside, files w !! "wasm_exec.js" ≠ Some (Directory inside)) ∧
          createDenied (files w) "wasm_exec.js" = false ∧
          copyStops (<["wasm_exec.js" := RegularFile ""]> (files w)) = None ∧
          files w' = <["wasm_exec.js" := RegularFile content]> (files w) ∧
          ops w' = ops w ++ [Open GOROOT ["lib"; "wasm"; "wasm_exec.js"] true;
                             Create "wasm_exec.js" true; Copy "wasm_exec.js" true]
    end.
Proof.
  unfold build.copyWasmExec. case_bool_decide as Hroot.
  { exists (Some GorootNotSet), w. done. }
  unfold bind, os_Open, os_Create, io_Copy, ret, did. cbn [files ops printed].
  destruct (readFile GOROOT ["lib"; "wasm"; "wasm_exec.js"]) as [content|] eqn:Hsrc.
  2:{ eexists (Some CannotOpen), _. split; [reflexivity|]. done. }
  cbn [files ops printed].
  destruct (files w !! "wasm_exec.js") as [[old|inside]|] eqn:Hdest;
    [destruct (createDenied (files w) "wasm_exec.js") eqn:Hcreate | |
     destruct (createDenied (files w) "wasm_exec.js") eqn:Hcreate];
    cbn [files ops printed];
    try destruct (copyStops (<["wasm_exec.js" := RegularFile ""]> (files w))) as [k|] eqn:Hk;
    eexists _, _; (split; [reflexivity|]); cbn [files ops printed];
    rewrite ?insert_insert_eq, <- ?app_assoc; cbn [app]; repeat split;
    first [done | by right | left; by eexists | by eexists | by eexists _, _].
Qed.

(** Every path through [runBuild]. *)
Lemma runBuild_cases (w : Machine) :
  let r := statResult statDenied (files w) "main.go" in
  let env := environ ++ ["GOOS=js"; "GOARCH=wasm"] in
  let run ok := Run "go" ["build"; "-o"; "app.wasm"; "."] env ok in
  exists out w',
    runBuild w = (out, w') ∧
    ((IsNotExist r = true ∧ out = Stopped 1%Z ∧ files w' = files w ∧
      ops w' = ops w ++ [Stat "main.go" r; ExitWith 1] ∧
      printed w' = printed w ++ [NoMainGo]) ∨
     (IsNotExist r = false ∧
      exists ok after,
        goBuild (files w) env = (ok, after) ∧
        ((ok = false ∧ out = Stopped 1%Z ∧ files w' = after ∧
          ops w' = ops w ++ [Stat "main.go" r; run false; ExitWith 1] ∧
          printed w' = printed w ++ [Building; BuildFailed]) ∨
         (ok = true ∧
          exists err w2,
            copyWasmExec (mkMachine after (ops w ++ [Stat "main.go" r; run true])
                                    (printed w ++ [Building; BuildSuccessful]))
              = (Ok err, w2) ∧
            match err with
            | Some e =>
                out = Stopped 1%Z ∧ files w' = files w2 ∧
                ops w' = ops w2 ++ [ExitWith 1] ∧
                printed w' = printed w ++ [Building; BuildSuccessful; CopyFailed e]
            | None =>
                out = Ok tt ∧ files w' = files w2 ∧ ops w' = ops w2 ∧
                printed w' = printed w ++ [Building; BuildSuccessful; Copied; BuildComplete]
            end)))).
Proof.
  intros r env run.
  unfold build.runBuild, bind, os_Stat, Println, build.os_Exit, exec_Run, ret, did.
  cbn [files ops printed]. fold r. fold env.
  destruct (IsNotExist r) eqn:Hr.
  { cbn [files ops printed]. eexists _, _. split; [reflexivity|]. left.
    cbn [files ops printed]. rewrite <- !app_assoc. done. }
  cbn [files ops printed]. fold env.
  destruct (goBuild (files w) env) as [ok after] eqn:Hgo. cbn [files ops printed].
  destruct ok; cbn [files ops printed].
  2:{ eexists _, _. split; [reflexivity|]. right. split; [done|].
      exists false, after. split; [done|]. left. cbn [files ops printed].
      rewrite <- !app_assoc. done. }
  rewrite <- !app_assoc. cbn [app].
  match goal with
  | |- context [build.copyWasmExec _ _ _ _ ?m] =>
      destruct (copyWasmExec_cases m) as (err & w2 & Hcopy & Hprinted & _)
  end.
  cbn [printed] in Hprinted. rewrite Hcopy.
  destruct err as [e|]; cbn [files ops printed]; rewrite Hprinted, <- !app_assoc;
    (eexists _, _; split; [reflexivity|]); right; (split; [done|]);
    exists true, after; (split; [done|]); right; (split; [done|]);
    eexists _, w2; (split; [exact Hcopy|]); done.
Qed.

(** *** What the copy does *)

(** Extra X15.  When [copyWasmExec] returns an error, the working directory
    is as it was, unless the error is that of the copy itself: then
    [wasm_exec.js] holds the bytes written before the copy stopped, whatever
    it held before.  Without a Go root nothing is even opened. *)
Theorem copyWasmExec_error_keeps_or_truncates (w w' : Machine) (e : CopyError) :
  copyWasmExec w = (Ok (Some e), w') ->
  (GOROOT = "" -> e = GorootNotSet ∧ w' = w) ∧
  (e ≠ CannotCopy -> files w' = files w) ∧
  (e = CannotCopy ->
   exists content k,
     readFile GOROOT ["lib"; "wasm"; "wasm_exec.js"] = Some content ∧
     files w' = <["wasm_exec.js" := RegularFile (String.substring 0 k content)]> (files w)).
Proof.
  intros Hrun.
  destruct (copyWasmExec_cases w) as (err & w2 & Hcopy & _ & Hcases).
  rewrite Hrun in Hcopy. injection Hcopy as <- <-.
  destruct e.
  - destruct Hcases as [Hroot ->]. split; [done|]. split; [done|]. done.
  - destruct Hcases as (Hroot & _ & Hfiles & _).
    split; [done|]. split; [done|]. done.
  - destruct Hcases as (Hroot & _ & _ & Hfiles & _).
    split; [done|]. split; [done|]. done.
  - destruct Hcases as (Hroot & content & k & Hsrc & _ & _ & _ & Hfiles & _).
    split; [done|]. split; [done|]. intros _. by exists content, k.
Qed.

(** Extra X16.  When [copyWasmExec] returns without an error, [wasm_exec.js]
    of the working directory holds exactly the content of
    [lib/wasm/wasm_exec.js] under the Go root, every other name is as it
    was, and nothing was printed. *)
Theorem copyWasmExec_copies_the_glue_file (w w' : Machine) :
  copyWasmExec w = (Ok None, w') ->
  exists content,
    readFile GOROOT ["lib"; "wasm"; "wasm_exec.js"] = Some content ∧
    files w' !! "wasm_exec.js" = Some (RegularFile content) ∧
    (forall other, other ≠ "wasm_exec.js" -> files w' !! other = files w !! other) ∧
    printed w' = printed w.
Proof.
  intros Hrun.
  destruct (copyWasmExec_cases w) as (err & w2 & Hcopy & Hprinted & Hcases).
  rewrite Hrun in Hcopy. injection Hcopy as <- <-.
  destruct Hcases as (_ & content & Hsrc & _ & _ & _ & Hfiles & _).
  exists content. split; [done|]. rewrite Hfiles.
  split; [by rewrite lookup_insert_eq|]. split; [|done].
  intros other Hother. by rewrite lookup_insert_ne.
Qed.

(** *** What the build does *)

(** Extra X17.  When [runBuild] returns, [main.go] was not reported absent,
    the compiler succeeded, and the working directory is as the compiler
    left it but for [wasm_exec.js], which holds the content of the file of
    the Go installation. *)
Theorem runBuild_returns_after_build_and_copy (w w' : Machine) :
  runBuild w = (Ok tt, w') ->
  exists after content,
    IsNotExist (statResult statDenied (files w) "main.go") = false ∧
    goBuild (files w) (environ ++ ["GOOS=js"; "GOARCH=wasm"]) = (true, after) ∧
    GOROOT ≠ "" ∧
    readFile GOROOT ["lib"; "wasm"; "wasm_exec.js"] = Some content ∧
    files w' = <["wasm_exec.js" := RegularFile content]> after ∧
    printed w' = printed w ++ [Building; BuildSuccessful; Copied; BuildComplete].
Proof.
  intros Hrun.
  destruct (runBuild_cases w) as (out & w2 & Hcase & Hcases).
  rewrite Hrun in Hcase. injection Hcase as <- <-.
  destruct Hcases as [(_ & Hout & _)|(Hstat & ok & after & Hgo & Hbuilt)]; [done|].
  destruct Hbuilt as [(_ & Hout & _)|(-> & err & w2 & Hcopy & Herr)]; [done|].
  destruct err as [e|]; [by destruct Herr|].
  destruct Herr as (_ & Hfiles & _ & Hprinted).
  destruct (copyWasmExec_cases
              (mkMachine after
                 (ops w ++ [Stat "main.go" (statResult statDenied (files w) "main.go");
                            Run "go" ["build"; "-o"; "app.wasm"; "."]
                                (environ ++ ["GOOS=js"; "GOARCH=wasm"]) true])
                 (printed w ++ [Building; BuildSuccessful])))
    as (err & w3 & Hcopy' & _ & Hcases).
  rewrite Hcopy in Hcopy'. injection Hcopy' as <- <-.
  destruct Hcases as (Hroot & content & Hsrc & _ & _ & _ & Hfiles2 & _).
  exists after, content. rewrite Hfiles, Hfiles2. done.
Qed.

(** Extra X18.  [runBuild] returns whenever [main.go] is not reported
    absent, the compiler succeeds, the Go root is known and holds the file,
    and [wasm_exec.js] can be created and written in full. *)
Theorem runBuild_succeeds (w : Machine) (after : gmap string Entry) (content : string) :
  IsNotExist (statResult statDenied (files w) "main.go") = false ->
  goBuild (files w) (environ ++ ["GOOS=js"; "GOARCH=wasm"]) = (true, after) ->
  GOROOT ≠ "" ->
  readFile GOROOT ["lib"; "wasm"; "wasm_exec.js"] = Some content ->
  (forall inside, after !! "wasm_exec.js" ≠ Some (Directory inside)) ->
  createDenied after "wasm_exec.js" = false ->
  copyStops (<["wasm_exec.js" := RegularFile ""]> after) = None ->
  exists w',
    runBuild w = (Ok tt, w') ∧
    files w' = <["wasm_exec.js" := RegularFile content]> after ∧
    ops w' = ops w ++ [Stat "main.go" (statResult statDenied (files w) "main.go");
                       Run "go" ["build"; "-o"; "app.wasm"; "."]
                           (environ ++ ["GOOS=js"; "GOARCH=wasm"]) true;
                       Open GOROOT ["lib"; "wasm"; "wasm_exec.js"] true;
                       Create "wasm_exec.js" true;
                       Copy "wasm_exec.js" true].
Proof.
  intros Hstat Hgo Hroot Hsrc Hfile Hcreate Hfull.
  destruct (runBuild_cases w) as (out & w' & Hrun & Hcases).
  destruct Hcases as [(Habsent & _)|(_ & ok & after' & Hgo' & Hbuilt)]; [congruence|].
  rewrite Hgo in Hgo'. injection Hgo' as <- <-.
  destruct Hbuilt as [(? & _)|(_ & err & w2 & Hcopy & Herr)]; [done|].
  destruct (copyWasmExec_cases
              (mkMachine after
                 (ops w ++ [Stat "main.go" (statResult statDenied (files w) "main.go");
                            Run "go" ["build"; "-o"; "app.wasm"; "."]
                                (environ ++ ["GOOS=js"; "GOARCH=wasm"]) true])
                 (printed w ++ [Building; BuildSuccessful])))
    as (err' & w3 & Hcopy' & _ & Hcases).
  rewrite Hcopy in Hcopy'. injection Hcopy' as <- <-. cbn [files ops] in Hcases.
  destruct err as [[]|].
  - by destruct Hcases.
  - destruct Hcases as (_ & Hnone & _). congruence.
  - destruct Hcases as (_ & _ & [[inside Hdir]|Hdenied] & _);
      [by destruct (Hfile inside)|congruence].
  - destruct Hcases as (_ & content' & k & _ & _ & _ & Hk & _). congruence.
  - destruct Hcases as (_ & content' & Hsrc' & _ & _ & _ & Hfiles & Hops).
    rewrite Hsrc in Hsrc'. injection Hsrc' as <-.
    destruct Herr as (-> & Hf & Ho & _).
    exists w'. split; [done|]. rewrite Hf, Ho, Hfiles, Hops, <- app_assoc. done.
Qed.

(** The calls of [runBuild]: [Stat], then either the exit or the one run of
    the compiler and what follows it. *)
Lemma runBuild_calls (w w' : Machine) (out : Outcome Z unit) :
  runBuild w = (out, w') ->
  let r := statResult statDenied (files w) "main.go" in
  (IsNotExist r = true ∧ out = Stopped 1%Z ∧ files w' = files w ∧
   ops w' = ops w ++ [Stat "main.go" r; ExitWith 1]) ∨
  (IsNotExist r = false ∧
   exists ok rest,
     ops w' = ops w ++ Stat "main.go" r
                       :: Run "go" ["build"; "-o"; "app.wasm"; "."]
                              (environ ++ ["GOOS=js"; "GOARCH=wasm"]) ok
                       :: rest ∧
     Forall (fun c => match c with Run _ _ _ _ => False | _ => True end) rest).
Proof.
  intros Hrun r.
  destruct (runBuild_cases w) as (out' & w2 & Hcase & Hcases).
  rewrite Hrun in Hcase. injection Hcase as <- <-. fold r in Hcases.
  destruct Hcases as [(Hyes & ? & ? & ? & _)|(Hno & ok & after & Hgo & Hbuilt)];
    [by left|right].
  split; [done|]. exists ok.
  destruct Hbuilt as [(-> & _ & _ & Ho & _)|(-> & err & w2 & Hcopy & Herr)].
  { exists [ExitWith 1]. split; [done|]. by repeat constructor. }
  destruct (copyWasmExec_cases
              (mkMachine after
                 (ops w ++ [Stat "main.go" r;
                            Run "go" ["build"; "-o"; "app.wasm"; "."]
                                (environ ++ ["GOOS=js"; "GOARCH=wasm"]) true])
                 (printed w ++ [Building; BuildSuccessful])))
    as (err' & w3 & Hcopy' & _ & Hcases).
  rewrite Hcopy in Hcopy'. injection Hcopy' as <- <-. cbn [files ops] in Hcases.
  assert (Hops : exists tail,
             ops w2 = ops w ++ Stat "main.go" r
                               :: Run "go" ["build"; "-o"; "app.wasm"; "."]
                                      (environ ++ ["GOOS=js"; "GOARCH=wasm"]) true
                               :: tail ∧
             Forall (fun c => match c with Run _ _ _ _ => False | _ => True end) tail).
  { destruct err as [[]|].
    - destruct Hcases as [_ ->]. by exists [].
    - destruct Hcases as (_ & _ & _ & ->). rewrite <- app_assoc.
      eexists. split; [done|]. by repeat constructor.
    - destruct Hcases as (_ & _ & _ & _ & ->). rewrite <- app_assoc.
      eexists. split; [done|]. by repeat constructor.
    - destruct Hcases as (_ & ? & ? & _ & _ & _ & _ & _ & ->).
      rewrite <- app_assoc. eexists. split; [done|]. by repeat constructor.
    - destruct Hcases as (_ & ? & _ & _ & _ & _ & _ & ->).
      rewrite <- app_assoc. eexists. split; [done|]. by repeat constructor. }
  destruct Hops as (tail & Hops & Htail).
  destruct err as [e|].
  - destruct Herr as (_ & _ & -> & _). rewrite Hops, <- app_assoc.
    exists (tail ++ [ExitWith 1]). split; [done|].
    apply Forall_app. split; [done|]. by repeat constructor.
  - destruct Herr as (_ & _ & -> & _). rewrite Hops. by exists tail.
Qed.

(** Extra X19.  Only the absence of [main.go] keeps the compiler from
    running: then the command exits with status 1 and the working directory
    is untouched.  When [main.go] is there, and also when [Stat] fails for
    another reason, the compiler is run right after [Stat]. *)
Theorem runBuild_stops_only_on_absent_main_go (w w' : Machine) (out : Outcome Z unit) :
  runBuild w = (out, w') ->
  (files w !! "main.go" = None -> statDenied (files w) "main.go" = false ->
   out = Stopped 1%Z ∧ files w' = files w ∧
   ops w' = ops w ++ [Stat "main.go" NotExist; ExitWith 1]) ∧
  (files w !! "main.go" ≠ None ∨ statDenied (files w) "main.go" = true ->
   exists r ok rest,
     ops w' = ops w ++ Stat "main.go" r
                       :: Run "go" ["build"; "-o"; "app.wasm"; "."]
                              (environ ++ ["GOOS=js"; "GOARCH=wasm"]) ok
                       :: rest).
Proof.
  intros Hrun. apply runBuild_calls in Hrun. cbn zeta in Hrun.
  split.
  - intros Habsent Hstat.
    assert (Hr : statResult statDenied (files w) "main.go" = NotExist).
    { unfold statResult. by rewrite Hstat, Habsent. }
    rewrite Hr in Hrun.
    destruct Hrun as [(_ & ? & ? & ?)|(? & _)]; done.
  - intros Hthere.
    assert (Hr : IsNotExist (statResult statDenied (files w) "main.go") = false).
    { unfold statResult. destruct Hthere as [Hthere| ->]; [|done].
      destruct (statDenied (files w) "main.go"); [done|].
      by destruct (files w !! "main.go"). }
    destruct Hrun as [(Hyes & _)|(_ & ok & rest & Hops & _)]; [congruence|].
    by eexists _, ok, rest.
Qed.

(** The environment of the compiler: the two entries added come last, so
    they decide their keys. *)
Lemma envLookup_appended (key a b : string) (env : list string) :
  envLookup key (env ++ [a; b]) =
  match entryValue key b with
  | Some v => Some v
  | None => match entryValue key a with
            | Some v => Some v
            | None => envLookup key env
            end
  end.
Proof. unfold envLookup. rewrite reverse_app. reflexivity. Qed.

Lemma prefix_cons (a b : Ascii.ascii) (key s entry : string) :
  String.prefix (String a key +:+ s) (String b entry) =
  if Ascii.ascii_dec a b then String.prefix (key +:+ s) entry else false.
Proof. reflexivity. Qed.

Ltac key_step Hp key :=
  destruct key as [|? key];
  [vm_compute in Hp; try done|
   first [ rewrite prefix_cons in Hp;
           match type of Hp with
           | context [Ascii.ascii_dec ?a ?b] =>
               destruct (Ascii.ascii_dec a b) as [->|?]; [|done]
           end
         | vm_compute in Hp; done ]].

Lemma entryValue_GOOS (key v : string) :
  entryValue key "GOOS=js" = Some v -> key = "GOOS".
Proof.
  unfold entryValue. destruct (String.prefix (key +:+ "=") "GOOS=js") eqn:Hp; [|done].
  intros _. do 8 (try key_step Hp key).
Qed.

Lemma entryValue_GOARCH (key v : string) :
  entryValue key "GOARCH=wasm" = Some v -> key = "GOARCH".
Proof.
  unfold entryValue. destruct (String.prefix (key +:+ "=") "GOARCH=wasm") eqn:Hp; [|done].
  intros _. do 12 (try key_step Hp key).
Qed.

(** Extra X20.  Whatever the environment of the command holds, the compiler
    is run as [go build -o app.wasm .] for the target js/wasm: the
    environment it gets gives GOOS the value js and GOARCH the value wasm,
    and every other key the value it has in the environment of the command;
    and the compiler is run at most once. *)
Theorem runBuild_compiles_for_js_wasm
    (w w' : Machine) (out : Outcome Z unit) (new : list BuildCall)
    (name : string) (args env : list string) (ok : bool) :
  runBuild w = (out, w') ->
  ops w' = ops w ++ new ->
  Run name args env ok ∈ new ->
  name = "go" ∧ args = ["build"; "-o"; "app.wasm"; "."] ∧
  envLookup "GOOS" env = Some "js" ∧
  envLookup "GOARCH" env = Some "wasm" ∧
  (forall key, key ≠ "GOOS" -> key ≠ "GOARCH" -> envLookup key env = envLookup key environ) ∧
  exists before rest,
    new = before ++ Run name args env ok :: rest ∧
    (forall c, c ∈ before ++ rest -> match c with Run _ _ _ _ => False | _ => True end).
Proof.
  intros Hrun Hnew Hin. apply runBuild_calls in Hrun. cbn zeta in Hrun.
  destruct Hrun as [(_ & _ & _ & Hops)|(_ & ok' & rest & Hops & Hrest)].
  { rewrite Hnew in Hops. apply app_inv_head in Hops. subst new.
    apply elem_of_cons in Hin as [?|Hin]; [done|].
    by apply list_elem_of_singleton in Hin. }
  rewrite Hnew in Hops. apply app_inv_head in Hops. subst new.
  apply elem_of_cons in Hin as [?|Hin]; [done|].
  apply elem_of_cons in Hin as [Heq|Hin].
  2:{ rewrite Forall_forall in Hrest. by apply Hrest in Hin. }
  injection Heq as -> -> -> ->.
  split; [done|]. split; [done|].
  split; [by rewrite envLookup_appended|].
  split; [by rewrite envLookup_appended|].
  split.
  - intros key Hos Harch. rewrite envLookup_appended.
    destruct (entryValue key "GOARCH=wasm") as [v|] eqn:Ha.
    { by apply entryValue_GOARCH in Ha. }
    destruct (entryValue key "GOOS=js") as [v|] eqn:Ho.
    { by apply entryValue_GOOS in Ho. }
    done.
  - eexists [_], rest. split; [done|].
    intros c Hc. cbn [app] in Hc. apply elem_of_cons in Hc as [->|Hc]; [done|].
    rewrite Forall_forall in Hrest. by apply Hrest.
Qed.

(** Extra X21.  When the compiler fails, [runBuild] exits with status 1
    without looking for [wasm_exec.js]: nothing is opened, created or copied,
    and the working directory is as the compiler left it. *)
Theorem runBuild_failed_build_skips_copy
    (w w' : Machine) (out : Outcome Z unit) (after : gmap string Entry) :
  runBuild w = (out, w') ->
  IsNotExist (statResult statDenied (files w) "main.go") = false ->
  goBuild (files w) (environ ++ ["GOOS=js"; "GOARCH=wasm"]) = (false, after) ->
  out = Stopped 1%Z ∧
  files w' = after ∧
  ops w' = ops w ++ [Stat "main.go" (statResult statDenied (files w) "main.go");
                     Run "go" ["build"; "-o"; "app.wasm"; "."]
                         (environ ++ ["GOOS=js"; "GOARCH=wasm"]) false;
                     ExitWith 1] ∧
  printed w' = printed w ++ [Building; BuildFailed].
Proof.
  intros Hrun Hstat Hgo.
  destruct (runBuild_cases w) as (out' & w2 & Hcase & Hcases).
  rewrite Hrun in Hcase. injection Hcase as <- <-.
  destruct Hcases as [(Habsent & _)|(_ & ok & after' & Hgo' & Hbuilt)]; [congruence|].
  rewrite Hgo in Hgo'. injection Hgo' as <- <-.
  destruct Hbuilt as [(_ & ? & ? & ? & ?)|(? & _)]; done.
Qed.

(** Extra X22.  Every way [runBuild] stops is an exit with status 1, the
    last call made, after one error line, the last line printed: the lines
    before it are progress lines, and the line about the copy is not among
    them. *)
Theorem runBuild_stops_with_status_1 (w w' : Machine) (code : Z) :
  runBuild w = (Stopped code, w') ->
  code = 1%Z ∧
  last (ops w') = Some (ExitWith 1) ∧
  exists said m,
    printed w' = printed w ++ said ++ [m] ∧
    (m = NoMainGo ∨ m = BuildFailed ∨ exists e, m = CopyFailed e) ∧
    (Copied ∉ said) ∧
    Forall (fun line => line = Building ∨ line = BuildSuccessful) said.
Proof.
  intros Hrun.
  destruct (runBuild_cases w) as (out' & w2 & Hcase & Hcases).
  rewrite Hrun in Hcase. injection Hcase as <- <-.
  destruct Hcases as [(_ & Hout & _ & Ho & Hp)|(_ & ok & after & _ & Hbuilt)].
  { injection Hout as ->. split; [done|]. rewrite Ho, Hp.
    split; [by rewrite last_app|]. exists [], NoMainGo. split; [done|].
    split; [by left|]. split; [by intros ?%elem_of_nil | constructor]. }
  destruct Hbuilt as [(_ & Hout & _ & Ho & Hp)|(_ & err & w2 & _ & Herr)].
  { injection Hout as ->. split; [done|]. rewrite Ho, Hp.
    split; [by rewrite last_app|]. exists [Building], BuildFailed. split; [done|].
    split; [right; by left|]. split; [by intros ?%list_elem_of_singleton|].
    repeat constructor. }
  destruct err as [e|]; [|by destruct Herr].
  destruct Herr as (Hout & _ & Ho & Hp).
  injection Hout as ->. split; [done|]. rewrite Ho, Hp.
  split; [by rewrite last_app|]. exists [Building; BuildSuccessful], (CopyFailed e).
  split; [done|]. split; [right; right; by exists e|]. split.
  - intros Hin. apply elem_of_cons in Hin as [?|Hin]; [done|].
    by apply list_elem_of_singleton in Hin.
  - constructor; [by left|]. constructor; [by right | constructor].
Qed.

End BuildFacts.

(** ** The init command, then the build command *)

Section InitThenBuild.

Variable mkdirDenied : World -> string -> bool.
Variable writeDenied : World -> string -> string -> option WriteFailure.
Variable removeDenied : World -> string -> option (list string).
Variable rangeOrder : forall V, gmap string V -> list (string * V).
Hypothesis rangeOrder_perm : forall V (m : gmap string V), rangeOrder V m ≡ₚ map_to_list m.

Variable GOROOT : string.
Variable environ : list string.
Variable statDenied : gmap string Entry -> string -> bool.
Variable readFile : string -> list string -> option string.
Variable goBuild : gmap string Entry -> list string -> bool * gmap string Entry.
Variable createDenied : gmap string Entry -> string -> bool.
Variable copyStops : gmap string Entry -> option nat.

Lemma inside_lookup (files : gmap string string) (file content : string) :
  files !! file = Some content ->
  build.files (inside (TrimSpace <$> files)) !! file = Some (RegularFile (TrimSpace content)).
Proof.
  intros Hfile. unfold inside. cbn [build.files]. rewrite !lookup_fmap, Hfile. reflexivity.
Qed.

(** Extra X23.  The project check of the build command passes in a project
    the init command has made: run inside the directory of a [runInit] that
    returned, [runBuild] does not report [main.go] absent and runs the
    compiler. *)
Theorem runBuild_after_runInit_reaches_compiler (name : string) (w w' : World) :
  runInit mkdirDenied writeDenied removeDenied rangeOrder name w = (Ok tt, w') ->
  exists files,
    fs w' !! name = Some (Directory files) ∧
    exists out m r ok rest,
      build.runBuild GOROOT environ statDenied readFile goBuild createDenied copyStops
        (inside files) = (out, m) ∧
      r ≠ build.NotExist ∧
      build.ops m = build.Stat "main.go" r
                    :: build.Run "go" ["build"; "-o"; "app.wasm"; "."]
                         (environ ++ ["GOOS=js"; "GOARCH=wasm"]) ok
                    :: rest.
Proof.
  intros Hrun.
  destruct (runInit_full mkdirDenied writeDenied removeDenied rangeOrder rangeOrder_perm
              name w) as (out1 & w1 & Hrun1 & Hcases).
  rewrite Hrun in Hrun1. inversion Hrun1; subst out1 w1. clear Hrun1.
  destruct Hcases as [(? & _)|[(? & ? & ? & ? & _ & ? & _)|(_ & _ & _ & _ & Hf)]];
    [done|done|].
  exists (TrimSpace <$> filesToCreate name).
  split; [rewrite Hf; apply lookup_insert_eq|].
  destruct (filesToCreate_lookups name) as (Hmain & _).
  apply inside_lookup in Hmain.
  destruct (build.runBuild GOROOT environ statDenied readFile goBuild createDenied copyStops
              (inside (TrimSpace <$> filesToCreate name))) as [out m] eqn:Hbuild.
  apply runBuild_calls in Hbuild. cbn zeta in Hbuild.
  assert (Hr : build.statResult statDenied
                 (build.files (inside (TrimSpace <$> filesToCreate name))) "main.go"
               ≠ build.NotExist).
  { unfold build.statResult. destruct (statDenied _ _); [done|]. by rewrite Hmain. }
  destruct Hbuild as [(Habsent & _)|(_ & ok & rest & Hops & _)].
  { exfalso. revert Habsent Hr.
    generalize (build.statResult statDenied
                  (build.files (inside (TrimSpace <$> filesToCreate name))) "main.go").
    intros [] Habsent Hr; [discriminate Habsent | by destruct Hr | discriminate Habsent]. }
  exists out, m, (build.statResult statDenied
                    (build.files (inside (TrimSpace <$> filesToCreate name))) "main.go"),
    ok, rest.
  split; [reflexivity|]. split; [exact Hr|exact Hops].
Qed.

End InitThenBuild.

(** ** The build command on concrete systems *)

Lemma copyWasmExec_error_keeps_or_truncates_witness :
  (goRoot = "" ->
   build.CannotCopy = build.GorootNotSet ∧
   (build.copyWasmExec goRoot installation granted copyCut projectDir).2 = projectDir) ∧
  (build.CannotCopy ≠ build.CannotCopy ->
   build.files (build.copyWasmExec goRoot installation granted copyCut projectDir).2
   = build.files projectDir) ∧
  (build.CannotCopy = build.CannotCopy ->
   exists content k,
     installation goRoot ["lib"; "wasm"; "wasm_exec.js"] = Some content ∧
     build.files (build.copyWasmExec goRoot installation granted copyCut projectDir).2
     = <["wasm_exec.js" := RegularFile (String.substring 0 k content)]>
         (build.files projectDir)).
Proof.
  apply (copyWasmExec_error_keeps_or_truncates goRoot installation granted copyCut
           projectDir).
  vm_compute. reflexivity.
Defined.

(** The copy stopped after three bytes: the glue file of the earlier build is
    gone, three bytes of the new one are there. *)
Example copyWasmExec_on_cut_copy :
  build.files projectDir !! "wasm_exec.js" = Some (RegularFile "// old glue") ∧
  (build.copyWasmExec goRoot installation granted copyCut projectDir).1
  = Ok (Some build.CannotCopy) ∧
  build.files (build.copyWasmExec goRoot installation granted copyCut projectDir).2
    !! "wasm_exec.js" = Some (RegularFile "// ").
Proof. vm_compute. repeat split. Qed.

Lemma copyWasmExec_copies_the_glue_file_witness :
  exists content,
    installation goRoot ["lib"; "wasm"; "wasm_exec.js"] = Some content ∧
    build.files (build.copyWasmExec goRoot installation granted copiesAll projectDir).2
      !! "wasm_exec.js" = Some (RegularFile content) ∧
    (forall other, other ≠ "wasm_exec.js" ->
       build.files (build.copyWasmExec goRoot installation granted copiesAll projectDir).2
         !! other = build.files projectDir !! other) ∧
    build.printed (build.copyWasmExec goRoot installation granted copiesAll projectDir).2
    = build.printed projectDir.
Proof.
  apply (copyWasmExec_copies_the_glue_file goRoot installation granted copiesAll
           projectDir).
  vm_compute. reflexivity.
Defined.

Lemma runBuild_returns_after_build_and_copy_witness :
  exists after content,
    build.IsNotExist (build.statResult granted (build.files projectDir) "main.go") = false ∧
    compiles (build.files projectDir) (shellEnv ++ ["GOOS=js"; "GOARCH=wasm"])
    = (true, after) ∧
    goRoot ≠ "" ∧
    installation goRoot ["lib"; "wasm"; "wasm_exec.js"] = Some content ∧
    build.files (build.runBuild goRoot shellEnv granted installation compiles granted
                   copiesAll projectDir).2
    = <["wasm_exec.js" := RegularFile content]> after ∧
    build.printed (build.runBuild goRoot shellEnv granted installation compiles granted
                     copiesAll projectDir).2
    = build.printed projectDir
      ++ [build.Building; build.BuildSuccessful; build.Copied; build.BuildComplete].
Proof.
  apply (runBuild_returns_after_build_and_copy goRoot shellEnv granted installation compiles
           granted copiesAll projectDir).
  vm_compute. reflexivity.
Defined.

Lemma runBuild_succeeds_witness :
  exists w',
    build.runBuild goRoot shellEnv granted installation compiles granted copiesAll projectDir
    = (Ok tt, w') ∧
    build.files w'
    = <["wasm_exec.js" := RegularFile "// wasm glue"]>
        (<["app.wasm" := RegularFile "wasm"]> (build.files projectDir)) ∧
    build.ops w'
    = build.ops projectDir
      ++ [build.Stat "main.go"
            (build.statResult granted (build.files projectDir) "main.go");
          build.Run "go" ["build"; "-o"; "app.wasm"; "."]
            (shellEnv ++ ["GOOS=js"; "GOARCH=wasm"]) true;
          build.Open goRoot ["lib"; "wasm"; "wasm_exec.js"] true;
          build.Create "wasm_exec.js" true;
          build.Copy "wasm_exec.js" true].
Proof.
  apply (runBuild_succeeds goRoot shellEnv granted installation compiles granted copiesAll
           projectDir (<["app.wasm" := RegularFile "wasm"]> (build.files projectDir))
           "// wasm glue").
  - vm_compute. reflexivity.
  - reflexivity.
  - discriminate.
  - vm_compute. reflexivity.
  - intros inside. vm_compute. discriminate.
  - reflexivity.
  - reflexivity.
Defined.

Lemma runBuild_stops_only_on_absent_main_go_witness :
  (build.files emptyDir !! "main.go" = None ->
   granted (build.files emptyDir) "main.go" = false ->
   (build.runBuild goRoot shellEnv granted installation compiles granted copiesAll
      emptyDir).1 = Stopped 1%Z ∧
   build.files (build.runBuild goRoot shellEnv granted installation compiles granted
                  copiesAll emptyDir).2 = build.files emptyDir ∧
   build.ops (build.runBuild goRoot shellEnv granted installation compiles granted
                copiesAll emptyDir).2
   = build.ops emptyDir ++ [build.Stat "main.go" build.NotExist; build.ExitWith 1]) ∧
  (build.files emptyDir !! "main.go" ≠ None ∨
   granted (build.files emptyDir) "main.go" = true ->
   exists r ok rest,
     build.ops (build.runBuild goRoot shellEnv granted installation compiles granted
                  copiesAll emptyDir).2
     = build.ops emptyDir
       ++ build.Stat "main.go" r
          :: build.Run "go" ["build"; "-o"; "app.wasm"; "."]
               (shellEnv ++ ["GOOS=js"; "GOARCH=wasm"]) ok
          :: rest).
Proof.
  apply (runBuild_stops_only_on_absent_main_go goRoot shellEnv granted installation compiles
           granted copiesAll emptyDir).
  apply surjective_pairing.
Defined.

Lemma runBuild_failed_build_skips_copy_witness :
  (build.runBuild goRoot shellEnv granted installation compileFails granted copiesAll
     projectDir).1 = Stopped 1%Z ∧
  build.files (build.runBuild goRoot shellEnv granted installation compileFails granted
                 copiesAll projectDir).2 = build.files projectDir ∧
  build.ops (build.runBuild goRoot shellEnv granted installation compileFails granted
               copiesAll projectDir).2
  = build.ops projectDir
    ++ [build.Stat "main.go" (build.statResult granted (build.files projectDir) "main.go");
        build.Run "go" ["build"; "-o"; "app.wasm"; "."]
          (shellEnv ++ ["GOOS=js"; "GOARCH=wasm"]) false;
        build.ExitWith 1] ∧
  build.printed (build.runBuild goRoot shellEnv granted installation compileFails granted
                   copiesAll projectDir).2
  = build.printed projectDir ++ [build.Building; build.BuildFailed].
Proof.
  apply (runBuild_failed_build_skips_copy goRoot shellEnv granted installation compileFails
           granted copiesAll projectDir).
  - apply surjective_pairing.
  - vm_compute. reflexivity.
  - reflexivity.
Defined.

Lemma runBuild_stops_with_status_1_witness :
  1%Z = 1%Z ∧
  last (build.ops (build.runBuild goRoot shellEnv granted installation compiles granted
                     copyCut projectDir).2)
  = Some (build.ExitWith 1) ∧
  exists said m,
    build.printed (build.runBuild goRoot shellEnv granted installation compiles granted
                     copyCut projectDir).2
    = build.printed projectDir ++ said ++ [m] ∧
    (m = build.NoMainGo ∨ m = build.BuildFailed ∨ exists e, m = build.CopyFailed e) ∧
    (build.Copied ∉ said) ∧
    Forall (fun line => line = build.Building ∨ line = build.BuildSuccessful) said.
Proof.
  apply (runBuild_stops_with_status_1 goRoot shellEnv granted installation compiles granted
           copyCut projectDir).
  vm_compute. reflexivity.
Defined.

Lemma runBuild_compiles_for_js_wasm_witness :
  "go" = "go" ∧
  ["build"; "-o"; "app.wasm"; "."] = ["build"; "-o"; "app.wasm"; "."] ∧
  build.envLookup "GOOS" (shellEnv ++ ["GOOS=js"; "GOARCH=wasm"]) = Some "js" ∧
  build.envLookup "GOARCH" (shellEnv ++ ["GOOS=js"; "GOARCH=wasm"]) = Some "wasm" ∧
  (forall key, key ≠ "GOOS" -> key ≠ "GOARCH" ->
     build.envLookup key (shellEnv ++ ["GOOS=js"; "GOARCH=wasm"])
     = build.envLookup key shellEnv) ∧
  exists before rest,
    build.ops (build.runBuild goRoot shellEnv granted installation compiles granted
                 copiesAll projectDir).2
    = before ++ build.Run "go" ["build"; "-o"; "app.wasm"; "."]
                  (shellEnv ++ ["GOOS=js"; "GOARCH=wasm"]) true :: rest ∧
    (forall c, c ∈ before ++ rest ->
       match c with build.Run _ _ _ _ => False | _ => True end).
Proof.
  apply (runBuild_compiles_for_js_wasm goRoot shellEnv granted installation compiles granted
           copiesAll projectDir
           (build.runBuild goRoot shellEnv granted installation compiles granted
              copiesAll projectDir).2
           (build.runBuild goRoot shellEnv granted installation compiles granted
              copiesAll projectDir).1).
  - apply surjective_pairing.
  - reflexivity.
  - vm_compute. apply list_elem_of_further, list_elem_of_here.
Defined.

(** The shell asks for Linux; the compiler is told js. *)
Example shellEnv_overridden :
  build.envLookup "GOOS" shellEnv = Some "linux" ∧
  build.envLookup "GOOS" (shellEnv ++ ["GOOS=js"; "GOARCH=wasm"]) = Some "js" ∧
  build.envLookup "HOME" (shellEnv ++ ["GOOS=js"; "GOARCH=wasm"]) = Some "/root".
Proof. vm_compute. repeat split. Qed.

Lemma runBuild_after_runInit_reaches_compiler_witness :
  exists files,
    fs (runInit allowed2 allowed3 removable listedOrder "my-app" emptyDisk).2 !! "my-app"
    = Some (Directory files) ∧
    exists out m r ok rest,
      build.runBuild goRoot shellEnv granted installation compiles granted copiesAll
        (inside files) = (out, m) ∧
      r ≠ build.NotExist ∧
      build.ops m = build.Stat "main.go" r
                    :: build.Run "go" ["build"; "-o"; "app.wasm"; "."]
                         (shellEnv ++ ["GOOS=js"; "GOARCH=wasm"]) ok
                    :: rest.
Proof.
  apply (runBuild_after_runInit_reaches_compiler allowed2 allowed3 removable listedOrder
           listedOrder_perm goRoot shellEnv granted installation compiles granted copiesAll
           "my-app" emptyDisk).
  vm_compute. reflexivity.
Defined.
